(** * Todo API: validators, route handlers and the [todos] table

    A shallow embedding of [src/index.js] (both revisions of the route
    handlers that the file holds: the original one, here [Simple], and the
    one with validation helpers and [try]/[catch], here [Hardened]) and of
    [src/db.js], followed by the properties of the request contract.

    Modelling conventions.
    - A JavaScript string is the list of its UTF-16 code units, so that
      [length] is the [.length] of the source and the white-space class is
      the one of [String.prototype.trim] and of the [\s] regular expression.
    - The request body, when it parses, is a JSON object.  (The body
      [null], on which reading [body.title] raises a TypeError outside any
      [try], is left out.)  The values read from it are JSON primitives
      ([value]); a property that is absent reads as [VUndefined].  Array-
      and object-valued fields are left out: what is stated of a field
      value is stated of a primitive.  JSON numbers are integers here: the
      handlers only test a number for being zero.
    - [async] code is a state-and-exception computation over the database
      binding ([Async]); a rejected promise is [Throw].  What is thrown is
      an [Error] object; its [message] is a string, empty when there is
      none.  (A rejection with [null] or [undefined], whose [message]
      cannot be read, is left out.)
    - The persistence functions are reached through the mutable [dbLayer]
      object in the source; the handlers are therefore parameterised by a
      [dbLayer] record.  [d1] is the instance given by the SQL of
      [src/db.js] run on an in-memory table whose columns hold the values
      as they were bound, which is what the engine stores for a string and
      for [null] (its conversion of a number or a boolean bound to a TEXT
      column is not modelled), and [unreliable] makes the calls of an
      instance fail on demand.
    - [console.error] logging in the [catch] blocks has no effect on the
      response or on the table: [Hardened] leaves it out, and [Logged] is
      the same handlers with the console, proved to give the same
      responses. *)

From Stdlib Require Import List ZArith NArith Bool Lia String Ascii.
From Stdlib Require Import DecimalFacts DecimalPos.
From Stdlib Require HexadecimalFacts HexadecimalPos.
From Stdlib Require Import Sorted.
Import ListNotations.
Open Scope Z_scope.

Set Implicit Arguments.

(* ------------------------------------------------------------------ *)
(** ** Strings as UTF-16 code units *)

Definition jsstr := list N.

(** A string literal of the source (ASCII only). *)
Definition lit (s : string) : jsstr :=
  map N_of_ascii (list_ascii_of_string s).
Arguments lit : simpl never.

Fixpoint str_eqb (a b : jsstr) : bool :=
  match a, b with
  | [], [] => true
  | x :: a', y :: b' => N.eqb x y && str_eqb a' b'
  | _, _ => false
  end.

(** WhiteSpace and LineTerminator of ECMAScript: what [trim], [\s] and
    the prefix skipped by [parseInt] recognise. *)
Definition is_ws (c : N) : bool :=
  (((9 <=? c) && (c <=? 13))                 (* TAB LF VT FF CR *)
   || (c =? 32) || (c =? 160)                (* SP, NBSP *)
   || (c =? 5760)                            (* U+1680 *)
   || ((8192 <=? c) && (c <=? 8202))         (* U+2000 .. U+200A *)
   || (c =? 8232) || (c =? 8233)             (* LS, PS *)
   || (c =? 8239) || (c =? 8287)             (* U+202F, U+205F *)
   || (c =? 12288) || (c =? 65279))%N.       (* U+3000, U+FEFF *)

Fixpoint trimStart (s : jsstr) : jsstr :=
  match s with
  | c :: r => if is_ws c then trimStart r else s
  | [] => []
  end.

Definition trimEnd (s : jsstr) : jsstr := rev (trimStart (rev s)).

Definition trim (s : jsstr) : jsstr := trimEnd (trimStart s).

(** [s.replace(/\s+/g, " ")]: every maximal run of white space becomes one
    space.  [in_run] says that the previous code unit was white space. *)
Fixpoint replace_ws_runs (in_run : bool) (s : jsstr) : jsstr :=
  match s with
  | [] => []
  | c :: r =>
      if is_ws c
      then (if in_run then replace_ws_runs true r
            else 32%N :: replace_ws_runs true r)
      else c :: replace_ws_runs false r
  end.

(** [hay.includes(needle)] on strings. *)
Fixpoint starts_with (needle hay : jsstr) : bool :=
  match needle, hay with
  | [], _ => true
  | x :: n', y :: h' => N.eqb x y && starts_with n' h'
  | _ :: _, [] => false
  end.

Fixpoint includes (hay needle : jsstr) : bool :=
  starts_with needle hay ||
  match hay with
  | [] => false
  | _ :: h' => includes h' needle
  end.

(* ------------------------------------------------------------------ *)
(** ** [parseInt(string)] with the radix left out *)

Definition digit_value (c : N) : option Z :=
  if ((48 <=? c) && (c <=? 57))%N then Some (Z.of_N c - 48)
  else if ((97 <=? c) && (c <=? 122))%N then Some (Z.of_N c - 97 + 10)
  else if ((65 <=? c) && (c <=? 90))%N then Some (Z.of_N c - 65 + 10)
  else None.

Definition radix_digit (R : Z) (c : N) : option Z :=
  match digit_value c with
  | Some d => if d <? R then Some d else None
  | None => None
  end.

(** Value of the longest prefix of radix-[R] digits, as a mathematical
    integer; [acc] is [None] as long as no digit was read. *)
Fixpoint parse_digits (R : Z) (s : jsstr) (acc : option Z) : option Z :=
  match s with
  | [] => acc
  | c :: r =>
      match radix_digit R c with
      | Some d =>
          parse_digits R r
            (Some (match acc with Some a => a * R + d | None => d end))
      | None => acc
      end
  end.

(** [None] is [NaN].  The result is the mathematical integer that the
    digits denote.  The source rounds it to a double: below [2^53] that is
    the same number; from there on the source may give a neighbouring
    number, with the same sign and zero only for zero, which is all that
    the handlers test before the lookup.  Statements that depend on which
    number is read carry the bound [2^53]. *)
Definition parseInt (input : jsstr) : option Z :=
  let s := trimStart input in
  let '(sign, s) :=
    match s with
    | c :: r => if (c =? 45)%N then (-1, r)
                else if (c =? 43)%N then (1, r) else (1, s)
    | [] => (1, s)
    end in
  let '(R, s) :=
    match s with
    | z :: x :: r =>
        if ((z =? 48) && ((x =? 120) || (x =? 88)))%N then (16, r)
        else (10, s)
    | _ => (10, s)
    end in
  match parse_digits R s None with
  | None => None
  | Some m => Some (sign * m)
  end.

(** The digits that [String(n)] gives for an integer [n], as a client
    writes an id into a path.  (The source prints a double: this is its
    output as long as the integer is below 10^21.) *)
Fixpoint uint_digits (u : Decimal.uint) : jsstr :=
  match u with
  | Decimal.Nil => []
  | Decimal.D0 u' => 48%N :: uint_digits u'
  | Decimal.D1 u' => 49%N :: uint_digits u'
  | Decimal.D2 u' => 50%N :: uint_digits u'
  | Decimal.D3 u' => 51%N :: uint_digits u'
  | Decimal.D4 u' => 52%N :: uint_digits u'
  | Decimal.D5 u' => 53%N :: uint_digits u'
  | Decimal.D6 u' => 54%N :: uint_digits u'
  | Decimal.D7 u' => 55%N :: uint_digits u'
  | Decimal.D8 u' => 56%N :: uint_digits u'
  | Decimal.D9 u' => 57%N :: uint_digits u'
  end.

Definition Number_toString (n : Z) : jsstr :=
  match n with
  | Z0 => [48%N]
  | Zpos p => uint_digits (Pos.to_uint p)
  | Zneg p => 45%N :: uint_digits (Pos.to_uint p)
  end.

(* ------------------------------------------------------------------ *)
(** ** JSON values of the request body *)

Inductive value : Type :=
| VUndefined
| VNull
| VBool (b : bool)
| VNum (n : Z)
| VStr (s : jsstr).

(** ToBoolean, as used by [!x] and [x || y]. *)
Definition truthy (v : value) : bool :=
  match v with
  | VUndefined | VNull => false
  | VBool b => b
  | VNum n => negb (n =? 0)
  | VStr s => negb (Nat.eqb (List.length s) 0)
  end.

(** [a ?? b] *)
Definition nullish_or (a b : value) : value :=
  match a with
  | VUndefined | VNull => b
  | _ => a
  end.

(** SameValueZero, the comparison of [Array.prototype.includes]. *)
Definition same_value_zero (a b : value) : bool :=
  match a, b with
  | VUndefined, VUndefined => true
  | VNull, VNull => true
  | VBool x, VBool y => Bool.eqb x y
  | VNum x, VNum y => x =? y
  | VStr x, VStr y => str_eqb x y
  | _, _ => false
  end.

(** [message || fallback] on strings. *)
Definition or_default (message fallback : jsstr) : jsstr :=
  match message with
  | [] => fallback
  | _ => message
  end.

(* ------------------------------------------------------------------ *)
(** ** Validators of the hardened revision *)

Definition DEFAULT_STATUS : value := VStr (lit "incomplete").

Definition validStatuses : list value :=
  [ VStr (lit "incomplete"); VStr (lit "in-progress");
    VStr (lit "complete"); VStr (lit "archived") ].

Definition isValidStatus (status : value) : bool :=
  existsb (same_value_zero status) validStatuses.

(** [typeof v === "string"], with the string when it is one. *)
Definition as_string (v : value) : option jsstr :=
  match v with
  | VStr s => Some s
  | _ => None
  end.

Definition sanitizeTitle (title : value) : jsstr :=
  match as_string title with
  | None => []
  | Some s =>
      if negb (truthy title) then []
      else
        let trimmed := trim s in
        if Nat.eqb (List.length trimmed) 0 then []
        else replace_ws_runs false trimmed
  end.

(** The object returned by [validateTodoId]:
    [{isValid: false, parsedId: null, error}] or
    [{isValid: true, parsedId, error: null}]. *)
Inductive IdValidation : Type :=
| InvalidId (error : jsstr)
| ValidId (parsedId : Z).

Definition isValid (v : IdValidation) : bool :=
  match v with
  | ValidId _ => true
  | InvalidId _ => false
  end.

Definition validateTodoId (id : jsstr) : IdValidation :=
  match parseInt id with
  | None => InvalidId (lit "Invalid ID")
  | Some parsedId =>
      if parsedId <=? 0 then InvalidId (lit "Invalid ID")
      else ValidId parsedId
  end.

(** [description.length > maxLength]; a boolean or a number has no [length],
    and [undefined > maxLength] is false. *)
Definition isDescriptionTooLong (description : value) (maxLength : nat) : bool :=
  if negb (truthy description) then false
  else match description with
       | VStr s => Nat.ltb maxLength (List.length s)
       | _ => false
       end.

(** [None]: the call [description.includes] raises a TypeError (a truthy
    boolean or number has no such method). *)
Definition isValidDescription (description : value) : option bool :=
  if negb (truthy description) then Some true
  else match description with
       | VStr s =>
           if includes s (lit "<script>") then Some false
           else if includes s (lit "javascript:") then Some false
           else if includes s (lit "onerror=") then Some false
           else if includes s (lit "onload=") then Some false
           else if Nat.ltb 5000 (List.length s) then Some false
           else Some true
       | _ => None
       end.

(* ------------------------------------------------------------------ *)
(** ** Rows, request bodies and responses *)

(** A row of [todos]: [id INTEGER PRIMARY KEY AUTOINCREMENT, title,
    description, status].  A column holds the value that was bound. *)
Module Todo.
Record t : Type := mk {
  id : Z;
  title : value;
  description : value;
  status : value
}.
End Todo.

(** The object that [request.json()] resolves to, as far as the handlers
    read it. *)
Module Body.
Record t : Type := mk {
  title : value;
  description : value;
  status : value
}.
End Body.

(** What is passed to [json(...)]. *)
Inductive payload : Type :=
| JOk                              (* {ok: true} *)
| JSuccess                         (* {success: true} *)
| JError (error : jsstr)           (* {error: ...} *)
| JTodos (results : list Todo.t)   (* results *)
| JTodo (first : option Todo.t).   (* results[0], undefined on [] *)

Module Response.
Record t : Type := mk {
  status : Z;
  body : payload
}.
End Response.

Definition json (data : payload) (status : Z) : Response.t :=
  Response.mk status data.

Module HTTP_STATUS.
Definition OK := 200.
Definition CREATED := 201.
Definition BAD_REQUEST := 400.
Definition NOT_FOUND := 404.
Definition METHOD_NOT_ALLOWED := 405.
Definition INTERNAL_SERVER_ERROR := 500.
End HTTP_STATUS.

(* ------------------------------------------------------------------ *)
(** ** Asynchronous computations over the database binding *)

(** A thrown value or the reason of a rejected promise: an [Error] with its
    [message]. *)
Record Error : Type := { message : jsstr }.

Inductive completion (A : Type) : Type :=
| Return (a : A)
| Throw (err : Error).
Arguments Return {A} a.
Arguments Throw {A} err.

Definition Async (DB A : Type) : Type := DB -> completion A * DB.

Definition ret {DB A} (a : A) : Async DB A := fun db => (Return a, db).

Definition throw {DB A} (err : Error) : Async DB A := fun db => (Throw err, db).

Definition bind {DB A B} (c : Async DB A) (k : A -> Async DB B) : Async DB B :=
  fun db =>
    match c db with
    | (Return a, db') => k a db'
    | (Throw err, db') => (Throw err, db')
    end.

Definition try_catch {DB A} (c : Async DB A) (handler : Error -> Async DB A)
  : Async DB A :=
  fun db =>
    match c db with
    | (Return a, db') => (Return a, db')
    | (Throw err, db') => handler err db'
    end.

Declare Scope async_scope.
Delimit Scope async_scope with async.
Notation "'await' x <- c ;; k" := (bind c (fun x => k))
  (at level 10, x name, c at level 100, k at level 200) : async_scope.
Notation "'await_' c ;; k" := (bind c (fun _ => k))
  (at level 10, c at level 100, k at level 200) : async_scope.
Open Scope async_scope.

(** The TypeError of calling [includes] on a value that has none. *)
Definition TypeError_includes : Error :=
  {| message := lit "description.includes is not a function" |}.

(* ------------------------------------------------------------------ *)
(** ** The persistence functions, [dbLayer] *)

(** [meta] of the result of [run()]. *)
Record Meta : Type := { changes : Z }.

(** The result of [run()] as read by the handlers: [meta] may be missing. *)
Record RunResult : Type := { meta : option Meta }.

(** Each query function yields the [results] property of what it resolves
    to.  For [todoExists] the handler tests [!exists], so [results] may be
    missing there; its rows are those of [SELECT 1]. *)
Record dbLayer (DB : Type) : Type := {
  getAllTodos : Async DB (list Todo.t);
  getTodoById : Z -> Async DB (list Todo.t);
  insertTodo : value -> value -> value -> Async DB RunResult;
  getLatestTodo : Async DB (list Todo.t);
  todoExists : Z -> Async DB (option (list Z));
  updateTodo : Z -> value -> value -> value -> Async DB RunResult;
  deleteTodo : Z -> Async DB RunResult
}.

(* ------------------------------------------------------------------ *)
(** ** Requests, by the route they match *)

Inductive request : Type :=
| GET_root                                               (* GET / *)
| GET_todos                                              (* GET /todos *)
| GET_todo (params_id : jsstr)                           (* GET /todos/:id *)
| POST_todos (request_json : option Body.t)              (* POST /todos *)
| PUT_todo (params_id : jsstr) (request_json : option Body.t)
| DELETE_todo (params_id : jsstr)                        (* DELETE /todos/:id *)
| Unmatched.                                             (* router.all("*") *)

(* ------------------------------------------------------------------ *)
(** ** Route handlers, original revision *)

Module Simple.
Section Routes.
Context {DB : Type} (L : dbLayer DB).

(** [GET /todos] *)
Definition get_todos : Async DB Response.t :=
  try_catch
    (await results <- getAllTodos L ;;
     ret (json (JTodos results) 200))
    (fun err =>
       ret (json (JError (or_default (message err) (lit "DB failure"))) 500)).

(** [GET /todos/:id] *)
Definition get_todo (params_id : jsstr) : Async DB Response.t :=
  match parseInt params_id with
  | None => ret (json (JError (lit "Invalid ID")) 400)
  | Some id =>
      await results <- getTodoById L id ;;
      if Nat.eqb (List.length results) 0
      then ret (json (JError (lit "Not found")) 404)
      else ret (json (JTodo (hd_error results)) 200)
  end.

(** [POST /todos]; [request_json] is [None] when [request.json()]
    rejects. *)
Definition post_todos (request_json : option Body.t) : Async DB Response.t :=
  match request_json with
  | None => ret (json (JError (lit "Invalid JSON")) 400)
  | Some body =>
      if negb (truthy (Body.title body))
      then ret (json (JError (lit "Title required")) 400)
      else
        let description := nullish_or (Body.description body) VNull in
        let status := nullish_or (Body.status body) (VStr (lit "incomplete")) in
        await_ insertTodo L (Body.title body) description status ;;
        await results <- getLatestTodo L ;;
        ret (json (JTodo (hd_error results)) 201)
  end.

(** [PUT /todos/:id] *)
Definition put_todo (params_id : jsstr) (request_json : option Body.t)
  : Async DB Response.t :=
  match parseInt params_id with
  | None => ret (json (JError (lit "Invalid id")) 400)
  | Some id =>
      if id <=? 0 then ret (json (JError (lit "Invalid id")) 400)
      else
        match request_json with
        | None => ret (json (JError (lit "Invalid JSON")) 400)
        | Some body =>
            if negb (truthy (Body.title body))
            then ret (json (JError (lit "Title required for PUT")) 400)
            else
              await exists_ <- todoExists L id ;;
              match exists_ with
              | None => ret (json (JError (lit "Not found")) 404)
              | Some rows =>
                  if Nat.eqb (List.length rows) 0
                  then ret (json (JError (lit "Not found")) 404)
                  else
                    let description :=
                      nullish_or (Body.description body) VNull in
                    let status :=
                      nullish_or (Body.status body) (VStr (lit "incomplete")) in
                    await_ updateTodo L id (Body.title body) description status ;;
                    await updated <- getTodoById L id ;;
                    ret (json (JTodo (hd_error updated)) 200)
              end
        end
  end.

(** [DELETE /todos/:id] *)
Definition delete_todo (params_id : jsstr) : Async DB Response.t :=
  match parseInt params_id with
  | None => ret (json (JError (lit "Invalid ID")) 400)
  | Some id =>
      await result <- deleteTodo L id ;;
      match meta result with
      | None => ret (json (JError (lit "Not found")) 404)
      | Some m =>
          if changes m =? 0
          then ret (json (JError (lit "Not found")) 404)
          else ret (json JSuccess 200)
      end
  end.

(** [app.fetch]: the router. *)
Definition fetch (req : request) : Async DB Response.t :=
  match req with
  | GET_root => ret (json JOk 200)
  | GET_todos => get_todos
  | GET_todo id => get_todo id
  | POST_todos body => post_todos body
  | PUT_todo id body => put_todo id body
  | DELETE_todo id => delete_todo id
  | Unmatched => ret (json (JError (lit "Not Found")) 405)
  end.
End Routes.
End Simple.

(* ------------------------------------------------------------------ *)
(** ** Route handlers, hardened revision *)

Module Hardened.
Section Routes.
Context {DB : Type} (L : dbLayer DB).

(** The [catch (err)] block shared by the handlers. *)
Definition on_failure (err : Error) : Async DB Response.t :=
  ret (json (JError (or_default (message err) (lit "DB failure")))
            HTTP_STATUS.INTERNAL_SERVER_ERROR).

(** [GET /todos] *)
Definition get_todos : Async DB Response.t :=
  try_catch
    (await results <- getAllTodos L ;;
     ret (json (JTodos results) HTTP_STATUS.OK))
    on_failure.

(** [GET /todos/:id] *)
Definition get_todo (params_id : jsstr) : Async DB Response.t :=
  match validateTodoId params_id with
  | InvalidId error => ret (json (JError error) HTTP_STATUS.BAD_REQUEST)
  | ValidId id =>
      try_catch
        (await results <- getTodoById L id ;;
         if Nat.eqb (List.length results) 0
         then ret (json (JError (lit "Not found")) HTTP_STATUS.NOT_FOUND)
         else ret (json (JTodo (hd_error results)) HTTP_STATUS.OK))
        on_failure
  end.

(** [POST /todos] *)
Definition post_todos (request_json : option Body.t) : Async DB Response.t :=
  match request_json with
  | None => ret (json (JError (lit "Invalid JSON")) HTTP_STATUS.BAD_REQUEST)
  | Some body =>
      if negb (truthy (Body.title body))
      then ret (json (JError (lit "Title required")) HTTP_STATUS.BAD_REQUEST)
      else
        let sanitizedTitle := sanitizeTitle (Body.title body) in
        if negb (truthy (VStr sanitizedTitle))
        then ret (json (JError (lit "Title cannot be empty"))
                       HTTP_STATUS.BAD_REQUEST)
        else
          let description := nullish_or (Body.description body) VNull in
          if isDescriptionTooLong description 1000
          then ret (json (JError
                            (lit "Description is too long (max 1000 characters)"))
                         HTTP_STATUS.BAD_REQUEST)
          else
            match isValidDescription description with
            | None => throw TypeError_includes
            | Some false =>
                ret (json (JError (lit "Description contains invalid content"))
                          HTTP_STATUS.BAD_REQUEST)
            | Some true =>
                let status :=
                  if isValidStatus (Body.status body)
                  then Body.status body else DEFAULT_STATUS in
                try_catch
                  (await_ insertTodo L (VStr sanitizedTitle) description status ;;
                   await results <- getLatestTodo L ;;
                   ret (json (JTodo (hd_error results)) HTTP_STATUS.CREATED))
                  on_failure
            end
  end.

(** [PUT /todos/:id] *)
Definition put_todo (params_id : jsstr) (request_json : option Body.t)
  : Async DB Response.t :=
  match validateTodoId params_id with
  | InvalidId error => ret (json (JError error) HTTP_STATUS.BAD_REQUEST)
  | ValidId id =>
      match request_json with
      | None => ret (json (JError (lit "Invalid JSON")) HTTP_STATUS.BAD_REQUEST)
      | Some body =>
          if negb (truthy (Body.title body))
          then ret (json (JError (lit "Title required for PUT"))
                         HTTP_STATUS.BAD_REQUEST)
          else
            let sanitizedTitle := sanitizeTitle (Body.title body) in
            if negb (truthy (VStr sanitizedTitle))
            then ret (json (JError (lit "Title cannot be empty"))
                           HTTP_STATUS.BAD_REQUEST)
            else
              try_catch
                (await exists_ <- todoExists L id ;;
                 match exists_ with
                 | None =>
                     ret (json (JError (lit "Not found")) HTTP_STATUS.NOT_FOUND)
                 | Some rows =>
                     if Nat.eqb (List.length rows) 0
                     then ret (json (JError (lit "Not found"))
                                    HTTP_STATUS.NOT_FOUND)
                     else
                       let description :=
                         nullish_or (Body.description body) VNull in
                       if isDescriptionTooLong description 1000
                       then ret (json
                                   (JError
                                      (lit "Description is too long (max 1000 characters)"))
                                   HTTP_STATUS.BAD_REQUEST)
                       else
                         let status :=
                           if isValidStatus (Body.status body)
                           then Body.status body else DEFAULT_STATUS in
                         await_ updateTodo L id (VStr sanitizedTitle)
                                           description status ;;
                         await updated <- getTodoById L id ;;
                         ret (json (JTodo (hd_error updated)) HTTP_STATUS.OK)
                 end)
                on_failure
      end
  end.

(** [DELETE /todos/:id] *)
Definition delete_todo (params_id : jsstr) : Async DB Response.t :=
  match validateTodoId params_id with
  | InvalidId error => ret (json (JError error) HTTP_STATUS.BAD_REQUEST)
  | ValidId id =>
      try_catch
        (await result <- deleteTodo L id ;;
         match meta result with
         | None => ret (json (JError (lit "Not found")) HTTP_STATUS.NOT_FOUND)
         | Some m =>
             if changes m =? 0
             then ret (json (JError (lit "Not found")) HTTP_STATUS.NOT_FOUND)
             else ret (json JSuccess HTTP_STATUS.OK)
         end)
        on_failure
  end.

(** [app.fetch]: the router. *)
Definition fetch (req : request) : Async DB Response.t :=
  match req with
  | GET_root => ret (json JOk HTTP_STATUS.OK)
  | GET_todos => get_todos
  | GET_todo id => get_todo id
  | POST_todos body => post_todos body
  | PUT_todo id body => put_todo id body
  | DELETE_todo id => delete_todo id
  | Unmatched =>
      ret (json (JError (lit "Not Found")) HTTP_STATUS.METHOD_NOT_ALLOWED)
  end.
End Routes.
End Hardened.

(* ------------------------------------------------------------------ *)
(** ** The [todos] table and the statements of [src/db.js] *)

(** [rows] in rowid order; [seq] is the AUTOINCREMENT high-water mark kept
    in [sqlite_sequence]. *)
Record D1 : Type := {
  rows : list Todo.t;
  seq : Z
}.

Definition has_id (id : Z) (r : Todo.t) : bool := Todo.id r =? id.

Definition max_rowid (rs : list Todo.t) : Z :=
  fold_right (fun r m => Z.max (Todo.id r) m) 0 rs.

(** AUTOINCREMENT: one more than the largest rowid that ever existed. *)
Definition next_rowid (db : D1) : Z :=
  Z.max (seq db) (max_rowid (rows db)) + 1.

(** The first row of [ORDER BY id DESC]. *)
Fixpoint latest (rs : list Todo.t) : option Todo.t :=
  match rs with
  | [] => None
  | r :: rest =>
      match latest rest with
      | Some r' => if Todo.id r <? Todo.id r' then Some r' else Some r
      | None => Some r
      end
  end.

(** [SELECT * FROM todos] *)
Definition d1_getAllTodos : Async D1 (list Todo.t) :=
  fun db => (Return (rows db), db).

(** [SELECT * FROM todos WHERE id = ?] *)
Definition d1_getTodoById (id : Z) : Async D1 (list Todo.t) :=
  fun db => (Return (filter (has_id id) (rows db)), db).

(** [INSERT INTO todos (title, description, status) VALUES (?, ?, ?)] *)
Definition d1_insertTodo (title description status : value)
  : Async D1 RunResult :=
  fun db =>
    let id := next_rowid db in
    (Return {| meta := Some {| changes := 1 |} |},
     {| rows := rows db ++ [Todo.mk id title description status];
        seq := id |}).

(** [SELECT * FROM todos ORDER BY id DESC LIMIT 1] *)
Definition d1_getLatestTodo : Async D1 (list Todo.t) :=
  fun db =>
    (Return (match latest (rows db) with Some r => [r] | None => [] end), db).

(** [SELECT 1 FROM todos WHERE id = ?] *)
Definition d1_todoExists (id : Z) : Async D1 (option (list Z)) :=
  fun db =>
    (Return (Some (map (fun _ => 1) (filter (has_id id) (rows db)))), db).

(** [UPDATE todos SET title = ?, description = ?, status = ? WHERE id = ?] *)
Definition d1_updateTodo (id : Z) (title description status : value)
  : Async D1 RunResult :=
  fun db =>
    (Return {| meta := Some {| changes :=
                 Z.of_nat (List.length (filter (has_id id) (rows db))) |} |},
     {| rows := map (fun r => if has_id id r
                              then Todo.mk (Todo.id r) title description status
                              else r) (rows db);
        seq := seq db |}).

(** [DELETE FROM todos WHERE id = ?] *)
Definition d1_deleteTodo (id : Z) : Async D1 RunResult :=
  fun db =>
    (Return {| meta := Some {| changes :=
                 Z.of_nat (List.length (filter (has_id id) (rows db))) |} |},
     {| rows := filter (fun r => negb (has_id id r)) (rows db);
        seq := seq db |}).

Definition d1 : dbLayer D1 := {|
  getAllTodos := d1_getAllTodos;
  getTodoById := d1_getTodoById;
  insertTodo := d1_insertTodo;
  getLatestTodo := d1_getLatestTodo;
  todoExists := d1_todoExists;
  updateTodo := d1_updateTodo;
  deleteTodo := d1_deleteTodo
|}.


Definition empty_db : D1 := {| rows := []; seq := 0 |}.

(* ------------------------------------------------------------------ *)
(** ** A collaborator that can fail *)

(** Each persistence call consumes one entry of a script: [Some err] makes
    the call reject with [err] and leaves the store as it was, [None] (or
    an exhausted script) lets it run. *)
Definition fallible {DB A} (c : Async DB A)
  : Async (DB * list (option Error)) A :=
  fun w =>
    match snd w with
    | Some err :: script => (Throw err, (fst w, script))
    | None :: script =>
        let (r, db') := c (fst w) in (r, (db', script))
    | [] =>
        let (r, db') := c (fst w) in (r, (db', []))
    end.

Definition unreliable {DB} (L : dbLayer DB)
  : dbLayer (DB * list (option Error)) := {|
  getAllTodos := fallible (getAllTodos L);
  getTodoById := fun id => fallible (getTodoById L id);
  insertTodo := fun t d s => fallible (insertTodo L t d s);
  getLatestTodo := fallible (getLatestTodo L);
  todoExists := fun id => fallible (todoExists L id);
  updateTodo := fun id t d s => fallible (updateTodo L id t d s);
  deleteTodo := fun id => fallible (deleteTodo L id)
|}.

(* ------------------------------------------------------------------ *)
(** ** Predicates used by the properties *)

(** A normalised title: not empty, no white space at either end, and inside
    only single spaces.  [prev_ws] says that the previous code unit was
    white space (or that there is none before). *)
Fixpoint normal_from (prev_ws : bool) (s : jsstr) : bool :=
  match s with
  | [] => negb prev_ws
  | c :: r =>
      if is_ws c
      then (c =? 32)%N && negb prev_ws && normal_from true r
      else normal_from false r
  end.

Definition normalized (s : jsstr) : bool := normal_from true s.

(** The invariant of a stored Todo. *)
Definition todo_ok (r : Todo.t) : bool :=
  match Todo.title r with
  | VStr s => normalized s
  | _ => false
  end && isValidStatus (Todo.status r).


(** The checks that [POST /todos] runs before it reaches the database. *)
Definition create_accepts (body : Body.t) : bool :=
  truthy (Body.title body)
  && truthy (VStr (sanitizeTitle (Body.title body)))
  && negb (isDescriptionTooLong (nullish_or (Body.description body) VNull) 1000)
  && match isValidDescription (nullish_or (Body.description body) VNull) with
     | Some true => true
     | _ => false
     end.

(** [!result.meta || result.meta.changes === 0]: the result of [run()]
    carries no count, or a count of zero. *)
Definition no_row_affected (result : RunResult) : bool :=
  match meta result with
  | None => true
  | Some m => changes m =? 0
  end.

Definition not_found : Response.t := json (JError (lit "Not found")) 404.

Definition too_long : Response.t :=
  json (JError (lit "Description is too long (max 1000 characters)")) 400.

Definition invalid_content : Response.t :=
  json (JError (lit "Description contains invalid content")) 400.

(** The store together with the script of failures of [unreliable]. *)
Definition World : Type := (D1 * list (option Error))%type.

(** Whether the script lets the request's [INSERT] or [UPDATE] statement
    run: for create it is the first persistence call, for update the second
    (after the existence check). *)
Definition write_reached (req : request) (script : list (option Error)) : bool :=
  match req with
  | POST_todos _ =>
      match script with
      | Some _ :: _ => false
      | _ => true
      end
  | PUT_todo _ _ =>
      match script with
      | Some _ :: _ => false
      | None :: Some _ :: _ => false
      | _ => true
      end
  | _ => false
  end.

(** An error response that is no read-back failure: 400, 404, or a 500
    raised before the request's [INSERT] or [UPDATE] had run. *)
Definition error_without_write
  (req : request) (script : list (option Error)) (resp : Response.t) : Prop :=
  Response.status resp = 400 \/ Response.status resp = 404 \/
  (Response.status resp = 500 /\ write_reached req script = false).

(** Whether a request passes the checks that come before its first
    persistence call. *)
Definition reaches_db (req : request) : bool :=
  match req with
  | GET_todos => true
  | GET_todo params_id | DELETE_todo params_id =>
      isValid (validateTodoId params_id)
  | POST_todos (Some body) => create_accepts body
  | PUT_todo params_id (Some body) =>
      isValid (validateTodoId params_id)
      && truthy (VStr (sanitizeTitle (Body.title body)))
  | _ => false
  end.

(** The response of a [catch] block to a failure [err]. *)
Definition failure_response (err : Error) : Response.t :=
  json (JError (or_default (message err) (lit "DB failure"))) 500.

(** The substrings that [isValidDescription] refuses. *)
Definition blocklist : list jsstr :=
  [ lit "<script>"; lit "javascript:"; lit "onerror="; lit "onload=" ].

(** The same request sent [n] times in a row: the outcomes, in order, and
    the final store. *)
Fixpoint replay {DB A} (c : Async DB A) (n : nat) (db : DB)
  : list (completion A) * DB :=
  match n with
  | O => ([], db)
  | S n' =>
      let (out, db') := c db in
      let (outs, db'') := replay c n' db' in
      (out :: outs, db'')
  end.

(** The Todos that a response carries. *)
Definition todos_of (p : payload) : list Todo.t :=
  match p with
  | JTodos l => l
  | JTodo (Some r) => [r]
  | _ => []
  end.

(** Every stored Todo satisfies the invariant. *)
Definition table_ok (db : D1) : Prop :=
  Forall (fun r => todo_ok r = true) (rows db).

(** A handler keeps the invariant of the table and only returns Todos that
    are stored when it is done. *)
Definition keeps_ok (handler : Async World Response.t) : Prop :=
  forall (w w' : World) out,
    table_ok (fst w) ->
    handler w = (out, w') ->
    table_ok (fst w') /\
    forall resp, out = Return resp ->
                 incl (todos_of (Response.body resp)) (rows (fst w')).

(* ------------------------------------------------------------------ *)
(** ** Further predicates *)

(** A code unit that is no white space. *)
Definition non_ws (c : N) : bool := negb (is_ws c).

(** The code units of a string that are no white space, in order. *)
Definition ink (s : jsstr) : jsstr := filter non_ws s.

(** [needle] occurs in [hay]: [hay] is some text, [needle], some text. *)
Definition occurs_in (needle hay : jsstr) : Prop :=
  exists before after, hay = before ++ needle ++ after.

(** [0] .. [9]. *)
Definition is_decimal_digit (c : N) : bool := ((48 <=? c) && (c <=? 57))%N.

(** Text that may follow the digits of an id without being read as part of
    it by [parseInt] in radix 10: empty, or not starting with a digit. *)
Definition ends_number (tail : jsstr) : bool :=
  match tail with
  | [] => true
  | c :: _ => negb (is_decimal_digit c)
  end.

(** The digits of [n.toString(16)]. *)
Fixpoint hex_digits (u : Hexadecimal.uint) : jsstr :=
  match u with
  | Hexadecimal.Nil => []
  | Hexadecimal.D0 u' => 48%N :: hex_digits u'
  | Hexadecimal.D1 u' => 49%N :: hex_digits u'
  | Hexadecimal.D2 u' => 50%N :: hex_digits u'
  | Hexadecimal.D3 u' => 51%N :: hex_digits u'
  | Hexadecimal.D4 u' => 52%N :: hex_digits u'
  | Hexadecimal.D5 u' => 53%N :: hex_digits u'
  | Hexadecimal.D6 u' => 54%N :: hex_digits u'
  | Hexadecimal.D7 u' => 55%N :: hex_digits u'
  | Hexadecimal.D8 u' => 56%N :: hex_digits u'
  | Hexadecimal.D9 u' => 57%N :: hex_digits u'
  | Hexadecimal.Da u' => 97%N :: hex_digits u'
  | Hexadecimal.Db u' => 98%N :: hex_digits u'
  | Hexadecimal.Dc u' => 99%N :: hex_digits u'
  | Hexadecimal.Dd u' => 100%N :: hex_digits u'
  | Hexadecimal.De u' => 101%N :: hex_digits u'
  | Hexadecimal.Df u' => 102%N :: hex_digits u'
  end.

(** [0] .. [9], [a] .. [f], [A] .. [F]. *)
Definition is_hex_digit (c : N) : bool :=
  (((48 <=? c) && (c <=? 57)) || ((97 <=? c) && (c <=? 102))
   || ((65 <=? c) && (c <=? 70)))%N.

Definition ends_hex_number (tail : jsstr) : bool :=
  match tail with
  | [] => true
  | c :: _ => negb (is_hex_digit c)
  end.



(** The ids of the stored rows, in rowid order. *)
Definition ids (db : D1) : list Z := map Todo.id (rows db).

(** A table as the engine keeps it: [id] is the primary key, rowids are
    above zero, and [sqlite_sequence] is not below any of them. *)
Definition well_keyed (db : D1) : Prop :=
  NoDup (ids db) /\ Forall (fun id => 0 < id <= seq db) (ids db).

(** The table after each of the three statements of [src/db.js] that
    write. *)
Definition inserted (db : D1) (t d s : value) : D1 :=
  {| rows := rows db ++ [Todo.mk (next_rowid db) t d s];
     seq := next_rowid db |}.

Definition updated (db : D1) (id : Z) (t d s : value) : D1 :=
  {| rows := map (fun r => if has_id id r
                           then Todo.mk (Todo.id r) t d s else r) (rows db);
     seq := seq db |}.

Definition deleted (db : D1) (id : Z) : D1 :=
  {| rows := filter (fun r => negb (has_id id r)) (rows db); seq := seq db |}.

(** The rows with another id than [id]. *)
Definition others (id : Z) (db : D1) : list Todo.t :=
  filter (fun r => negb (has_id id r)) (rows db).

(** The part of the table that a request may change: a create may append
    one row under an id that no row has, an update with a valid id leaves every
    row with another id as it is and in place and keeps the ids, a delete
    with a valid id removes the rows with that id or nothing, and nothing
    else changes anything. *)
Definition frame (req : request) (db db' : D1) : Prop :=
  match req with
  | POST_todos _ =>
      db' = db \/
      exists new, rows db' = rows db ++ [new] /\ ~ In (Todo.id new) (ids db)
  | PUT_todo params_id _ =>
      match validateTodoId params_id with
      | ValidId id =>
          others id db' = others id db /\ ids db' = ids db /\
          seq db' = seq db
      | InvalidId _ => db' = db
      end
  | DELETE_todo params_id =>
      match validateTodoId params_id with
      | ValidId id =>
          db' = db \/ (rows db' = others id db /\ seq db' = seq db)
      | InvalidId _ => db' = db
      end
  | _ => db' = db
  end.

(** Requests served one after the other by the hardened revision: the
    outcomes, in order, and the final store. *)
Fixpoint serve {DB} (L : dbLayer DB) (reqs : list request) (db : DB)
  : list (completion Response.t) * DB :=
  match reqs with
  | [] => ([], db)
  | req :: rest =>
      let (out, db') := Hardened.fetch L req db in
      let (outs, db'') := serve L rest db' in
      (out :: outs, db'')
  end.

(** The id of the Todo in a 201 response. *)
Definition created_id (out : completion Response.t) : option Z :=
  match out with
  | Return resp =>
      if Response.status resp =? 201
      then match Response.body resp with
           | JTodo (Some r) => Some (Todo.id r)
           | _ => None
           end
      else None
  | Throw _ => None
  end.

Fixpoint created_ids (outs : list (completion Response.t)) : list Z :=
  match outs with
  | [] => []
  | out :: rest =>
      match created_id out with
      | Some id => id :: created_ids rest
      | None => created_ids rest
      end
  end.

(** A status that both revisions store in the same way: one of the four,
    or absent. *)
Definition plain_status (status : value) : bool :=
  isValidStatus status ||
  match status with
  | VUndefined | VNull => true
  | _ => false
  end.

(** A body that the checks of the hardened revision pass and leave as it
    is: a normalised title, a description that is accepted ([create]: also
    by [isValidDescription]), a plain status. *)
Definition plain_body (create : bool) (body : Body.t) : bool :=
  match Body.title body with
  | VStr s => normalized s
  | _ => false
  end
  && negb (isDescriptionTooLong (nullish_or (Body.description body) VNull) 1000)
  && (if create
      then match isValidDescription
                   (nullish_or (Body.description body) VNull) with
           | Some true => true
           | _ => false
           end
      else true)
  && plain_status (Body.status body).

(** A request that the hardened revision neither refuses nor rewrites for
    its form: valid id, plain body; a body that is no JSON is refused by
    both revisions alike. *)
Definition plain (req : request) : bool :=
  match req with
  | GET_root | GET_todos | Unmatched => true
  | GET_todo params_id | DELETE_todo params_id =>
      isValid (validateTodoId params_id)
  | POST_todos None => true
  | POST_todos (Some body) => plain_body true body
  | PUT_todo params_id None => isValid (validateTodoId params_id)
  | PUT_todo params_id (Some body) =>
      isValid (validateTodoId params_id) && plain_body false body
  end.

(* ------------------------------------------------------------------ *)
(** ** [getStatusDisplayName] *)

(** The string under which [object[v]] looks a value up. *)
Definition ToPropertyKey (v : value) : jsstr :=
  match v with
  | VUndefined => lit "undefined"
  | VNull => lit "null"
  | VBool true => lit "true"
  | VBool false => lit "false"
  | VNum n => Number_toString n
  | VStr s => s
  end.

Definition statusMap : list (jsstr * jsstr) :=
  [ (lit "incomplete", lit "Not Started");
    (lit "in-progress", lit "In Progress");
    (lit "complete", lit "Completed");
    (lit "archived", lit "Archived") ].

(** The properties that an object literal inherits from
    [Object.prototype].  Each holds a function, [__proto__] the prototype
    itself: none is falsy. *)
Definition Object_prototype_keys : list jsstr :=
  [ lit "constructor"; lit "hasOwnProperty"; lit "isPrototypeOf";
    lit "propertyIsEnumerable"; lit "toLocaleString"; lit "toString";
    lit "valueOf"; lit "__proto__"; lit "__defineGetter__";
    lit "__defineSetter__"; lit "__lookupGetter__"; lit "__lookupSetter__" ].

Fixpoint own_property (key : jsstr) (object : list (jsstr * jsstr))
  : option jsstr :=
  match object with
  | [] => None
  | (k, v) :: rest => if str_eqb key k then Some v else own_property key rest
  end.

(** What [getStatusDisplayName] returns: a string of [statusMap], its
    argument, or the member of [Object.prototype] under a key. *)
Inductive displayed : Type :=
| Name (name : jsstr)
| Same (status : value)
| Member (key : jsstr).

Definition getStatusDisplayName (status : value) : displayed :=
  let key := ToPropertyKey status in
  match own_property key statusMap with
  | Some name => if truthy (VStr name) then Name name else Same status
  | None =>
      if existsb (str_eqb key) Object_prototype_keys then Member key
      else Same status
  end.

(* ------------------------------------------------------------------ *)
(** ** The hardened handlers with their console *)

(** [formatErrorMessage(error, context)]; [timestamp] is the text of
    [new Date().toISOString()]. *)
Definition formatErrorMessage (timestamp : jsstr) (error : Error)
  (context : jsstr) : jsstr :=
  let message := or_default (message error) (lit "Unknown error") in
  lit "[" ++ timestamp ++ lit "] " ++ context ++ lit ": " ++ message.

(** The hardened handlers once more, now with what their [catch] blocks
    write to the console.  The state is the store together with the lines
    written so far; [now] is the timestamp that the clock gives while the
    request is served. *)
Module Logged.
Section Routes.
Context {DB : Type} (L : dbLayer DB) (now : jsstr).

Definition Console : Type := list jsstr.

(** A persistence call: it does not see the console. *)
Definition db_call {A} (c : Async DB A) : Async (DB * Console) A :=
  fun w => let (r, db') := c (fst w) in (r, (db', snd w)).

Definition console_error (line : jsstr) : Async (DB * Console) unit :=
  fun w => (Return tt, (fst w, snd w ++ [line])).

(** A [catch] block without logging. *)
Definition on_failure (err : Error) : Async (DB * Console) Response.t :=
  ret (json (JError (or_default (message err) (lit "DB failure")))
            HTTP_STATUS.INTERNAL_SERVER_ERROR).

(** A [catch] block that logs under [context] first. *)
Definition on_failure_logged (context : jsstr) (err : Error)
  : Async (DB * Console) Response.t :=
  let errorMsg := formatErrorMessage now err context in
  await_ console_error errorMsg ;;
  ret (json (JError (or_default (message err) (lit "DB failure")))
            HTTP_STATUS.INTERNAL_SERVER_ERROR).

(** [GET /todos] *)
Definition get_todos : Async (DB * Console) Response.t :=
  try_catch
    (await results <- db_call (getAllTodos L) ;;
     ret (json (JTodos results) HTTP_STATUS.OK))
    on_failure.

(** [GET /todos/:id] *)
Definition get_todo (params_id : jsstr) : Async (DB * Console) Response.t :=
  match validateTodoId params_id with
  | InvalidId error => ret (json (JError error) HTTP_STATUS.BAD_REQUEST)
  | ValidId id =>
      try_catch
        (await results <- db_call (getTodoById L id) ;;
         if Nat.eqb (List.length results) 0
         then ret (json (JError (lit "Not found")) HTTP_STATUS.NOT_FOUND)
         else ret (json (JTodo (hd_error results)) HTTP_STATUS.OK))
        on_failure
  end.

(** [POST /todos] *)
Definition post_todos (request_json : option Body.t)
  : Async (DB * Console) Response.t :=
  match request_json with
  | None => ret (json (JError (lit "Invalid JSON")) HTTP_STATUS.BAD_REQUEST)
  | Some body =>
      if negb (truthy (Body.title body))
      then ret (json (JError (lit "Title required")) HTTP_STATUS.BAD_REQUEST)
      else
        let sanitizedTitle := sanitizeTitle (Body.title body) in
        if negb (truthy (VStr sanitizedTitle))
        then ret (json (JError (lit "Title cannot be empty"))
                       HTTP_STATUS.BAD_REQUEST)
        else
          let description := nullish_or (Body.description body) VNull in
          if isDescriptionTooLong description 1000
          then ret (json (JError
                            (lit "Description is too long (max 1000 characters)"))
                         HTTP_STATUS.BAD_REQUEST)
          else
            match isValidDescription description with
            | None => throw TypeError_includes
            | Some false =>
                ret (json (JError (lit "Description contains invalid content"))
                          HTTP_STATUS.BAD_REQUEST)
            | Some true =>
                let status :=
                  if isValidStatus (Body.status body)
                  then Body.status body else DEFAULT_STATUS in
                try_catch
                  (await_ db_call (insertTodo L (VStr sanitizedTitle)
                                     description status) ;;
                   await results <- db_call (getLatestTodo L) ;;
                   ret (json (JTodo (hd_error results)) HTTP_STATUS.CREATED))
                  (on_failure_logged (lit "GET /todos/:id"))
            end
  end.

(** [PUT /todos/:id] *)
Definition put_todo (params_id : jsstr) (request_json : option Body.t)
  : Async (DB * Console) Response.t :=
  match validateTodoId params_id with
  | InvalidId error => ret (json (JError error) HTTP_STATUS.BAD_REQUEST)
  | ValidId id =>
      match request_json with
      | None => ret (json (JError (lit "Invalid JSON")) HTTP_STATUS.BAD_REQUEST)
      | Some body =>
          if negb (truthy (Body.title body))
          then ret (json (JError (lit "Title required for PUT"))
                         HTTP_STATUS.BAD_REQUEST)
          else
            let sanitizedTitle := sanitizeTitle (Body.title body) in
            if negb (truthy (VStr sanitizedTitle))
            then ret (json (JError (lit "Title cannot be empty"))
                           HTTP_STATUS.BAD_REQUEST)
            else
              try_catch
                (await exists_ <- db_call (todoExists L id) ;;
                 match exists_ with
                 | None =>
                     ret (json (JError (lit "Not found")) HTTP_STATUS.NOT_FOUND)
                 | Some rows =>
                     if Nat.eqb (List.length rows) 0
                     then ret (json (JError (lit "Not found"))
                                    HTTP_STATUS.NOT_FOUND)
                     else
                       let description :=
                         nullish_or (Body.description body) VNull in
                       if isDescriptionTooLong description 1000
                       then ret (json
                                   (JError
                                      (lit "Description is too long (max 1000 characters)"))
                                   HTTP_STATUS.BAD_REQUEST)
                       else
                         let status :=
                           if isValidStatus (Body.status body)
                           then Body.status body else DEFAULT_STATUS in
                         await_ db_call (updateTodo L id (VStr sanitizedTitle)
                                           description status) ;;
                         await updated <- db_call (getTodoById L id) ;;
                         ret (json (JTodo (hd_error updated)) HTTP_STATUS.OK)
                 end)
                (on_failure_logged (lit "PUT /todos/:id"))
      end
  end.

(** [DELETE /todos/:id] *)
Definition delete_todo (params_id : jsstr) : Async (DB * Console) Response.t :=
  match validateTodoId params_id with
  | InvalidId error => ret (json (JError error) HTTP_STATUS.BAD_REQUEST)
  | ValidId id =>
      try_catch
        (await result <- db_call (deleteTodo L id) ;;
         match meta result with
         | None => ret (json (JError (lit "Not found")) HTTP_STATUS.NOT_FOUND)
         | Some m =>
             if changes m =? 0
             then ret (json (JError (lit "Not found")) HTTP_STATUS.NOT_FOUND)
             else ret (json JSuccess HTTP_STATUS.OK)
         end)
        (on_failure_logged (lit "DELETE /todos/:id"))
  end.

(** [app.fetch]: the router. *)
Definition fetch (req : request) : Async (DB * Console) Response.t :=
  match req with
  | GET_root => ret (json JOk HTTP_STATUS.OK)
  | GET_todos => get_todos
  | GET_todo id => get_todo id
  | POST_todos body => post_todos body
  | PUT_todo id body => put_todo id body
  | DELETE_todo id => delete_todo id
  | Unmatched =>
      ret (json (JError (lit "Not Found")) HTTP_STATUS.METHOD_NOT_ALLOWED)
  end.
End Routes.
End Logged.

(** The context under which the [catch] block of a route logs, if it
    logs. *)
Definition log_context (req : request) : option jsstr :=
  match req with
  | POST_todos _ => Some (lit "GET /todos/:id")
  | PUT_todo _ _ => Some (lit "PUT /todos/:id")
  | DELETE_todo _ => Some (lit "DELETE /todos/:id")
  | _ => None
  end.

(** What a request adds to the console: nothing, or one line for a failure
    [err], when the answer is the 500 of a [catch] block that logs. *)
Definition logged_by (now : jsstr) (req : request)
  (out : completion Response.t) (lines : list jsstr) : Prop :=
  match out, log_context req with
  | Return resp, Some context =>
      if Response.status resp =? 500
      then exists err, lines = [formatErrorMessage now err context] /\
                       resp = failure_response err
      else lines = []
  | _, _ => lines = []
  end.

(* ------------------------------------------------------------------ *)
(** ** Counting the persistence calls *)

(** A call that is counted: the state carries the number of calls made. *)
Definition counted {DB A} (c : Async DB A) : Async (DB * nat) A :=
  fun w => let (r, db') := c (fst w) in (r, (db', S (snd w))).

Definition counting {DB} (L : dbLayer DB) : dbLayer (DB * nat) := {|
  getAllTodos := counted (getAllTodos L);
  getTodoById := fun id => counted (getTodoById L id);
  insertTodo := fun t d s => counted (insertTodo L t d s);
  getLatestTodo := counted (getLatestTodo L);
  todoExists := fun id => counted (todoExists L id);
  updateTodo := fun id t d s => counted (updateTodo L id t d s);
  deleteTodo := fun id => counted (deleteTodo L id)
|}.

(** The most persistence calls that a route makes for one request. *)
Definition max_calls (req : request) : nat :=
  match req with
  | GET_todos | GET_todo _ | DELETE_todo _ => 1
  | POST_todos _ => 2
  | PUT_todo _ _ => 3
  | GET_root | Unmatched => 0
  end.

(* ------------------------------------------------------------------ *)
(** * Properties *)

Unset Implicit Arguments.

(** ** Sample evaluations *)

Example parseInt_samples :
  parseInt (lit "42") = Some 42 /\ parseInt (lit "  -7x") = Some (-7) /\
  parseInt (lit "abc") = None /\ parseInt (lit "0x1F") = Some 31 /\
  parseInt (lit "-0") = Some 0 /\ parseInt (lit "") = None /\
  parseInt (lit "0x") = None /\ parseInt (lit "12abc") = Some 12.
Proof. repeat split; reflexivity. Qed.

Example sanitizeTitle_sample :
  sanitizeTitle (VStr (lit "  Buy   milk  ")) = lit "Buy milk".
Proof. reflexivity. Qed.

Example post_buy_milk :
  Hardened.post_todos d1
    (Some (Body.mk (VStr (lit "  Buy   milk  ")) VUndefined VUndefined))
    empty_db
  = (Return (json (JTodo (Some (Todo.mk 1 (VStr (lit "Buy milk")) VNull
                                        (VStr (lit "incomplete")))))
                  201),
     {| rows := [Todo.mk 1 (VStr (lit "Buy milk")) VNull
                         (VStr (lit "incomplete"))];
        seq := 1 |}).
Proof. reflexivity. Qed.

Example put_missing_row :
  Hardened.put_todo d1 (lit "5")
    (Some (Body.mk (VStr (lit "x")) VUndefined VUndefined)) empty_db
  = (Return (json (JError (lit "Not found")) 404), empty_db).
Proof. reflexivity. Qed.

Example get_abc :
  Hardened.get_todo d1 (lit "abc") empty_db
  = (Return (json (JError (lit "Invalid ID")) 400), empty_db).
Proof. reflexivity. Qed.

Example list_failure_message :
  (Hardened.get_todos (unreliable d1)
     (empty_db, [Some {| message := lit "Custom DB error" |}])
   = (Return (json (JError (lit "Custom DB error")) 500), (empty_db, [])))
  /\
  (Hardened.get_todos (unreliable d1) (empty_db, [Some {| message := [] |}])
   = (Return (json (JError (lit "DB failure")) 500), (empty_db, []))).
Proof. split; reflexivity. Qed.

(* ------------------------------------------------------------------ *)
(** ** Strings: [trim] and the collapse of white-space runs *)

Section StringFacts.

Lemma str_eqb_eq (a b : jsstr) : str_eqb a b = true <-> a = b.
Proof.
  revert b. induction a as [|x a IH]; intros [|y b]; cbn [str_eqb];
    try (split; [discriminate|intros H; discriminate H]).
  - split; reflexivity.
  - rewrite andb_true_iff, N.eqb_eq, IH. split.
    + now intros [-> ->].
    + intros H. now injection H.
Qed.



Lemma is_ws_space : is_ws 32 = true.
Proof. reflexivity. Qed.

Lemma trimStart_all_ws (s : jsstr) :
  forallb is_ws s = true -> trimStart s = [].
Proof.
  induction s as [|c r IH]; simpl; [reflexivity|].
  intros H. apply andb_true_iff in H as [Hc Hr].
  rewrite Hc. exact (IH Hr).
Qed.

Lemma trimStart_head (s : jsstr) c r :
  trimStart s = c :: r -> is_ws c = false.
Proof.
  induction s as [|x s IH]; simpl; [discriminate|].
  destruct (is_ws x) eqn:Hx; [exact IH|].
  intros H. injection H as -> _. exact Hx.
Qed.

Lemma trimStart_suffix (s : jsstr) : exists p, s = p ++ trimStart s.
Proof.
  induction s as [|x s [p IH]]; simpl.
  - exists []. reflexivity.
  - destruct (is_ws x).
    + exists (x :: p). simpl. now rewrite <- IH.
    + exists []. reflexivity.
Qed.

Lemma trimEnd_prefix (s : jsstr) : exists q, s = trimEnd s ++ q.
Proof.
  unfold trimEnd. destruct (trimStart_suffix (rev s)) as [p Hp].
  exists (rev p).
  rewrite <- rev_app_distr, <- Hp. symmetry. apply rev_involutive.
Qed.

Lemma trimEnd_last (s : jsstr) d :
  trimEnd s <> [] -> is_ws (last (trimEnd s) d) = false.
Proof.
  unfold trimEnd. intros Hne.
  destruct (trimStart (rev s)) as [|c r] eqn:E; [now elim Hne|].
  simpl. rewrite last_last. exact (trimStart_head _ _ _ E).
Qed.

(** A trimmed string that is not empty begins and ends with something
    that is not white space. *)
Lemma trim_ends (s : jsstr) c r :
  trim s = c :: r ->
  is_ws c = false /\ is_ws (last (c :: r) 32%N) = false.
Proof.
  unfold trim. intros E. split.
  - destruct (trimEnd_prefix (trimStart s)) as [q Hq].
    rewrite E in Hq. simpl in Hq. exact (trimStart_head _ _ _ Hq).
  - rewrite <- E. apply trimEnd_last. rewrite E. discriminate.
Qed.

Lemma trim_all_ws (s : jsstr) : forallb is_ws s = true -> trim s = [].
Proof.
  intros H. unfold trim. rewrite (trimStart_all_ws _ H). reflexivity.
Qed.

Lemma replace_ws_runs_normal (t : jsstr) :
  forall b, is_ws (last t 32%N) = false ->
            normal_from b (replace_ws_runs b t) = true.
Proof.
  induction t as [|c r IH]; intros b Hlast.
  - simpl in Hlast. discriminate.
  - assert (Hr : r <> [] -> is_ws (last r 32%N) = false).
    { intros Hne. destruct r; [now elim Hne|]. exact Hlast. }
    simpl. destruct (is_ws c) eqn:Hc.
    + assert (Hne : r <> []).
      { intros ->. simpl in Hlast. congruence. }
      destruct b; simpl.
      * apply IH, Hr, Hne.
      * change (normal_from true (replace_ws_runs true r) = true).
        apply IH, Hr, Hne.
    + simpl. rewrite Hc. destruct r as [|x r'].
      * reflexivity.
      * apply IH, Hr. discriminate.
Qed.

Lemma sanitizeTitle_falsy (v : value) :
  truthy v = false -> sanitizeTitle v = [].
Proof.
  unfold sanitizeTitle. destruct (as_string v); [|reflexivity].
  now intros ->.
Qed.

Lemma sanitizeTitle_not_string (v : value) :
  as_string v = None -> sanitizeTitle v = [].
Proof. unfold sanitizeTitle. now intros ->. Qed.

Lemma sanitizeTitle_all_ws (s : jsstr) :
  forallb is_ws s = true -> sanitizeTitle (VStr s) = [].
Proof.
  intros H. unfold sanitizeTitle. simpl.
  destruct (Nat.eqb (List.length s) 0); simpl; [reflexivity|].
  now rewrite (trim_all_ws _ H).
Qed.

(** What [sanitizeTitle] returns is empty or normalised. *)
Lemma sanitizeTitle_normalized (v : value) :
  sanitizeTitle v <> [] -> normalized (sanitizeTitle v) = true.
Proof.
  unfold sanitizeTitle.
  destruct (as_string v) as [s|]; [|now intros H; elim H].
  destruct (negb (truthy v)); [now intros H; elim H|].
  destruct (trim s) as [|c r] eqn:E; simpl; [now intros H; elim H|].
  intros _. destruct (trim_ends _ _ _ E) as [Hc Hl].
  rewrite Hc. unfold normalized. simpl. rewrite Hc.
  destruct r as [|x r'].
  - reflexivity.
  - apply replace_ws_runs_normal. exact Hl.
Qed.

Lemma truthy_str (s : jsstr) : truthy (VStr s) = true <-> s <> [].
Proof.
  destruct s; simpl; split; intros H; congruence.
Qed.

Lemma sanitizeTitle_truthy (v : value) :
  truthy (VStr (sanitizeTitle v)) = true -> truthy v = true.
Proof.
  intros H. destruct (truthy v) eqn:E; [reflexivity|].
  rewrite (sanitizeTitle_falsy _ E) in H. discriminate.
Qed.

End StringFacts.

(* ------------------------------------------------------------------ *)
(** ** The table: rowids, selection and deletion *)

Section TableFacts.

Lemma max_rowid_ge (rs : list Todo.t) r :
  In r rs -> Todo.id r <= max_rowid rs.
Proof.
  induction rs as [|x rs IH]; simpl; [tauto|].
  intros [->|H]; [lia|]. specialize (IH H). lia.
Qed.

Lemma next_rowid_fresh (db : D1) r :
  In r (rows db) -> Todo.id r < next_rowid db.
Proof.
  intros H. apply max_rowid_ge in H. unfold next_rowid. lia.
Qed.

Lemma max_rowid_nonneg (rs : list Todo.t) : 0 <= max_rowid rs.
Proof. induction rs; simpl; lia. Qed.

Lemma next_rowid_pos (db : D1) : 0 < next_rowid db.
Proof.
  unfold next_rowid. pose proof (max_rowid_nonneg (rows db)). lia.
Qed.

Lemma latest_app_new (rs : list Todo.t) new :
  (forall r, In r rs -> Todo.id r < Todo.id new) ->
  latest (rs ++ [new]) = Some new.
Proof.
  induction rs as [|x rs IH]; intros H; simpl; [reflexivity|].
  rewrite IH by (intros r Hr; apply H; now right).
  assert (Hx : Todo.id x < Todo.id new) by (apply H; now left).
  apply Z.ltb_lt in Hx. now rewrite Hx.
Qed.

Lemma filter_has_id_none (rs : list Todo.t) id :
  (forall r, In r rs -> Todo.id r <> id) -> filter (has_id id) rs = [].
Proof.
  induction rs as [|x rs IH]; intros H; simpl; [reflexivity|].
  unfold has_id at 1.
  destruct (Z.eqb_spec (Todo.id x) id) as [E|_].
  - exfalso. apply (H x); [now left|exact E].
  - apply IH. intros r Hr. apply H. now right.
Qed.

Lemma filter_has_id_nil_inv (rs : list Todo.t) id :
  filter (has_id id) rs = [] -> forall r, In r rs -> Todo.id r <> id.
Proof.
  induction rs as [|x rs IH]; simpl; [tauto|].
  unfold has_id at 1.
  destruct (Z.eqb_spec (Todo.id x) id) as [E|N]; [discriminate|].
  intros H r [->|Hr]; [exact N|]. now apply IH.
Qed.

Lemma filter_other_ids_all (rs : list Todo.t) id :
  (forall r, In r rs -> Todo.id r <> id) ->
  filter (fun r => negb (has_id id r)) rs = rs.
Proof.
  induction rs as [|x rs IH]; intros H; simpl; [reflexivity|].
  unfold has_id at 1.
  destruct (Z.eqb_spec (Todo.id x) id) as [E|_]; simpl.
  - exfalso. apply (H x); [now left|exact E].
  - f_equal. apply IH. intros r Hr. apply H. now right.
Qed.

(** Deleting an id that no row has leaves the database as it was. *)
Lemma d1_deleteTodo_missing (db : D1) id :
  (forall r, In r (rows db) -> Todo.id r <> id) ->
  d1_deleteTodo id db = (Return {| meta := Some {| changes := 0 |} |}, db).
Proof.
  intros H. unfold d1_deleteTodo.
  rewrite (filter_has_id_none _ _ H), (filter_other_ids_all _ _ H).
  destruct db. reflexivity.
Qed.

(** The row that [INSERT] adds is the one that both
    [ORDER BY id DESC LIMIT 1] and [WHERE id = ?] then select. *)
Lemma inserted_row_selected (db : D1) t d s :
  let new := Todo.mk (next_rowid db) t d s in
  latest (rows db ++ [new]) = Some new /\
  filter (has_id (next_rowid db)) (rows db ++ [new]) = [new].
Proof.
  intros new. split.
  - apply latest_app_new. intros r Hr. now apply next_rowid_fresh.
  - rewrite filter_app, filter_has_id_none.
    + simpl. unfold has_id. simpl. now rewrite Z.eqb_refl.
    + intros r Hr. apply next_rowid_fresh in Hr. lia.
Qed.

(** After [UPDATE ... WHERE id = ?], the first row that [WHERE id = ?]
    selects carries the new columns, when some row has that id. *)
Lemma updated_row_selected (rs : list Todo.t) id t d s :
  (exists r, In r rs /\ Todo.id r = id) ->
  hd_error
    (filter (has_id id)
       (map (fun r => if has_id id r
                      then Todo.mk (Todo.id r) t d s else r) rs))
  = Some (Todo.mk id t d s).
Proof.
  induction rs as [|x rs IH]; intros [r [Hin Hid]]; [now elim Hin|].
  simpl. destruct (has_id id x) eqn:Hx.
  - unfold has_id in Hx. apply Z.eqb_eq in Hx.
    unfold has_id at 1. simpl. rewrite Hx, Z.eqb_refl. reflexivity.
  - rewrite Hx. apply IH. destruct Hin as [->|Hin].
    + unfold has_id in Hx. apply Z.eqb_neq in Hx. contradiction.
    + now exists r.
Qed.

Lemma filter_has_id_some (rs : list Todo.t) id :
  (exists r, In r rs /\ Todo.id r = id) -> filter (has_id id) rs <> [].
Proof.
  intros [r [Hin Hid]] E.
  exact (filter_has_id_nil_inv _ _ E r Hin Hid).
Qed.

End TableFacts.

(* ------------------------------------------------------------------ *)
(** ** The id validator *)

Section IdFacts.

Lemma validateTodoId_valid (s : jsstr) n :
  validateTodoId s = ValidId n <-> parseInt s = Some n /\ 0 < n.
Proof.
  unfold validateTodoId. destruct (parseInt s) as [m|].
  - destruct (Z.leb_spec m 0); split.
    + discriminate.
    + intros [E H']. injection E as ->. lia.
    + intros E. injection E as ->. split; [reflexivity|lia].
    + intros [E _]. now injection E as ->.
  - split; [discriminate|]. intros [E _]. discriminate.
Qed.

Lemma validateTodoId_invalid (s : jsstr) :
  isValid (validateTodoId s) = false ->
  validateTodoId s = InvalidId (lit "Invalid ID").
Proof.
  unfold validateTodoId. destruct (parseInt s) as [m|]; [|reflexivity].
  destruct (m <=? 0); [reflexivity|discriminate].
Qed.

Lemma parse_digits_acc (u : Decimal.uint) :
  forall acc : positive,
    parse_digits 10 (uint_digits u) (Some (Zpos acc))
    = Some (Zpos (Pos.of_uint_acc u acc)).
Proof.
  induction u as [|u IH|u IH|u IH|u IH|u IH|u IH|u IH|u IH|u IH|u IH];
    intros acc; cbn [uint_digits parse_digits Pos.of_uint_acc];
    [reflexivity|..];
    match goal with
    | |- context [radix_digit 10 ?c] =>
        let d := eval vm_compute in (radix_digit 10 c) in
        change (radix_digit 10 c) with d; cbv iota
    end;
    rewrite <- IH; do 2 f_equal; lia.
Qed.

Lemma parse_digits_zero (u : Decimal.uint) :
  parse_digits 10 (uint_digits u) (Some 0)
  = Some (Z.of_N (Pos.of_uint u)).
Proof.
  induction u as [|u IH|u IH|u IH|u IH|u IH|u IH|u IH|u IH|u IH|u IH];
    cbn [uint_digits parse_digits Pos.of_uint]; [reflexivity|exact IH|..];
    exact (parse_digits_acc u _).
Qed.

Lemma parse_digits_start (u : Decimal.uint) :
  u <> Decimal.Nil ->
  parse_digits 10 (uint_digits u) None = Some (Z.of_N (Pos.of_uint u)).
Proof.
  destruct u; intros Hne; [now elim Hne|exact (parse_digits_zero u)|..];
    exact (parse_digits_acc u _).
Qed.

(** A string of decimal digits has no white space, sign or [0x] prefix for
    [parseInt] to strip. *)
Lemma parseInt_digits (u : Decimal.uint) :
  u <> Decimal.Nil ->
  parseInt (uint_digits u)
  = match parse_digits 10 (uint_digits u) None with
    | None => None
    | Some m => Some (1 * m)
    end.
Proof.
  destruct u as [|u|u|u|u|u|u|u|u|u|u]; intros Hne; [now elim Hne|..];
    destruct u; reflexivity.
Qed.

(** [parseInt(String(n))] is [n] for an integer above zero and below
    [2^53]. *)
Lemma parseInt_Number_toString (n : Z) :
  0 < n -> n < 2 ^ 53 -> parseInt (Number_toString n) = Some n.
Proof.
  destruct n as [|p|p]; intros Hn _; try lia.
  cbn [Number_toString].
  rewrite (parseInt_digits _ (Unsigned.to_uint_nonnil p)).
  rewrite (parse_digits_start _ (Unsigned.to_uint_nonnil p)).
  rewrite Unsigned.of_to. reflexivity.
Qed.

End IdFacts.

(* ------------------------------------------------------------------ *)
(** ** Create, then fetch *)

Lemma post_todos_accepted {DB} (L : dbLayer DB) (body : Body.t) :
  create_accepts body = true ->
  Hardened.post_todos L (Some body)
  = try_catch
      (await_ insertTodo L (VStr (sanitizeTitle (Body.title body)))
                        (nullish_or (Body.description body) VNull)
                        (if isValidStatus (Body.status body)
                         then Body.status body else DEFAULT_STATUS) ;;
       await results <- getLatestTodo L ;;
       ret (json (JTodo (hd_error results)) HTTP_STATUS.CREATED))
      (Hardened.on_failure (DB:=DB)).
Proof.
  unfold create_accepts, Hardened.post_todos. intros H.
  apply andb_true_iff in H as [H H4].
  apply andb_true_iff in H as [H H3].
  apply andb_true_iff in H as [H1 H2].
  rewrite H1, H2. simpl negb. cbv iota.
  apply negb_true_iff in H3. rewrite H3.
  destruct (isValidDescription _) as [[|]|]; try discriminate.
  reflexivity.
Qed.





(* ------------------------------------------------------------------ *)
(** ** Description checks *)

Lemma isDescriptionTooLong_str (d : jsstr) :
  isDescriptionTooLong (VStr d) 1000 = Nat.ltb 1000 (List.length d).
Proof. destruct d; reflexivity. Qed.

Lemma isValidDescription_blocklisted (d : jsstr) :
  existsb (includes d) blocklist = true ->
  isValidDescription (VStr d) = Some false.
Proof.
  destruct d as [|c r]; [discriminate|].
  unfold isValidDescription, blocklist.
  change (truthy (VStr (c :: r))) with true. cbn [negb existsb].
  destruct (includes (c :: r) (lit "<script>")); [reflexivity|].
  destruct (includes (c :: r) (lit "javascript:")); [reflexivity|].
  destruct (includes (c :: r) (lit "onerror=")); [reflexivity|].
  destruct (includes (c :: r) (lit "onload=")); [reflexivity|].
  discriminate.
Qed.

(** [PUT /todos/:id] once the id and the title have passed: the part inside
    [try]. *)
Lemma put_todo_validated {DB} (L : dbLayer DB) params_id id (body : Body.t) :
  validateTodoId params_id = ValidId id ->
  truthy (VStr (sanitizeTitle (Body.title body))) = true ->
  Hardened.put_todo L params_id (Some body)
  = try_catch
      (await exists_ <- todoExists L id ;;
       match exists_ with
       | None => ret not_found
       | Some found =>
           if Nat.eqb (List.length found) 0 then ret not_found
           else
             if isDescriptionTooLong
                  (nullish_or (Body.description body) VNull) 1000
             then ret too_long
             else
               await_ updateTodo L id (VStr (sanitizeTitle (Body.title body)))
                        (nullish_or (Body.description body) VNull)
                        (if isValidStatus (Body.status body)
                         then Body.status body else DEFAULT_STATUS) ;;
               await updated <- getTodoById L id ;;
               ret (json (JTodo (hd_error updated)) 200)
       end)
      (Hardened.on_failure (DB:=DB)).
Proof.
  intros Hv Ht. unfold Hardened.put_todo. rewrite Hv.
  rewrite (sanitizeTitle_truthy _ Ht), Ht. reflexivity.
Qed.

(** C8, as the handlers have it.  A description of more than 1000 code
    units makes create answer 400 with the length message once the title has
    passed its checks, and makes update answer the same once the id and the
    title have passed theirs and the existence check has found a row; when
    that check finds no row, update answers 404.  What the description
    contains plays no role.  In create the blocklist is only looked at
    below that bound: a description within the bound that holds a
    blocklisted substring gets the other message. *)
Theorem too_long_description_rejected
  {DB} (L : dbLayer DB) (db : DB) (T S : value) (d : jsstr)
  (params_id : jsstr) (id : Z) :
  (1000 < List.length d)%nat ->
  truthy (VStr (sanitizeTitle T)) = true ->
  validateTodoId params_id = ValidId id ->
  Hardened.post_todos L (Some (Body.mk T (VStr d) S)) db
  = (Return too_long, db) /\
  (forall found db1,
     todoExists L id db = (Return (Some found), db1) ->
     found <> [] ->
     Hardened.put_todo L params_id (Some (Body.mk T (VStr d) S)) db
     = (Return too_long, db1)) /\
  (forall db1,
     todoExists L id db = (Return (Some []), db1) ->
     Hardened.put_todo L params_id (Some (Body.mk T (VStr d) S)) db
     = (Return not_found, db1)) /\
  (forall d' : jsstr,
     (List.length d' <= 1000)%nat ->
     existsb (includes d') blocklist = true ->
     Hardened.post_todos L (Some (Body.mk T (VStr d') S)) db
     = (Return invalid_content, db)).
Proof.
  intros Hlen Ht Hv.
  assert (Hlong : isDescriptionTooLong (VStr d) 1000 = true).
  { rewrite isDescriptionTooLong_str. now apply Nat.ltb_lt. }
  split; [|split; [|split]].
  - unfold Hardened.post_todos. cbn [Body.title Body.description Body.status].
    rewrite (sanitizeTitle_truthy _ Ht), Ht. cbn [negb nullish_or].
    rewrite Hlong. reflexivity.
  - intros found db1 Hex Hfound.
    rewrite (put_todo_validated L params_id id (Body.mk T (VStr d) S) Hv Ht).
    unfold try_catch, bind. rewrite Hex.
    destruct found as [|x found']; [now elim Hfound|].
    cbn [List.length Nat.eqb Body.description nullish_or].
    rewrite Hlong. reflexivity.
  - intros db1 Hex.
    rewrite (put_todo_validated L params_id id (Body.mk T (VStr d) S) Hv Ht).
    unfold try_catch, bind. rewrite Hex. reflexivity.
  - intros d' Hlen' Hblock.
    unfold Hardened.post_todos. cbn [Body.title Body.description Body.status].
    rewrite (sanitizeTitle_truthy _ Ht), Ht. cbn [negb nullish_or].
    rewrite isDescriptionTooLong_str.
    assert (Hshort : Nat.ltb 1000 (List.length d') = false)
      by (apply Nat.ltb_ge; exact Hlen').
    rewrite Hshort, (isValidDescription_blocklisted _ Hblock). reflexivity.
Qed.

Lemma too_long_description_rejected_witness :
  let row := Todo.mk 1 (VStr (lit "old")) VNull (VStr (lit "complete")) in
  let db := {| rows := [row]; seq := 1 |} in
  let T := VStr (lit "Buy milk") in
  let d := lit "<script>" ++ repeat 120%N 1000 in
  (1000 < List.length d)%nat /\
  truthy (VStr (sanitizeTitle T)) = true /\
  validateTodoId (lit "1") = ValidId 1 /\
  Hardened.post_todos d1 (Some (Body.mk T (VStr d) VUndefined)) db
  = (Return too_long, db) /\
  Hardened.put_todo d1 (lit "1") (Some (Body.mk T (VStr d) VUndefined)) db
  = (Return too_long, db).
Proof.
  intros row db T d.
  assert (H1 : (1000 < List.length d)%nat)
    by (apply Nat.ltb_lt; vm_compute; reflexivity).
  assert (H2 : truthy (VStr (sanitizeTitle T)) = true) by reflexivity.
  assert (H3 : validateTodoId (lit "1") = ValidId 1) by reflexivity.
  repeat (split; [assumption|]).
  destruct (@too_long_description_rejected D1 d1 db T VUndefined d (lit "1") 1
              H1 H2 H3) as [Hpost [Hput _]].
  split; [exact Hpost|].
  apply (Hput [1] db); [reflexivity|discriminate].
Defined.

(** C8, as stated, fails for update: the existence check comes before the
    length check, so an over-long description sent to an id that no row has
    is answered with 404, not with the length message. *)
Lemma update_missing_id_long_description :
  let d := repeat 120%N 1001 in
  let body := Body.mk (VStr (lit "Test")) (VStr d) VUndefined in
  isDescriptionTooLong (VStr d) 1000 = true /\
  Hardened.put_todo d1 (lit "5") (Some body) empty_db
  = (Return (json (JError (lit "Not found")) 404), empty_db).
Proof.
  cbv zeta. split; vm_compute; reflexivity.
Qed.

(* ------------------------------------------------------------------ *)
(** ** Delete *)

Lemma delete_todo_resolved {DB} (L : dbLayer DB) params_id id db result db' :
  validateTodoId params_id = ValidId id ->
  deleteTodo L id db = (Return result, db') ->
  Hardened.delete_todo L params_id db
  = (Return (if no_row_affected result then not_found else json JSuccess 200),
     db').
Proof.
  intros Hv Hd. unfold Hardened.delete_todo. rewrite Hv.
  unfold try_catch, bind. rewrite Hd. unfold no_row_affected.
  destruct (meta result) as [m|]; [|reflexivity].
  destruct (changes m =? 0); reflexivity.
Qed.

Lemma delete_missing_replayed params_id id (db : D1) (n : nat) :
  validateTodoId params_id = ValidId id ->
  (forall r, In r (rows db) -> Todo.id r <> id) ->
  replay (Hardened.delete_todo d1 params_id) n db
  = (repeat (Return not_found) n, db).
Proof.
  intros Hv Hmissing. induction n as [|n IH]; [reflexivity|].
  cbn [replay repeat].
  rewrite (delete_todo_resolved d1 params_id id db _ _ Hv
             (d1_deleteTodo_missing db id Hmissing)).
  cbn [no_row_affected meta changes Z.eqb]. rewrite IH. reflexivity.
Qed.

(** C9. [DELETE /todos/:id] with a valid id: when the persistence call
    resolves, the answer is 404 [{error: "Not found"}] if its result has no
    [meta] or a [changes] count of zero, else 200 [{success: true}]; and
    deleting an id that no row has answers 404 each time, however often the
    request is repeated. *)
Theorem delete_contract
  {DB} (L : dbLayer DB) (params_id : jsstr) (id : Z) :
  validateTodoId params_id = ValidId id ->
  (forall db result db',
     deleteTodo L id db = (Return result, db') ->
     Hardened.delete_todo L params_id db
     = (Return (if no_row_affected result
                then json (JError (lit "Not found")) 404
                else json JSuccess 200), db'))
  /\
  (forall (table : D1) (n : nat),
     (forall r, In r (rows table) -> Todo.id r <> id) ->
     replay (Hardened.delete_todo d1 params_id) n table
     = (repeat (Return (json (JError (lit "Not found")) 404)) n, table)).
Proof.
  intros Hv. split.
  - intros db result db' Hd.
    exact (delete_todo_resolved L params_id id db result db' Hv Hd).
  - intros table n Hmissing.
    exact (@delete_missing_replayed params_id id table n Hv Hmissing).
Qed.

Lemma delete_contract_witness :
  let row := Todo.mk 1 (VStr (lit "old")) VNull (VStr (lit "complete")) in
  let table := {| rows := [row]; seq := 1 |} in
  validateTodoId (lit "3") = ValidId 3 /\
  Hardened.delete_todo d1 (lit "1") table
  = (Return (json JSuccess 200), {| rows := []; seq := 1 |}) /\
  replay (Hardened.delete_todo d1 (lit "3")) 4 table
  = (repeat (Return (json (JError (lit "Not found")) 404)) 4, table).
Proof.
  intros row table. split; [reflexivity|]. split.
  - exact (proj1 (@delete_contract D1 d1 (lit "1") 1 eq_refl)
             table _ _ eq_refl).
  - refine (proj2 (@delete_contract D1 d1 (lit "3") 3 eq_refl) table 4%nat _).
    intros r [<-|[]]. discriminate.
Defined.

(* ------------------------------------------------------------------ *)
(** ** Update and the blocklist *)

Lemma existing_row_found (db : D1) id :
  (exists r, In r (rows db) /\ Todo.id r = id) ->
  Nat.eqb (List.length (map (fun _ : Todo.t => 1)
                          (filter (has_id id) (rows db)))) 0 = false.
Proof.
  intros H. apply filter_has_id_some in H.
  destruct (filter (has_id id) (rows db)); [now elim H|reflexivity].
Qed.

Lemma updated_rows (rs : list Todo.t) id t d s :
  (exists r, In r rs /\ Todo.id r = id) ->
  let row := Todo.mk id t d s in
  let rs' := map (fun r => if has_id id r
                           then Todo.mk (Todo.id r) t d s else r) rs in
  In row rs' /\ forall r, In r rs' -> Todo.id r = id -> r = row.
Proof.
  intros [r0 [Hin0 Hid0]] row rs'. split.
  - apply in_map_iff. exists r0. split; [|exact Hin0].
    unfold has_id. rewrite Hid0, Z.eqb_refl. reflexivity.
  - intros r Hr Hid. apply in_map_iff in Hr as [x [Hx _]].
    unfold has_id in Hx. destruct (Z.eqb_spec (Todo.id x) id) as [E|N].
    + subst r. unfold row. now rewrite E.
    + subst r. contradiction.
Qed.

(** C10. Update checks the description for length only.  For an id that a
    row has and a description of at most 1000 code units that contains a
    blocklisted substring, [PUT /todos/:id] writes the description into the
    row and answers 200 with it, while [POST /todos] with the same body
    answers 400. *)
Theorem update_skips_blocklist
  (db : D1) (params_id : jsstr) (id : Z) (T S : value) (d : jsstr) :
  validateTodoId params_id = ValidId id ->
  (exists r, In r (rows db) /\ Todo.id r = id) ->
  truthy (VStr (sanitizeTitle T)) = true ->
  (List.length d <= 1000)%nat ->
  existsb (includes d) blocklist = true ->
  let body := Body.mk T (VStr d) S in
  let row := Todo.mk id (VStr (sanitizeTitle T)) (VStr d)
                     (if isValidStatus S then S else DEFAULT_STATUS) in
  (exists db',
     Hardened.put_todo d1 params_id (Some body) db
     = (Return (json (JTodo (Some row)) 200), db') /\
     In row (rows db') /\
     forall r, In r (rows db') -> Todo.id r = id -> r = row)
  /\
  Hardened.post_todos d1 (Some body) db
  = (Return (json (JError (lit "Description contains invalid content")) 400),
     db).
Proof.
  intros Hv Hex Ht Hlen Hblock body row. split.
  - rewrite (@put_todo_validated _ d1 params_id id body Hv Ht).
    unfold try_catch, bind, ret.
    cbn [todoExists updateTodo getTodoById d1 d1_todoExists d1_updateTodo
         d1_getTodoById rows Body.title Body.description Body.status body
         nullish_or].
    rewrite (existing_row_found db id Hex), isDescriptionTooLong_str.
    assert (Hshort : Nat.ltb 1000 (List.length d) = false)
      by (apply Nat.ltb_ge; exact Hlen).
    rewrite Hshort.
    rewrite (updated_row_selected (rows db) id (VStr (sanitizeTitle T)) (VStr d)
               (if isValidStatus S then S else DEFAULT_STATUS) Hex).
    eexists. split; [reflexivity|].
    exact (updated_rows (rows db) id (VStr (sanitizeTitle T)) (VStr d)
             (if isValidStatus S then S else DEFAULT_STATUS) Hex).
  - unfold Hardened.post_todos.
    cbn [body Body.title Body.description Body.status].
    rewrite (sanitizeTitle_truthy _ Ht), Ht. cbn [negb nullish_or].
    rewrite isDescriptionTooLong_str.
    assert (Hshort : Nat.ltb 1000 (List.length d) = false)
      by (apply Nat.ltb_ge; exact Hlen).
    rewrite Hshort, (isValidDescription_blocklisted _ Hblock). reflexivity.
Qed.

Lemma update_skips_blocklist_witness :
  let old := Todo.mk 1 (VStr (lit "old")) VNull (VStr (lit "complete")) in
  let db := {| rows := [old]; seq := 1 |} in
  let T := VStr (lit " Water  plants ") in
  let S := VStr (lit "archived") in
  let d := lit "see <script>alert(1)</script>" in
  let row := Todo.mk 1 (VStr (lit "Water plants")) (VStr d) S in
  validateTodoId (lit "1") = ValidId 1 /\
  (exists r, In r (rows db) /\ Todo.id r = 1) /\
  truthy (VStr (sanitizeTitle T)) = true /\
  (List.length d <= 1000)%nat /\
  existsb (includes d) blocklist = true /\
  (exists db',
     Hardened.put_todo d1 (lit "1") (Some (Body.mk T (VStr d) S)) db
     = (Return (json (JTodo (Some row)) 200), db') /\
     In row (rows db') /\
     forall r, In r (rows db') -> Todo.id r = 1 -> r = row)
  /\
  Hardened.post_todos d1 (Some (Body.mk T (VStr d) S)) db
  = (Return (json (JError (lit "Description contains invalid content")) 400),
     db).
Proof.
  intros old db T S d row.
  assert (H1 : validateTodoId (lit "1") = ValidId 1) by reflexivity.
  assert (H2 : exists r, In r (rows db) /\ Todo.id r = 1)
    by (exists old; split; [now left|reflexivity]).
  assert (H3 : truthy (VStr (sanitizeTitle T)) = true) by reflexivity.
  assert (H4 : (List.length d <= 1000)%nat)
    by (apply Nat.leb_le; vm_compute; reflexivity).
  assert (H5 : existsb (includes d) blocklist = true) by reflexivity.
  repeat (split; [assumption|]).
  exact (@update_skips_blocklist db (lit "1") 1 T S d H1 H2 H3 H4 H5).
Defined.

(* ------------------------------------------------------------------ *)
(** ** Error responses and the store *)

(** Proof steps shared by the case analyses over the handlers. *)
Ltac inj H := injection H as ? ?; subst.

Ltac branch :=
  match goal with
  | |- context [if ?c then _ else _] => destruct c eqn:?
  | |- context [match ?c with Some _ => _ | None => _ end] => destruct c eqn:?
  end.

(** Runs the persistence calls of [unreliable d1] as far as the script is
    known. *)
Ltac run :=
  cbv beta iota zeta delta
    [try_catch bind ret throw fallible Hardened.on_failure fst snd
     getAllTodos getTodoById insertTodo getLatestTodo todoExists updateTodo
     deleteTodo unreliable d1 d1_getAllTodos d1_getTodoById d1_insertTodo
     d1_getLatestTodo d1_todoExists d1_updateTodo d1_deleteTodo];
  cbn [meta changes rows seq].

Section ErrorsAndStore.

Lemma get_todos_store (w w' : World) resp :
  Hardened.get_todos (unreliable d1) w = (Return resp, w') -> fst w' = fst w.
Proof.
  unfold Hardened.get_todos.
  destruct w as [db [|[e|] script]]; run; intros H; inj H; reflexivity.
Qed.

Lemma get_todo_store params_id (w w' : World) resp :
  Hardened.get_todo (unreliable d1) params_id w = (Return resp, w') ->
  fst w' = fst w.
Proof.
  unfold Hardened.get_todo. destruct (validateTodoId params_id) as [e|id].
  - run. intros H; inj H; reflexivity.
  - destruct w as [db [|[e|] script]]; run;
      repeat branch; intros H; inj H; reflexivity.
Qed.

Lemma no_match_nothing_deleted (db : D1) id :
  Z.of_nat (List.length (filter (has_id id) (rows db))) = 0 ->
  {| rows := filter (fun r => negb (has_id id r)) (rows db); seq := seq db |}
  = db.
Proof.
  intros H.
  assert (E : filter (has_id id) (rows db) = []).
  { destruct (filter (has_id id) (rows db)); [reflexivity|].
    cbn [List.length] in H. lia. }
  rewrite (filter_other_ids_all _ _ (filter_has_id_nil_inv _ _ E)).
  destruct db. reflexivity.
Qed.

Lemma delete_todo_store params_id (w w' : World) resp :
  Hardened.delete_todo (unreliable d1) params_id w = (Return resp, w') ->
  Response.status resp <> 200 -> fst w' = fst w.
Proof.
  unfold Hardened.delete_todo. destruct (validateTodoId params_id) as [e|id].
  - run. intros H; inj H; reflexivity.
  - destruct w as [db [|[e|] script]]; run;
      repeat branch; intros H Hs; inj H; try reflexivity;
      try (now elim Hs);
      cbn [fst]; apply no_match_nothing_deleted; now apply Z.eqb_eq.
Qed.

Ltac wrong_status :=
  match goal with
  | H : error_without_write _ _ _ |- _ =>
      exfalso; destruct H as [H|[H|[H H']]];
      solve [ discriminate H | discriminate H' ]
  end.

Lemma post_todos_rejected {DB} (L : dbLayer DB) body db out db' :
  create_accepts body = false ->
  Hardened.post_todos L (Some body) db = (out, db') -> db' = db.
Proof.
  unfold create_accepts, Hardened.post_todos.
  destruct (truthy (Body.title body)); cbn [negb andb];
    [|intros _ E; now inj E].
  destruct (truthy (VStr (sanitizeTitle (Body.title body)))); cbn [negb andb];
    [|intros _ E; now inj E].
  destruct (isDescriptionTooLong _ _); cbn [negb andb];
    [intros _ E; now inj E|].
  destruct (isValidDescription _) as [[|]|]; intros H E;
    [discriminate H| |]; now inj E.
Qed.

Lemma post_todos_store request_json (w w' : World) resp :
  Hardened.post_todos (unreliable d1) request_json w = (Return resp, w') ->
  error_without_write (POST_todos request_json) (snd w) resp ->
  fst w' = fst w.
Proof.
  destruct request_json as [body|]; [|intros H; now inj H].
  destruct (create_accepts body) eqn:Hacc.
  - rewrite (post_todos_accepted _ _ Hacc).
    destruct w as [db [|[e|] [|[e2|] script]]]; run;
      intros H Hs; inj H; try reflexivity; wrong_status.
  - intros H _. now rewrite (post_todos_rejected _ _ _ _ _ Hacc H).
Qed.

Lemma put_todo_store params_id request_json (w w' : World) resp :
  Hardened.put_todo (unreliable d1) params_id request_json w
  = (Return resp, w') ->
  error_without_write (PUT_todo params_id request_json) (snd w) resp ->
  fst w' = fst w.
Proof.
  destruct (validateTodoId params_id) as [e|id] eqn:Hv.
  { unfold Hardened.put_todo. rewrite Hv. intros H; now inj H. }
  destruct request_json as [body|].
  2:{ unfold Hardened.put_todo. rewrite Hv. intros H; now inj H. }
  destruct (truthy (VStr (sanitizeTitle (Body.title body)))) eqn:Ht.
  - rewrite (@put_todo_validated _ (unreliable d1) params_id id body Hv Ht).
    destruct w as [db [|[e|] [|[e2|] [|[e3|] script]]]]; run;
      repeat branch; intros H Hs; inj H; try reflexivity; wrong_status.
  - unfold Hardened.put_todo. rewrite Hv, Ht.
    destruct (truthy (Body.title body)); intros H; now inj H.
Qed.

End ErrorsAndStore.

Lemma post_todos_read_back_fails (body : Body.t) (db : D1) err script :
  create_accepts body = true ->
  Hardened.post_todos (unreliable d1) (Some body)
    (db, None :: Some err :: script)
  = (Return (json (JError (or_default (message err) (lit "DB failure"))) 500),
     ({| rows := rows db
                 ++ [Todo.mk (next_rowid db)
                       (VStr (sanitizeTitle (Body.title body)))
                       (nullish_or (Body.description body) VNull)
                       (if isValidStatus (Body.status body)
                        then Body.status body else DEFAULT_STATUS)];
         seq := next_rowid db |}, script)).
Proof.
  intros Hacc. rewrite (post_todos_accepted _ _ Hacc). reflexivity.
Qed.

(** C5, as the handlers have it.  A response of 400 or 404 leaves the
    stored Todos as they were before the request, and so does a 500 that is
    raised before the request's [INSERT] or [UPDATE] has run: every 500 of
    list, get and delete, a 500 of create when the insert itself fails, a
    500 of update when the existence check or the update itself fails.
    When it is the read-back after a successful insert that fails, create
    answers 500 and the row stays inserted. *)
Theorem error_responses_and_the_store :
  (forall (req : request) (w w' : World) (resp : Response.t),
     Hardened.fetch (unreliable d1) req w = (Return resp, w') ->
     error_without_write req (snd w) resp ->
     fst w' = fst w)
  /\
  (forall (body : Body.t) (db : D1) err script,
     create_accepts body = true ->
     exists row,
       Hardened.fetch (unreliable d1) (POST_todos (Some body))
         (db, None :: Some err :: script)
       = (Return (json (JError (or_default (message err) (lit "DB failure")))
                       500),
          ({| rows := rows db ++ [row]; seq := Todo.id row |}, script))).
Proof.
  split.
  - intros req w w' resp H Hs. destruct req; cbn [Hardened.fetch] in H.
    + now inj H.
    + exact (get_todos_store _ _ _ H).
    + exact (get_todo_store _ _ _ _ H).
    + exact (post_todos_store _ _ _ _ H Hs).
    + exact (put_todo_store _ _ _ _ _ H Hs).
    + apply (delete_todo_store _ _ _ _ H).
      destruct Hs as [E|[E|[E _]]]; rewrite E; discriminate.
    + now inj H.
  - intros body db err script Hacc.
    exists (Todo.mk (next_rowid db) (VStr (sanitizeTitle (Body.title body)))
              (nullish_or (Body.description body) VNull)
              (if isValidStatus (Body.status body)
               then Body.status body else DEFAULT_STATUS)).
    cbn [Hardened.fetch].
    rewrite (post_todos_read_back_fails _ _ _ _ Hacc). reflexivity.
Qed.

Lemma error_responses_and_the_store_witness :
  let old := Todo.mk 1 (VStr (lit "old")) VNull (VStr (lit "complete")) in
  let db := {| rows := [old]; seq := 1 |} in
  let body := Body.mk (VStr (lit "Test")) VUndefined VUndefined in
  let err := {| message := lit "Update failed" |} in
  let w : World := (db, [None; Some err]) in
  let resp := json (JError (lit "Update failed")) 500 in
  let w' : World := (db, []) in
  Hardened.fetch (unreliable d1) (PUT_todo (lit "1") (Some body)) w
  = (Return resp, w') /\
  error_without_write (PUT_todo (lit "1") (Some body)) (snd w) resp /\
  fst w' = fst w.
Proof.
  intros old db body err w resp w'.
  assert (H1 : Hardened.fetch (unreliable d1) (PUT_todo (lit "1") (Some body)) w
               = (Return resp, w')) by reflexivity.
  assert (H2 : error_without_write (PUT_todo (lit "1") (Some body)) (snd w) resp)
    by (right; right; split; reflexivity).
  split; [exact H1|]. split; [exact H2|].
  exact (proj1 error_responses_and_the_store _ w w' resp H1 H2).
Defined.

(** C5, as stated, fails: the insert goes through, the read-back
    [getLatestTodo] rejects, and create answers 500 although the row is in
    the table. *)
Lemma create_fails_after_insert :
  let body := Body.mk (VStr (lit "Test Todo")) VUndefined VUndefined in
  let w : World := (empty_db, [None; Some {| message := lit "Get failed" |}]) in
  let row := Todo.mk 1 (VStr (lit "Test Todo")) VNull (VStr (lit "incomplete")) in
  Hardened.fetch (unreliable d1) (POST_todos (Some body)) w
  = (Return (json (JError (lit "Get failed")) 500),
     ({| rows := [row]; seq := 1 |}, []))
  /\ rows {| rows := [row]; seq := 1 |} <> rows (fst w).
Proof.
  cbv zeta. split; [reflexivity|discriminate].
Qed.

(* ------------------------------------------------------------------ *)
(** ** The original revision of the handlers *)

(** C1, original revision.  [GET /todos/0], [GET /todos/-1] and
    [DELETE /todos/0] are not answered with 400: the handlers only test
    [isNaN(id)], look the id up and answer 404.  Only [PUT] of that revision
    tests [id <= 0], and [validateTodoId] refuses the same inputs. *)
Theorem simple_get_and_delete_accept_nonpositive_id :
  let db := {| rows := [Todo.mk 1 (VStr (lit "a")) VNull (VStr (lit "complete"))];
               seq := 1 |} in
  Simple.get_todo d1 (lit "0") db = (Return not_found, db) /\
  Simple.get_todo d1 (lit "-1") db = (Return not_found, db) /\
  Simple.delete_todo d1 (lit "0") db = (Return not_found, db) /\
  Simple.delete_todo d1 (lit "-1") db = (Return not_found, db) /\
  Simple.put_todo d1 (lit "0")
    (Some (Body.mk (VStr (lit "Test")) VUndefined VUndefined)) db
  = (Return (json (JError (lit "Invalid id")) 400), db) /\
  isValid (validateTodoId (lit "0")) = false /\
  isValid (validateTodoId (lit "-1")) = false.
Proof.
  cbv zeta. repeat split; reflexivity.
Qed.

(** C2, original revision.  [POST /todos] binds [body.title] and
    [body.status] as they came: the stored Todo has a title that is not
    normalised and a status outside the four. *)
Theorem simple_post_stores_unnormalized_todo :
  let body := Body.mk (VStr (lit "  Buy   milk  ")) VUndefined
                      (VStr (lit "done")) in
  let row := Todo.mk 1 (VStr (lit "  Buy   milk  ")) VNull (VStr (lit "done")) in
  Simple.post_todos d1 (Some body) empty_db
  = (Return (json (JTodo (Some row)) 201), {| rows := [row]; seq := 1 |}) /\
  todo_ok row = false /\
  normalized (lit "  Buy   milk  ") = false /\
  isValidStatus (VStr (lit "done")) = false.
Proof.
  cbv zeta. repeat split; reflexivity.
Qed.

(** C4, original revision.  Only [GET /todos] has a [catch]: a rejection of
    the persistence call leaves the other four handlers as a rejection, with
    no response. *)
Theorem simple_handlers_propagate_failures :
  let err := {| message := lit "DB error" |} in
  let body := Body.mk (VStr (lit "Test")) VUndefined VUndefined in
  let w : World := (empty_db, [Some err]) in
  Simple.get_todo (unreliable d1) (lit "1") w = (Throw err, (empty_db, [])) /\
  Simple.post_todos (unreliable d1) (Some body) w
  = (Throw err, (empty_db, [])) /\
  Simple.put_todo (unreliable d1) (lit "1") (Some body) w
  = (Throw err, (empty_db, [])) /\
  Simple.delete_todo (unreliable d1) (lit "1") w
  = (Throw err, (empty_db, [])) /\
  Simple.get_todos (unreliable d1) w
  = (Return (json (JError (lit "DB error")) 500), (empty_db, [])).
Proof.
  cbv zeta. repeat split; reflexivity.
Qed.

(** C6, original revision.  [body.status ?? "incomplete"] only replaces a
    status that is absent or [null]: any other value is stored as it came,
    by [POST] and by [PUT]. *)
Theorem simple_handlers_keep_invalid_status :
  let body := Body.mk (VStr (lit "Test")) VUndefined (VStr (lit "done")) in
  let created := Todo.mk 1 (VStr (lit "Test")) VNull (VStr (lit "done")) in
  let db := {| rows := [Todo.mk 1 (VStr (lit "a")) VNull (VStr (lit "complete"))];
               seq := 1 |} in
  isValidStatus (Body.status body) = false /\
  Simple.post_todos d1 (Some body) empty_db
  = (Return (json (JTodo (Some created)) 201),
     {| rows := [created]; seq := 1 |}) /\
  Simple.put_todo d1 (lit "1") (Some body) db
  = (Return (json (JTodo (Some created)) 200),
     {| rows := [created]; seq := 1 |}).
Proof.
  cbv zeta. repeat split; reflexivity.
Qed.

(** Original revision, titles.  A title of three spaces is truthy, so
    [POST /todos] stores it as it came and answers 201, and [PUT] does the
    same: there is no [sanitizeTitle] step in this revision. *)
Theorem simple_handlers_accept_blank_title :
  let body := Body.mk (VStr (lit "   ")) VUndefined VUndefined in
  let row := Todo.mk 1 (VStr (lit "   ")) VNull (VStr (lit "incomplete")) in
  let db := {| rows := [Todo.mk 1 (VStr (lit "a")) VNull (VStr (lit "complete"))];
               seq := 1 |} in
  sanitizeTitle (Body.title body) = [] /\
  Simple.post_todos d1 (Some body) empty_db
  = (Return (json (JTodo (Some row)) 201), {| rows := [row]; seq := 1 |}) /\
  Simple.put_todo d1 (lit "1") (Some body) db
  = (Return (json (JTodo (Some row)) 200), {| rows := [row]; seq := 1 |}).
Proof.
  cbv zeta. repeat split; reflexivity.
Qed.

(* ------------------------------------------------------------------ *)
(** ** The hardened revision: ids, titles and statuses *)

Lemma validateTodoId_refuses (s : jsstr) :
  isValid (validateTodoId s) = false <->
  parseInt s = None \/ exists n, parseInt s = Some n /\ n <= 0.
Proof.
  unfold validateTodoId. destruct (parseInt s) as [m|].
  - destruct (Z.leb_spec m 0); cbn [isValid]; split.
    + intros _. right. exists m. split; [reflexivity|assumption].
    + reflexivity.
    + discriminate.
    + intros [E|[n [E Hn]]]; [discriminate|]. injection E as ->. lia.
  - split; [now left|reflexivity].
Qed.

(** The id validator accepts exactly the strings that [parseInt] reads as
    an integer above zero; for every other string (not numeric, zero,
    negative) get, update and delete answer 400 [{error: "Invalid ID"}]
    without a persistence call. *)
Theorem hardened_rejects_invalid_id
  {DB} (L : dbLayer DB) (params_id : jsstr) (request_json : option Body.t)
  (db : DB) :
  (isValid (validateTodoId params_id) = true <->
   exists n, parseInt params_id = Some n /\ 0 < n)
  /\
  (parseInt params_id = None \/
   (exists n, parseInt params_id = Some n /\ n <= 0) ->
   let invalid_id := json (JError (lit "Invalid ID")) 400 in
   Hardened.get_todo L params_id db = (Return invalid_id, db) /\
   Hardened.put_todo L params_id request_json db = (Return invalid_id, db) /\
   Hardened.delete_todo L params_id db = (Return invalid_id, db)).
Proof.
  split.
  - split.
    + destruct (validateTodoId params_id) as [e|n] eqn:E; [discriminate|].
      intros _. exists n. now apply validateTodoId_valid.
    + intros [n Hn]. apply validateTodoId_valid in Hn. now rewrite Hn.
  - intros H. apply validateTodoId_refuses, validateTodoId_invalid in H.
    unfold Hardened.get_todo, Hardened.put_todo, Hardened.delete_todo.
    rewrite H. repeat split.
Qed.

Lemma hardened_rejects_invalid_id_witness :
  let invalid_id := json (JError (lit "Invalid ID")) 400 in
  let body := Some (Body.mk (VStr (lit "Test")) VUndefined VUndefined) in
  (parseInt (lit "-1") = None \/
   exists n, parseInt (lit "-1") = Some n /\ n <= 0) /\
  Hardened.get_todo d1 (lit "-1") empty_db = (Return invalid_id, empty_db) /\
  Hardened.put_todo d1 (lit "-1") body empty_db
  = (Return invalid_id, empty_db) /\
  Hardened.delete_todo d1 (lit "-1") empty_db = (Return invalid_id, empty_db).
Proof.
  intros invalid_id body.
  assert (H : parseInt (lit "-1") = None \/
              exists n, parseInt (lit "-1") = Some n /\ n <= 0).
  { right. exists (-1). split; [reflexivity|discriminate]. }
  split; [exact H|].
  exact (proj2 (@hardened_rejects_invalid_id D1 d1 (lit "-1") body empty_db) H).
Defined.

(** C7, as the hardened handlers have it.  [sanitizeTitle] returns the
    empty string for every string made of white space only.  Create and
    update answer 400 ["Title cannot be empty"] when such a title has at
    least one character; when it is the empty string they answer with the
    error of a missing title, because [!body.title] is tested first. *)
Theorem hardened_rejects_blank_title
  {DB} (L : dbLayer DB) (s : jsstr) (D S : value) (params_id : jsstr) (id : Z)
  (db : DB) :
  forallb is_ws s = true ->
  validateTodoId params_id = ValidId id ->
  let body := Some (Body.mk (VStr s) D S) in
  sanitizeTitle (VStr s) = [] /\
  (s <> [] ->
   Hardened.post_todos L body db
   = (Return (json (JError (lit "Title cannot be empty")) 400), db) /\
   Hardened.put_todo L params_id body db
   = (Return (json (JError (lit "Title cannot be empty")) 400), db)) /\
  (s = [] ->
   Hardened.post_todos L body db
   = (Return (json (JError (lit "Title required")) 400), db) /\
   Hardened.put_todo L params_id body db
   = (Return (json (JError (lit "Title required for PUT")) 400), db)).
Proof.
  intros Hws Hv body. pose proof (sanitizeTitle_all_ws s Hws) as Hs.
  split; [exact Hs|].
  unfold Hardened.post_todos, Hardened.put_todo, body.
  cbn [Body.title]. rewrite Hv, Hs. split.
  - intros Hne. apply truthy_str in Hne. rewrite Hne. split; reflexivity.
  - intros ->. split; reflexivity.
Qed.

Lemma hardened_rejects_blank_title_witness :
  let s := [32; 9; 160; 32]%N in
  let body := Some (Body.mk (VStr s) VUndefined VUndefined) in
  forallb is_ws s = true /\
  validateTodoId (lit "7") = ValidId 7 /\
  sanitizeTitle (VStr s) = [] /\
  Hardened.post_todos d1 body empty_db
  = (Return (json (JError (lit "Title cannot be empty")) 400), empty_db) /\
  Hardened.put_todo d1 (lit "7") body empty_db
  = (Return (json (JError (lit "Title cannot be empty")) 400), empty_db).
Proof.
  intros s body.
  pose proof (@hardened_rejects_blank_title D1 d1 s VUndefined VUndefined
                (lit "7") 7 empty_db eq_refl eq_refl) as [H1 [H2 _]].
  split; [reflexivity|]. split; [reflexivity|].
  split; [exact H1|]. apply H2. discriminate.
Defined.

(** C7, as stated, fails at the empty string: it is made of white space
    only (it has no other character), and create and update answer it with
    the error of a missing title. *)
Lemma empty_title_is_title_required :
  let body := Some (Body.mk (VStr []) VUndefined VUndefined) in
  forallb is_ws [] = true /\
  Hardened.post_todos d1 body empty_db
  = (Return (json (JError (lit "Title required")) 400), empty_db) /\
  Hardened.put_todo d1 (lit "1") body empty_db
  = (Return (json (JError (lit "Title required for PUT")) 400), empty_db).
Proof.
  cbv zeta. repeat split.
Qed.

(** A status that is absent or not one of the four is replaced by
    ["incomplete"]: create and update treat the request as the same request
    with status ["incomplete"], so a bad status is never a reason to reject. *)
Theorem hardened_status_defaults
  {DB} (L : dbLayer DB) (T D S : value) (params_id : jsstr) (db : DB) :
  isValidStatus S = false ->
  Hardened.post_todos L (Some (Body.mk T D S)) db
  = Hardened.post_todos L (Some (Body.mk T D (VStr (lit "incomplete")))) db
  /\
  Hardened.put_todo L params_id (Some (Body.mk T D S)) db
  = Hardened.put_todo L params_id (Some (Body.mk T D (VStr (lit "incomplete")))) db.
Proof.
  intros H. unfold Hardened.post_todos, Hardened.put_todo.
  cbn [Body.title Body.description Body.status]. rewrite H.
  change (isValidStatus (VStr (lit "incomplete"))) with true.
  cbv iota. split; reflexivity.
Qed.

Lemma hardened_status_defaults_witness :
  let T := VStr (lit "Test") in
  let row := Todo.mk 1 T VNull (VStr (lit "incomplete")) in
  isValidStatus (VStr (lit "Complete")) = false /\
  Hardened.post_todos d1 (Some (Body.mk T VUndefined (VStr (lit "Complete"))))
    empty_db
  = (Return (json (JTodo (Some row)) 201), {| rows := [row]; seq := 1 |}) /\
  Hardened.post_todos d1 (Some (Body.mk T VUndefined (VStr (lit "Complete"))))
    empty_db
  = Hardened.post_todos d1
      (Some (Body.mk T VUndefined (VStr (lit "incomplete")))) empty_db.
Proof.
  intros T row. split; [reflexivity|]. split; [reflexivity|].
  exact (proj1 (@hardened_status_defaults D1 d1 T VUndefined
                  (VStr (lit "Complete")) (lit "1") empty_db eq_refl)).
Defined.

(* ------------------------------------------------------------------ *)
(** ** The hardened revision: failures of the persistence calls *)

(** Case analysis on the outcome of a persistence call of an arbitrary
    [dbLayer]. *)
Ltac call_outcome :=
  match goal with
  | |- context [getAllTodos ?L ?d] =>
      destruct (getAllTodos L d) as [[?|?] ?] eqn:?
  | |- context [getTodoById ?L ?i ?d] =>
      destruct (getTodoById L i d) as [[?|?] ?] eqn:?
  | |- context [insertTodo ?L ?t ?x ?s ?d] =>
      destruct (insertTodo L t x s d) as [[?|?] ?] eqn:?
  | |- context [getLatestTodo ?L ?d] =>
      destruct (getLatestTodo L d) as [[?|?] ?] eqn:?
  | |- context [todoExists ?L ?i ?d] =>
      destruct (todoExists L i d) as [[?|?] ?] eqn:?
  | |- context [updateTodo ?L ?i ?t ?x ?s ?d] =>
      destruct (updateTodo L i t x s d) as [[?|?] ?] eqn:?
  | |- context [deleteTodo ?L ?i ?d] =>
      destruct (deleteTodo L i d) as [[?|?] ?] eqn:?
  end; cbv beta iota.

Ltac run_any :=
  cbn [getAllTodos getTodoById insertTodo getLatestTodo todoExists updateTodo
       deleteTodo unreliable];
  cbv beta iota zeta delta
    [try_catch bind ret throw fallible Hardened.on_failure fst snd].

Lemma first_call_fails {DB} (L : dbLayer DB) req db err script :
  reaches_db req = true ->
  Hardened.fetch (unreliable L) req (db, Some err :: script)
  = (Return (failure_response err), (db, script)).
Proof.
  destruct req as [| |params_id|[body|]|params_id [body|]|params_id|];
    cbn [reaches_db Hardened.fetch]; try discriminate.
  - reflexivity.
  - destruct (validateTodoId params_id) as [e|id] eqn:Hv; [discriminate|].
    intros _. unfold Hardened.get_todo. rewrite Hv. reflexivity.
  - intros Hacc. rewrite (post_todos_accepted _ _ Hacc). reflexivity.
  - destruct (validateTodoId params_id) as [e|id] eqn:Hv; [discriminate|].
    cbn [isValid andb]. intros Ht.
    rewrite (put_todo_validated _ params_id id body Hv Ht). reflexivity.
  - destruct (validateTodoId params_id) as [e|id] eqn:Hv; [discriminate|].
    intros _. unfold Hardened.delete_todo. rewrite Hv. reflexivity.
Qed.

Lemma create_read_back_fails {DB} (L : dbLayer DB) body db r db1 err script :
  create_accepts body = true ->
  insertTodo L (VStr (sanitizeTitle (Body.title body)))
    (nullish_or (Body.description body) VNull)
    (if isValidStatus (Body.status body) then Body.status body
     else DEFAULT_STATUS) db = (Return r, db1) ->
  Hardened.post_todos (unreliable L) (Some body)
    (db, None :: Some err :: script)
  = (Return (failure_response err), (db1, script)).
Proof.
  intros Hacc Hins. rewrite (post_todos_accepted _ _ Hacc).
  run_any. rewrite Hins. reflexivity.
Qed.

Lemma update_later_calls_fail
  {DB} (L : dbLayer DB) params_id id body db found db1 err script :
  validateTodoId params_id = ValidId id ->
  truthy (VStr (sanitizeTitle (Body.title body))) = true ->
  todoExists L id db = (Return (Some found), db1) ->
  found <> [] ->
  isDescriptionTooLong (nullish_or (Body.description body) VNull) 1000 = false ->
  Hardened.put_todo (unreliable L) params_id (Some body)
    (db, None :: Some err :: script)
  = (Return (failure_response err), (db1, script))
  /\
  forall r db2,
    updateTodo L id (VStr (sanitizeTitle (Body.title body)))
      (nullish_or (Body.description body) VNull)
      (if isValidStatus (Body.status body) then Body.status body
       else DEFAULT_STATUS) db1 = (Return r, db2) ->
    Hardened.put_todo (unreliable L) params_id (Some body)
      (db, None :: None :: Some err :: script)
    = (Return (failure_response err), (db2, script)).
Proof.
  intros Hv Ht Hex Hfound Hlen.
  rewrite (put_todo_validated _ params_id id body Hv Ht).
  destruct found as [|x found']; [now elim Hfound|].
  split; [|intros r db2 Hupd]; run_any; rewrite Hex;
    cbn [List.length Nat.eqb]; rewrite Hlen; cbv beta iota;
    [|rewrite Hupd]; reflexivity.
Qed.

(** Every persistence call sits inside a [try]: a call that rejects with
    an Error [err] makes the handler answer 500 with [err.message], or
    ["DB failure"] when that is empty, whatever the persistence functions
    do otherwise.  This holds at each position of a call: the first call
    of each operation, the read-back of create (after the insert has
    run), and the update statement and the read-back of update (after the
    existence check, and after the update, have run). *)
Theorem hardened_catches_failures {DB} (L : dbLayer DB) (db : DB) :
  (forall req err script,
     reaches_db req = true ->
     Hardened.fetch (unreliable L) req (db, Some err :: script)
     = (Return (json (JError (or_default (message err) (lit "DB failure")))
                     500), (db, script)))
  /\
  (forall body r db1 err script,
     create_accepts body = true ->
     insertTodo L (VStr (sanitizeTitle (Body.title body)))
       (nullish_or (Body.description body) VNull)
       (if isValidStatus (Body.status body) then Body.status body
        else DEFAULT_STATUS) db = (Return r, db1) ->
     Hardened.fetch (unreliable L) (POST_todos (Some body))
       (db, None :: Some err :: script)
     = (Return (failure_response err), (db1, script)))
  /\
  (forall params_id id body found db1 err script,
     validateTodoId params_id = ValidId id ->
     truthy (VStr (sanitizeTitle (Body.title body))) = true ->
     todoExists L id db = (Return (Some found), db1) ->
     found <> [] ->
     isDescriptionTooLong (nullish_or (Body.description body) VNull) 1000
     = false ->
     Hardened.fetch (unreliable L) (PUT_todo params_id (Some body))
       (db, None :: Some err :: script)
     = (Return (failure_response err), (db1, script))
     /\
     forall r db2,
       updateTodo L id (VStr (sanitizeTitle (Body.title body)))
         (nullish_or (Body.description body) VNull)
         (if isValidStatus (Body.status body) then Body.status body
          else DEFAULT_STATUS) db1 = (Return r, db2) ->
       Hardened.fetch (unreliable L) (PUT_todo params_id (Some body))
         (db, None :: None :: Some err :: script)
       = (Return (failure_response err), (db2, script))).
Proof.
  split; [|split].
  - intros req err script Hr. exact (first_call_fails L req db err script Hr).
  - intros body r db1 err script Hacc Hins.
    exact (create_read_back_fails L body db r db1 err script Hacc Hins).
  - intros params_id id body found db1 err script Hv Ht Hex Hfound Hlen.
    exact (update_later_calls_fail L params_id id body db found db1 err script
             Hv Ht Hex Hfound Hlen).
Qed.

Lemma hardened_catches_failures_witness :
  let err := {| message := [] |} in
  let body := Body.mk (VStr (lit "Test")) VUndefined VUndefined in
  let row := Todo.mk 1 (VStr (lit "Test")) VNull (VStr (lit "incomplete")) in
  reaches_db (GET_todo (lit "1")) = true /\
  Hardened.fetch (unreliable d1) (GET_todo (lit "1")) (empty_db, [Some err])
  = (Return (json (JError (lit "DB failure")) 500), (empty_db, [])) /\
  Hardened.fetch (unreliable d1) (POST_todos (Some body))
    (empty_db, [None; Some err])
  = (Return (json (JError (lit "DB failure")) 500),
     ({| rows := [row]; seq := 1 |}, [])).
Proof.
  intros err body row.
  destruct (@hardened_catches_failures D1 d1 empty_db) as [H1 [H2 _]].
  split; [reflexivity|]. split.
  - exact (H1 (GET_todo (lit "1")) err [] eq_refl).
  - exact (H2 body _ _ err [] eq_refl eq_refl).
Defined.

(* ------------------------------------------------------------------ *)
(** ** The hardened revision: the invariant of stored Todos *)

Lemma latest_In (rs : list Todo.t) r : latest rs = Some r -> In r rs.
Proof.
  revert r. induction rs as [|x rs IH]; intros r; cbn [latest];
    [discriminate|].
  destruct (latest rs) as [r'|].
  - destruct (Todo.id x <? Todo.id r'); intros E; injection E as <-.
    + right. now apply IH.
    + now left.
  - intros E; injection E as <-. now left.
Qed.

Lemma todos_of_latest (rs : list Todo.t) :
  incl (todos_of (JTodo (hd_error (match latest rs with
                                   | Some r => [r]
                                   | None => []
                                   end)))) rs.
Proof.
  destruct (latest rs) as [r|] eqn:E; cbn; intros x Hx; [|now elim Hx].
  destruct Hx as [<-|[]]. now apply latest_In.
Qed.

Lemma todos_of_selected (f : Todo.t -> bool) (rs : list Todo.t) :
  incl (todos_of (JTodo (hd_error (filter f rs)))) rs.
Proof.
  destruct (filter f rs) as [|r l] eqn:E; cbn; intros x Hx; [now elim Hx|].
  destruct Hx as [<-|[]].
  assert (H : In r (filter f rs)) by (rewrite E; now left).
  now apply filter_In in H.
Qed.

Lemma filter_ok (f : Todo.t -> bool) (rs : list Todo.t) :
  Forall (fun r => todo_ok r = true) rs ->
  Forall (fun r => todo_ok r = true) (filter f rs).
Proof.
  rewrite !Forall_forall. intros H r Hr. apply filter_In in Hr. now apply H.
Qed.

(** What the hardened create and update bind is a Todo that satisfies the
    invariant. *)
Lemma written_row_ok id (T D S : value) :
  truthy (VStr (sanitizeTitle T)) = true ->
  todo_ok (Todo.mk id (VStr (sanitizeTitle T)) D
             (if isValidStatus S then S else DEFAULT_STATUS)) = true.
Proof.
  intros Ht. unfold todo_ok. cbn [Todo.title Todo.status].
  rewrite sanitizeTitle_normalized by (now apply truthy_str).
  destruct (isValidStatus S) eqn:E; [exact E|reflexivity].
Qed.

Lemma updated_ok (rs : list Todo.t) id (T D S : value) :
  truthy (VStr (sanitizeTitle T)) = true ->
  Forall (fun r => todo_ok r = true) rs ->
  Forall (fun r => todo_ok r = true)
    (map (fun r => if has_id id r
                   then Todo.mk (Todo.id r) (VStr (sanitizeTitle T)) D
                          (if isValidStatus S then S else DEFAULT_STATUS)
                   else r) rs).
Proof.
  intros Ht. rewrite !Forall_forall. intros H r Hr.
  apply in_map_iff in Hr as [x [<- Hx]].
  destruct (has_id id x); [now apply written_row_ok|now apply H].
Qed.

Lemma inserted_ok (db : D1) (T D S : value) :
  truthy (VStr (sanitizeTitle T)) = true ->
  table_ok db ->
  Forall (fun r => todo_ok r = true)
    (rows db ++ [Todo.mk (next_rowid db) (VStr (sanitizeTitle T)) D
                   (if isValidStatus S then S else DEFAULT_STATUS)]).
Proof.
  intros Ht Hok. apply Forall_app. split; [exact Hok|].
  constructor; [now apply written_row_ok|constructor].
Qed.

Lemma create_accepts_title (body : Body.t) :
  create_accepts body = true ->
  truthy (VStr (sanitizeTitle (Body.title body))) = true.
Proof.
  unfold create_accepts. intros H.
  apply andb_true_iff in H as [H _]. apply andb_true_iff in H as [H _].
  now apply andb_true_iff in H as [_ H].
Qed.

(** Closes a case of the analyses below: the table is the old one, a
    filtered one, or one that [written_row_ok] covers, and the response
    carries rows of it. *)
Ltac ok_case :=
  cbn [fst rows] in *; split;
  [ first [ assumption | now apply filter_ok | now apply inserted_ok
          | now apply updated_ok ]
  | let resp := fresh "resp" in
    let E := fresh "E" in
    intros resp E; try discriminate E; injection E as <-;
    cbn [Response.body json todos_of];
    first [ apply incl_refl | apply todos_of_selected | apply todos_of_latest
          | apply incl_nil_l ] ].

Lemma get_todos_keeps_ok : keeps_ok (Hardened.get_todos (unreliable d1)).
Proof.
  intros [db [|[e|] script]] w' out Hok; unfold Hardened.get_todos; run;
    intros H; inj H; ok_case.
Qed.

Lemma get_todo_keeps_ok params_id :
  keeps_ok (Hardened.get_todo (unreliable d1) params_id).
Proof.
  intros [db script] w' out Hok. unfold Hardened.get_todo.
  destruct (validateTodoId params_id) as [e|id].
  - run. intros H; inj H; ok_case.
  - destruct script as [|[e|] script]; run; repeat branch;
      intros H; inj H; ok_case.
Qed.

Lemma delete_todo_keeps_ok params_id :
  keeps_ok (Hardened.delete_todo (unreliable d1) params_id).
Proof.
  intros [db script] w' out Hok. unfold Hardened.delete_todo.
  destruct (validateTodoId params_id) as [e|id].
  - run. intros H; inj H; ok_case.
  - destruct script as [|[e|] script]; run; repeat branch;
      intros H; inj H; ok_case.
Qed.

Lemma post_todos_keeps_ok request_json :
  keeps_ok (Hardened.post_todos (unreliable d1) request_json).
Proof.
  intros [db script] w' out Hok. unfold Hardened.post_todos.
  destruct request_json as [body|]; [|run; intros H; inj H; ok_case].
  destruct (truthy (Body.title body)); cbn [negb];
    [|run; intros H; inj H; ok_case].
  destruct (truthy (VStr (sanitizeTitle (Body.title body)))) eqn:Ht;
    cbn [negb]; [|run; intros H; inj H; ok_case].
  destruct (isDescriptionTooLong _ _); [run; intros H; inj H; ok_case|].
  destruct (isValidDescription _) as [[|]|];
    [|run; intros H; inj H; ok_case..].
  destruct script as [|[e|] [|[e2|] script]]; run; intros H; inj H; ok_case.
Qed.

Lemma put_todo_keeps_ok params_id request_json :
  keeps_ok (Hardened.put_todo (unreliable d1) params_id request_json).
Proof.
  intros [db script] w' out Hok. unfold Hardened.put_todo.
  destruct (validateTodoId params_id) as [e|id];
    [run; intros H; inj H; ok_case|].
  destruct request_json as [body|]; [|run; intros H; inj H; ok_case].
  destruct (truthy (Body.title body)); cbn [negb];
    [|run; intros H; inj H; ok_case].
  destruct (truthy (VStr (sanitizeTitle (Body.title body)))) eqn:Ht;
    cbn [negb]; [|run; intros H; inj H; ok_case].
  destruct script as [|[e|] [|[e2|] [|[e3|] script]]]; run;
    try destruct (Nat.eqb _ 0);
    try destruct (isDescriptionTooLong _ _);
    intros H; inj H; ok_case.
Qed.

(** Invariant of the hardened revision.  If every stored Todo has a
    normalised, non-empty title and one of the four statuses, then so has
    every stored Todo after any request, whether the persistence calls
    fail or not, and every Todo that a response carries is a stored one. *)
Theorem hardened_keeps_todos_ok
  (req : request) (w w' : World) (out : completion Response.t) :
  table_ok (fst w) ->
  Hardened.fetch (unreliable d1) req w = (out, w') ->
  table_ok (fst w') /\
  forall resp,
    out = Return resp ->
    incl (todos_of (Response.body resp)) (rows (fst w')) /\
    Forall (fun r => todo_ok r = true) (todos_of (Response.body resp)).
Proof.
  intros Hok H.
  assert (K : keeps_ok (Hardened.fetch (unreliable d1) req)).
  { destruct req; cbn [Hardened.fetch].
    - intros v v' o Hv E. inj E. ok_case.
    - apply get_todos_keeps_ok.
    - apply get_todo_keeps_ok.
    - apply post_todos_keeps_ok.
    - apply put_todo_keeps_ok.
    - apply delete_todo_keeps_ok.
    - intros v v' o Hv E. inj E. ok_case. }
  destruct (K w w' out Hok H) as [Hok' Hresp]. split; [exact Hok'|].
  intros resp E. specialize (Hresp resp E). split; [exact Hresp|].
  apply Forall_forall. intros r Hr.
  unfold table_ok in Hok'. rewrite Forall_forall in Hok'.
  apply Hok', Hresp, Hr.
Qed.

Lemma hardened_keeps_todos_ok_witness :
  let old := Todo.mk 1 (VStr (lit "old")) VNull (VStr (lit "complete")) in
  let new := Todo.mk 2 (VStr (lit "Buy milk")) VNull (VStr (lit "incomplete")) in
  let w : World := ({| rows := [old]; seq := 1 |}, []) in
  let w' : World := ({| rows := [old; new]; seq := 2 |}, []) in
  let req := POST_todos (Some (Body.mk (VStr (lit "  Buy   milk  ")) VUndefined
                                       (VStr (lit "later")))) in
  table_ok (fst w) /\
  Hardened.fetch (unreliable d1) req w
  = (Return (json (JTodo (Some new)) 201), w') /\
  table_ok (fst w') /\
  forall resp,
    Return (json (JTodo (Some new)) 201) = Return resp ->
    incl (todos_of (Response.body resp)) (rows (fst w')) /\
    Forall (fun r => todo_ok r = true) (todos_of (Response.body resp)).
Proof.
  intros old new w w' req.
  assert (H1 : table_ok (fst w)) by (repeat constructor).
  assert (H2 : Hardened.fetch (unreliable d1) req w
               = (Return (json (JTodo (Some new)) 201), w')) by reflexivity.
  split; [exact H1|]. split; [exact H2|].
  exact (hardened_keeps_todos_ok req w w' _ H1 H2).
Defined.

(* ------------------------------------------------------------------ *)
(** ** [sanitizeTitle]: fixed points and what it keeps *)

Section SanitizeFacts.

Lemma normal_from_last (s : jsstr) :
  forall b, normal_from b s = true -> s <> [] -> is_ws (last s 32%N) = false.
Proof.
  induction s as [|c r IH]; intros b H Hne; [now elim Hne|].
  cbn [normal_from] in H. destruct r as [|x r'].
  - cbn [last]. destruct (is_ws c); [|reflexivity].
    cbn [normal_from] in H. rewrite andb_false_r in H. discriminate.
  - change (last (c :: x :: r') 32%N) with (last (x :: r') 32%N).
    destruct (is_ws c).
    + apply andb_true_iff in H as [_ H]. apply (IH true H). discriminate.
    + apply (IH false H). discriminate.
Qed.

Lemma normal_from_replace (s : jsstr) :
  forall b, normal_from b s = true -> replace_ws_runs b s = s.
Proof.
  induction s as [|c r IH]; intros b H; [reflexivity|].
  cbn [normal_from] in H. cbn [replace_ws_runs].
  destruct (is_ws c).
  - apply andb_true_iff in H as [H Hr]. apply andb_true_iff in H as [Hc Hb].
    apply N.eqb_eq in Hc. subst c. destruct b; [discriminate|].
    now rewrite (IH true Hr).
  - now rewrite (IH false H).
Qed.

Lemma normalized_trim (s : jsstr) : normalized s = true -> trim s = s.
Proof.
  intros H. unfold normalized in H.
  destruct s as [|c r]; [discriminate|].
  assert (Hc : is_ws c = false).
  { cbn [normal_from] in H. destruct (is_ws c); [|reflexivity].
    rewrite andb_false_r in H. discriminate. }
  assert (Hl : is_ws (last (c :: r) 32%N) = false)
    by (apply (normal_from_last _ true H); discriminate).
  unfold trim. cbn [trimStart]. rewrite Hc. unfold trimEnd.
  destruct (rev (c :: r)) as [|x t] eqn:E.
  - apply (f_equal (@rev N)) in E. rewrite rev_involutive in E. discriminate.
  - assert (Es : c :: r = rev t ++ [x]).
    { rewrite <- (rev_involutive (c :: r)), E. reflexivity. }
    rewrite Es, last_last in Hl. cbn [trimStart]. rewrite Hl.
    now rewrite Es.
Qed.

(** A normalised title is a fixed point. *)
Lemma normalized_fixed (s : jsstr) :
  normalized s = true -> sanitizeTitle (VStr s) = s.
Proof.
  intros H. pose proof (normalized_trim s H) as Ht.
  unfold sanitizeTitle. cbn [as_string].
  destruct s as [|c r]; [discriminate|].
  change (truthy (VStr (c :: r))) with true. cbn [negb].
  rewrite Ht. cbn [List.length Nat.eqb].
  unfold normalized in H.
  assert (Hc : is_ws c = false).
  { cbn [normal_from] in H. destruct (is_ws c); [|reflexivity].
    rewrite andb_false_r in H. discriminate. }
  cbn [normal_from] in H. rewrite Hc in H.
  cbn [replace_ws_runs]. rewrite Hc. now rewrite (normal_from_replace r false H).
Qed.

Lemma ink_cons (c : N) (r : jsstr) :
  ink (c :: r) = if is_ws c then ink r else c :: ink r.
Proof. unfold ink, non_ws. cbn [filter]. now destruct (is_ws c). Qed.

Lemma ink_trimStart (s : jsstr) : ink (trimStart s) = ink s.
Proof.
  induction s as [|c r IH]; [reflexivity|].
  cbn [trimStart]. destruct (is_ws c) eqn:Hc; [|reflexivity].
  now rewrite IH, ink_cons, Hc.
Qed.

Lemma ink_rev (s : jsstr) : ink (rev s) = rev (ink s).
Proof. apply filter_rev. Qed.

Lemma ink_trim (s : jsstr) : ink (trim s) = ink s.
Proof.
  unfold trim, trimEnd.
  now rewrite ink_rev, ink_trimStart, ink_rev, rev_involutive, ink_trimStart.
Qed.

Lemma ink_replace (s : jsstr) : forall b, ink (replace_ws_runs b s) = ink s.
Proof.
  induction s as [|c r IH]; intros b; [reflexivity|].
  cbn [replace_ws_runs]. rewrite (ink_cons c r).
  destruct (is_ws c) eqn:Hc.
  - destruct b; [apply IH|]. rewrite ink_cons, is_ws_space. apply IH.
  - rewrite ink_cons, Hc. f_equal. apply IH.
Qed.

Lemma length_trimStart (s : jsstr) :
  (List.length (trimStart s) <= List.length s)%nat.
Proof.
  induction s as [|c r IH]; [apply Nat.le_refl|].
  cbn [trimStart]. destruct (is_ws c); cbn [List.length]; lia.
Qed.

Lemma length_trim (s : jsstr) : (List.length (trim s) <= List.length s)%nat.
Proof.
  unfold trim, trimEnd. rewrite length_rev.
  pose proof (length_trimStart (rev (trimStart s))) as H1.
  rewrite length_rev in H1. pose proof (length_trimStart s). lia.
Qed.

Lemma length_replace (s : jsstr) :
  forall b, (List.length (replace_ws_runs b s) <= List.length s)%nat.
Proof.
  induction s as [|c r IH]; intros b; [apply Nat.le_refl|].
  pose proof (IH true). pose proof (IH false).
  cbn [replace_ws_runs]. destruct (is_ws c); [destruct b|];
    cbn [List.length]; lia.
Qed.

End SanitizeFacts.

Lemma ink_nil_iff (s : jsstr) : ink s = [] <-> forallb is_ws s = true.
Proof.
  induction s as [|c r IH]; [now split|].
  rewrite ink_cons. cbn [forallb]. destruct (is_ws c); cbn [andb].
  - exact IH.
  - split; discriminate.
Qed.

Lemma sanitizeTitle_ink (s : jsstr) : ink (sanitizeTitle (VStr s)) = ink s.
Proof.
  unfold sanitizeTitle. cbn [as_string].
  destruct s as [|c r]; [reflexivity|].
  change (truthy (VStr (c :: r))) with true. cbn [negb].
  destruct (trim (c :: r)) as [|x t] eqn:E.
  - cbn [List.length Nat.eqb]. now rewrite <- (ink_trim (c :: r)), E.
  - cbn [List.length Nat.eqb]. now rewrite ink_replace, <- E, ink_trim.
Qed.

Lemma sanitizeTitle_empty_iff (v : value) :
  sanitizeTitle v = [] <->
  as_string v = None \/ exists s, v = VStr s /\ forallb is_ws s = true.
Proof.
  split.
  - intros H. destruct (as_string v) as [s|] eqn:E; [|now left].
    right. exists s. destruct v; try discriminate. injection E as ->.
    split; [reflexivity|]. apply ink_nil_iff.
    now rewrite <- sanitizeTitle_ink, H.
  - intros [E|[s [-> Hs]]].
    + now apply sanitizeTitle_not_string.
    + now apply sanitizeTitle_all_ws.
Qed.

(** [sanitizeTitle] is idempotent, and the strings it leaves as they are
    are the empty string and the normalised ones: no white space at either
    end, only single spaces inside. *)
Theorem sanitizeTitle_idempotent (v : value) :
  sanitizeTitle (VStr (sanitizeTitle v)) = sanitizeTitle v /\
  forall s : jsstr,
    sanitizeTitle (VStr s) = s <-> s = [] \/ normalized s = true.
Proof.
  assert (Hfix : forall s, s = [] \/ normalized s = true ->
                           sanitizeTitle (VStr s) = s).
  { intros s [->|Hn]; [reflexivity|now apply normalized_fixed]. }
  split.
  - apply Hfix. destruct (sanitizeTitle v) as [|c r] eqn:E; [now left|].
    right. rewrite <- E. apply sanitizeTitle_normalized. rewrite E.
    discriminate.
  - intros s. split; [|apply Hfix].
    intros H. destruct s as [|c r]; [now left|]. right.
    rewrite <- H. apply sanitizeTitle_normalized. rewrite H. discriminate.
Qed.

(** [sanitizeTitle] only removes or replaces white space: the other code
    units of the title come out unchanged and in the same order, and the
    result is never longer than the title. *)
Theorem sanitizeTitle_keeps_ink (s : jsstr) :
  ink (sanitizeTitle (VStr s)) = ink s /\
  (List.length (sanitizeTitle (VStr s)) <= List.length s)%nat.
Proof.
  split; [apply sanitizeTitle_ink|].
  unfold sanitizeTitle. cbn [as_string].
  destruct (negb (truthy (VStr s))); [cbn; lia|].
  destruct (Nat.eqb (List.length (trim s)) 0); [cbn; lia|].
  pose proof (length_replace (trim s) false). pose proof (length_trim s). lia.
Qed.

(** Refutes an equation between two outcomes that differ in being a
    response, in the status, or in the error text. *)
Ltac differs H :=
  exfalso;
  first
    [ discriminate H
    | injection H as H _;
      first
        [ apply (f_equal Response.status) in H; cbv in H; discriminate H
        | apply (f_equal Response.body) in H;
          cbn [Response.body json] in H; injection H as H;
          vm_compute in H; discriminate H ] ].

Lemma blank_title_iff (v : value) :
  truthy v = true /\ sanitizeTitle v = [] <->
  truthy v = true /\
  (as_string v = None \/ exists s, v = VStr s /\ forallb is_ws s = true).
Proof. now rewrite sanitizeTitle_empty_iff. Qed.

Lemma post_todos_empty_title_iff {DB} (L : dbLayer DB) body db :
  Hardened.post_todos L (Some body) db
  = (Return (json (JError (lit "Title cannot be empty")) 400), db)
  <-> truthy (Body.title body) = true /\ sanitizeTitle (Body.title body) = [].
Proof.
  unfold Hardened.post_todos.
  destruct (truthy (Body.title body)); cbn [negb].
  2:{ split; [intros H; differs H|intros [H _]; discriminate H]. }
  destruct (sanitizeTitle (Body.title body)) as [|c r] eqn:Es.
  { split; [now split|reflexivity]. }
  change (truthy (VStr (c :: r))) with true. cbn [negb].
  split; [|intros [_ H]; discriminate H].
  destruct (isDescriptionTooLong _ _); [intros H; differs H|].
  destruct (isValidDescription _) as [[|]|]; try (intros H; differs H).
  run_any. repeat (call_outcome; try (intros H; differs H)).
Qed.

Lemma put_todo_empty_title_iff {DB} (L : dbLayer DB) params_id id body db :
  validateTodoId params_id = ValidId id ->
  Hardened.put_todo L params_id (Some body) db
  = (Return (json (JError (lit "Title cannot be empty")) 400), db)
  <-> truthy (Body.title body) = true /\ sanitizeTitle (Body.title body) = [].
Proof.
  intros Hv. unfold Hardened.put_todo. rewrite Hv.
  destruct (truthy (Body.title body)); cbn [negb].
  2:{ split; [intros H; differs H|intros [H _]; discriminate H]. }
  destruct (sanitizeTitle (Body.title body)) as [|c r] eqn:Es.
  { split; [now split|reflexivity]. }
  change (truthy (VStr (c :: r))) with true. cbn [negb].
  split; [|intros [_ H]; discriminate H].
  run_any. call_outcome; [|intros H; differs H].
  repeat branch; try (intros H; differs H);
    repeat (call_outcome; try (intros H; differs H)).
Qed.

(** Create and update answer 400 ["Title cannot be empty"] exactly when
    the title is truthy and is either no string (a number, [true]) or a
    string of white space only; a title with any other code unit never
    gets this answer. *)
Theorem empty_title_error_iff
  {DB} (L : dbLayer DB) (body : Body.t) (params_id : jsstr) (id : Z) (db : DB) :
  validateTodoId params_id = ValidId id ->
  let blank :=
    truthy (Body.title body) = true /\
    (as_string (Body.title body) = None \/
     exists s, Body.title body = VStr s /\ forallb is_ws s = true) in
  let answer : completion Response.t * DB :=
    (Return (json (JError (lit "Title cannot be empty")) 400), db) in
  (Hardened.post_todos L (Some body) db = answer <-> blank) /\
  (Hardened.put_todo L params_id (Some body) db = answer <-> blank).
Proof.
  intros Hv blank answer. unfold blank, answer. split.
  - rewrite post_todos_empty_title_iff. apply blank_title_iff.
  - rewrite (put_todo_empty_title_iff L params_id id body db Hv).
    apply blank_title_iff.
Qed.

Lemma empty_title_error_iff_witness :
  let body := Body.mk (VNum 5) VUndefined VUndefined in
  let answer : completion Response.t * D1 :=
    (Return (json (JError (lit "Title cannot be empty")) 400), empty_db) in
  validateTodoId (lit "2") = ValidId 2 /\
  Hardened.post_todos d1 (Some body) empty_db = answer /\
  Hardened.put_todo d1 (lit "2") (Some body) empty_db = answer.
Proof.
  intros body answer.
  destruct (@empty_title_error_iff D1 d1 body (lit "2") 2 empty_db eq_refl)
    as [[_ H1] [_ H2]].
  split; [reflexivity|]. split.
  - apply H1. split; [reflexivity|now left].
  - apply H2. split; [reflexivity|now left].
Defined.

(* ------------------------------------------------------------------ *)
(** ** [parseInt] and [validateTodoId]: what an id may look like *)

Section IdSyntax.

Lemma trimStart_app_ws (ws s : jsstr) :
  forallb is_ws ws = true -> trimStart (ws ++ s) = trimStart s.
Proof.
  induction ws as [|c r IH]; [reflexivity|].
  cbn [forallb app trimStart]. intros H.
  apply andb_true_iff in H as [Hc Hr]. rewrite Hc. exact (IH Hr).
Qed.

Lemma parseInt_app_ws (ws s : jsstr) :
  forallb is_ws ws = true -> parseInt (ws ++ s) = parseInt s.
Proof.
  intros H. unfold parseInt. now rewrite (trimStart_app_ws ws s H).
Qed.

Lemma radix_digit_no_decimal (c : N) :
  is_decimal_digit c = false -> radix_digit 10 c = None.
Proof.
  unfold radix_digit, digit_value, is_decimal_digit. intros ->.
  destruct ((97 <=? c) && (c <=? 122))%N eqn:E1.
  - apply andb_true_iff in E1 as [E1 _]. apply N.leb_le in E1.
    destruct (Z.ltb_spec (Z.of_N c - 97 + 10) 10); [lia|reflexivity].
  - destruct ((65 <=? c) && (c <=? 90))%N eqn:E2; [|reflexivity].
    apply andb_true_iff in E2 as [E2 _]. apply N.leb_le in E2.
    destruct (Z.ltb_spec (Z.of_N c - 65 + 10) 10); [lia|reflexivity].
Qed.

Lemma parse_digits_stop (tail : jsstr) (acc : option Z) :
  ends_number tail = true -> parse_digits 10 tail acc = acc.
Proof.
  destruct tail as [|c r]; [reflexivity|]. cbn [ends_number parse_digits].
  intros H. apply negb_true_iff in H.
  now rewrite (radix_digit_no_decimal c H).
Qed.

Lemma parse_digits_tail (u : Decimal.uint) (tail : jsstr) :
  ends_number tail = true ->
  forall acc,
    parse_digits 10 (uint_digits u ++ tail) acc
    = parse_digits 10 (uint_digits u) acc.
Proof.
  intros Ht.
  induction u as [|u IH|u IH|u IH|u IH|u IH|u IH|u IH|u IH|u IH|u IH];
    intros acc; cbn [uint_digits app parse_digits];
    [now apply parse_digits_stop|..];
    match goal with
    | |- context [radix_digit 10 ?c] =>
        let d := eval vm_compute in (radix_digit 10 c) in
        change (radix_digit 10 c) with d; cbv iota
    end; apply IH.
Qed.

(** The decimal digits of a positive number do not start with [0]. *)
Lemma to_uint_head (p : positive) :
  match Pos.to_uint p with
  | Decimal.Nil | Decimal.D0 _ => False
  | _ => True
  end.
Proof.
  assert (Hn : Decimal.unorm (Pos.to_uint p) = Pos.to_uint p).
  { rewrite <- (Unsigned.to_of (Pos.to_uint p)), Unsigned.of_to.
    reflexivity. }
  pose proof (Unsigned.to_uint_nonzero p) as Hz.
  pose proof (Unsigned.to_uint_nonnil p) as Hnil.
  destruct (Pos.to_uint p) as [|l| | | | | | | | |] eqn:E; try exact I.
  - now elim Hnil.
  - assert (Hh : Decimal.nzhead (Decimal.D0 l) = Decimal.Nil
                 \/ Decimal.nzhead (Decimal.D0 l) <> Decimal.Nil).
    { destruct (Decimal.nzhead (Decimal.D0 l)); [now left|right; discriminate..]. }
    destruct Hh as [Hh|Hh].
    + apply unorm_0 in Hh. rewrite Hn in Hh. now elim Hz.
    + rewrite (unorm_nzhead _ Hh) in Hn. now apply nzhead_nonzero in Hn.
Qed.

Lemma parseInt_unsigned (u : Decimal.uint) (tail : jsstr) :
  match u with Decimal.Nil | Decimal.D0 _ => False | _ => True end ->
  parseInt (uint_digits u ++ tail)
  = match parse_digits 10 (uint_digits u ++ tail) None with
    | None => None
    | Some m => Some (1 * m)
    end.
Proof.
  destruct u; intros H; try contradiction; cbn [uint_digits app];
    destruct (uint_digits u ++ tail); reflexivity.
Qed.

Lemma parseInt_signed (sign : N) (u : Decimal.uint) (tail : jsstr) :
  match u with Decimal.Nil | Decimal.D0 _ => False | _ => True end ->
  sign = 43%N \/ sign = 45%N ->
  parseInt (sign :: uint_digits u ++ tail)
  = match parse_digits 10 (uint_digits u ++ tail) None with
    | None => None
    | Some m => Some ((if (sign =? 45)%N then -1 else 1) * m)
    end.
Proof.
  intros H [->| ->]; destruct u; try contradiction; cbn [uint_digits app];
    destruct (uint_digits u ++ tail); reflexivity.
Qed.

(** The digits of a positive number, read back as a mathematical integer
    (before [parseInt] makes a double of it). *)
Lemma parse_decimal (p : positive) (tail : jsstr) :
  ends_number tail = true ->
  parse_digits 10 (uint_digits (Pos.to_uint p) ++ tail) None = Some (Zpos p).
Proof.
  intros Ht. rewrite (parse_digits_tail _ tail Ht).
  rewrite (parse_digits_start _ (Unsigned.to_uint_nonnil p)).
  now rewrite Unsigned.of_to.
Qed.

(** The handlers read [params.id] through [validateTodoId] only. *)
Lemma same_validation {DB} (L : dbLayer DB) (a b : jsstr) request_json :
  validateTodoId a = validateTodoId b ->
  Hardened.get_todo L a = Hardened.get_todo L b /\
  Hardened.put_todo L a request_json = Hardened.put_todo L b request_json /\
  Hardened.delete_todo L a = Hardened.delete_todo L b.
Proof.
  intros H. unfold Hardened.get_todo, Hardened.put_todo, Hardened.delete_todo.
  now rewrite H.
Qed.

End IdSyntax.

(** How lenient the id check is.  The id validator reads a positive id
    below [2^53] from its decimal digits also when white space or a [+]
    comes before them and when any text that does not start with a digit
    comes after them, and the id-taking handlers then serve the request as
    the one for the plain id; with a [-] before the digits the id is
    refused. *)
Theorem validateTodoId_lenient
  {DB} (L : dbLayer DB) (n : Z) (ws tail : jsstr) (request_json : option Body.t) :
  0 < n ->
  n < 2 ^ 53 ->
  forallb is_ws ws = true ->
  ends_number tail = true ->
  validateTodoId (ws ++ Number_toString n ++ tail) = ValidId n /\
  validateTodoId (ws ++ 43%N :: Number_toString n ++ tail) = ValidId n /\
  validateTodoId (ws ++ 45%N :: Number_toString n ++ tail)
  = InvalidId (lit "Invalid ID") /\
  Hardened.get_todo L (ws ++ Number_toString n ++ tail)
  = Hardened.get_todo L (Number_toString n) /\
  Hardened.put_todo L (ws ++ Number_toString n ++ tail) request_json
  = Hardened.put_todo L (Number_toString n) request_json /\
  Hardened.delete_todo L (ws ++ Number_toString n ++ tail)
  = Hardened.delete_todo L (Number_toString n).
Proof.
  intros Hn Hmax Hws Ht. destruct n as [|p|p]; try lia.
  cbn [Number_toString].
  pose proof (to_uint_head p) as Hh.
  assert (H1 : validateTodoId (ws ++ uint_digits (Pos.to_uint p) ++ tail)
               = ValidId (Zpos p)).
  { unfold validateTodoId. rewrite (parseInt_app_ws ws _ Hws).
    rewrite (parseInt_unsigned _ tail Hh), (parse_decimal p tail Ht).
    reflexivity. }
  assert (H0 : validateTodoId (uint_digits (Pos.to_uint p)) = ValidId (Zpos p)).
  { apply validateTodoId_valid. split; [|lia].
    exact (parseInt_Number_toString (Zpos p) Hn Hmax). }
  split; [exact H1|]. split; [|split].
  - unfold validateTodoId. rewrite (parseInt_app_ws ws _ Hws).
    rewrite (parseInt_signed 43 _ tail Hh (or_introl eq_refl)).
    rewrite (parse_decimal p tail Ht). reflexivity.
  - unfold validateTodoId. rewrite (parseInt_app_ws ws _ Hws).
    rewrite (parseInt_signed 45 _ tail Hh (or_intror eq_refl)).
    rewrite (parse_decimal p tail Ht). reflexivity.
  - apply same_validation. now rewrite H1, H0.
Qed.

Lemma validateTodoId_lenient_witness :
  0 < 12 /\
  12 < 2 ^ 53 /\
  forallb is_ws (lit "  ") = true /\
  ends_number (lit "abc") = true /\
  validateTodoId (lit "  12abc") = ValidId 12 /\
  Hardened.get_todo d1 (lit "  12abc") = Hardened.get_todo d1 (lit "12").
Proof.
  assert (H1 : 0 < 12) by reflexivity.
  assert (Hmax : 12 < 2 ^ 53) by reflexivity.
  assert (H2 : forallb is_ws (lit "  ") = true) by reflexivity.
  assert (H3 : ends_number (lit "abc") = true) by reflexivity.
  repeat (split; [assumption|]).
  destruct (@validateTodoId_lenient D1 d1 12 (lit "  ") (lit "abc") None
              H1 Hmax H2 H3) as [Ha [_ [_ [Hb _]]]].
  split; [exact Ha|exact Hb].
Defined.

Section HexIds.

Lemma parse_hex_acc (u : Hexadecimal.uint) :
  forall acc : positive,
    parse_digits 16 (hex_digits u) (Some (Zpos acc))
    = Some (Zpos (Pos.of_hex_uint_acc u acc)).
Proof.
  induction u; intros acc;
    cbn [hex_digits parse_digits Pos.of_hex_uint_acc]; [reflexivity|..];
    match goal with
    | |- context [radix_digit 16 ?c] =>
        let d := eval vm_compute in (radix_digit 16 c) in
        change (radix_digit 16 c) with d; cbv iota
    end;
    match goal with
    | IH : forall acc, _ |- _ => rewrite <- IH
    end; do 2 f_equal; lia.
Qed.

Lemma parse_hex_zero (u : Hexadecimal.uint) :
  parse_digits 16 (hex_digits u) (Some 0)
  = Some (Z.of_N (Pos.of_hex_uint u)).
Proof.
  induction u as [|u IH|u|u|u|u|u|u|u|u|u|u|u|u|u|u|u];
    cbn [hex_digits parse_digits Pos.of_hex_uint]; [reflexivity|exact IH|..];
    exact (parse_hex_acc u _).
Qed.

Lemma parse_hex_start (u : Hexadecimal.uint) :
  u <> Hexadecimal.Nil ->
  parse_digits 16 (hex_digits u) None = Some (Z.of_N (Pos.of_hex_uint u)).
Proof.
  destruct u; intros Hne; [now elim Hne|exact (parse_hex_zero u)|..];
    exact (parse_hex_acc u _).
Qed.

Lemma radix_digit_no_hex (c : N) :
  is_hex_digit c = false -> radix_digit 16 c = None.
Proof.
  unfold radix_digit, digit_value, is_hex_digit. intros H.
  apply orb_false_iff in H as [H H3]. apply orb_false_iff in H as [H1 H2].
  rewrite H1.
  destruct ((97 <=? c) && (c <=? 122))%N eqn:E1.
  - apply andb_true_iff in E1 as [E1 E1']. rewrite E1 in H2. cbn [andb] in H2.
    apply N.leb_le in E1. apply N.leb_gt in H2.
    destruct (Z.ltb_spec (Z.of_N c - 97 + 10) 16); [lia|reflexivity].
  - destruct ((65 <=? c) && (c <=? 90))%N eqn:E2; [|reflexivity].
    apply andb_true_iff in E2 as [E2 E2']. rewrite E2 in H3. cbn [andb] in H3.
    apply N.leb_le in E2. apply N.leb_gt in H3.
    destruct (Z.ltb_spec (Z.of_N c - 65 + 10) 16); [lia|reflexivity].
Qed.

Lemma parse_hex_tail (u : Hexadecimal.uint) (tail : jsstr) :
  ends_hex_number tail = true ->
  forall acc,
    parse_digits 16 (hex_digits u ++ tail) acc
    = parse_digits 16 (hex_digits u) acc.
Proof.
  intros Ht.
  induction u; intros acc; cbn [hex_digits app parse_digits];
    [destruct tail as [|c r]; [reflexivity|]; cbn [ends_hex_number] in Ht;
     apply negb_true_iff in Ht; cbn [parse_digits];
     now rewrite (radix_digit_no_hex c Ht)|..];
    match goal with
    | |- context [radix_digit 16 ?c] =>
        let d := eval vm_compute in (radix_digit 16 c) in
        change (radix_digit 16 c) with d; cbv iota
    end;
    match goal with
    | IH : forall acc, _ |- _ => apply IH
    end.
Qed.

Lemma parseInt_hex (x : N) (rest : jsstr) :
  x = 120%N \/ x = 88%N ->
  parseInt (48%N :: x :: rest)
  = match parse_digits 16 rest None with
    | None => None
    | Some m => Some (1 * m)
    end.
Proof. intros [->| ->]; reflexivity. Qed.

End HexIds.

(** An id may be written in hexadecimal.  [parseInt] is called without a
    radix, so after [0x] or [0X] it reads base-16 digits: the id validator
    accepts such a string as the id it denotes, for an id below [2^53]
    (white space before and text that starts with no hexadecimal digit
    after it are ignored), and the id-taking handlers serve the request as
    the one for the decimal id. *)
Theorem validateTodoId_hexadecimal
  {DB} (L : dbLayer DB) (p : positive) (x : N) (ws tail : jsstr)
  (request_json : option Body.t) :
  x = 120%N \/ x = 88%N ->
  Zpos p < 2 ^ 53 ->
  forallb is_ws ws = true ->
  ends_hex_number tail = true ->
  let hex := ws ++ 48%N :: x :: hex_digits (Pos.to_hex_uint p) ++ tail in
  validateTodoId hex = ValidId (Zpos p) /\
  Hardened.get_todo L hex = Hardened.get_todo L (Number_toString (Zpos p)) /\
  Hardened.put_todo L hex request_json
  = Hardened.put_todo L (Number_toString (Zpos p)) request_json /\
  Hardened.delete_todo L hex
  = Hardened.delete_todo L (Number_toString (Zpos p)).
Proof.
  intros Hx Hmax Hws Ht hex.
  assert (H1 : validateTodoId hex = ValidId (Zpos p)).
  { unfold validateTodoId, hex. rewrite (parseInt_app_ws ws _ Hws).
    rewrite (parseInt_hex x _ Hx), (parse_hex_tail _ tail Ht).
    rewrite (parse_hex_start _ (HexadecimalPos.Unsigned.to_uint_nonnil p)).
    rewrite HexadecimalPos.Unsigned.of_to. reflexivity. }
  split; [exact H1|]. apply same_validation. rewrite H1. symmetry.
  apply validateTodoId_valid. split; [|lia].
  apply parseInt_Number_toString; [lia|exact Hmax].
Qed.

Lemma validateTodoId_hexadecimal_witness :
  (120%N = 120%N \/ 120%N = 88%N) /\
  31 < 2 ^ 53 /\
  forallb is_ws [] = true /\
  ends_hex_number [] = true /\
  validateTodoId (lit "0x1f") = ValidId 31 /\
  Hardened.get_todo d1 (lit "0x1f") = Hardened.get_todo d1 (lit "31").
Proof.
  assert (H1 : 120%N = 120%N \/ 120%N = 88%N) by (now left).
  assert (Hmax : 31 < 2 ^ 53) by reflexivity.
  assert (H2 : forallb is_ws [] = true) by reflexivity.
  assert (H3 : ends_hex_number [] = true) by reflexivity.
  repeat (split; [assumption|]).
  destruct (@validateTodoId_hexadecimal D1 d1 31%positive 120%N [] [] None
              H1 Hmax H2 H3) as [Ha [Hb _]].
  split; [exact Ha|exact Hb].
Defined.

(* ------------------------------------------------------------------ *)
(** ** The shape of the responses *)








(* ------------------------------------------------------------------ *)
(** ** What create makes of a description *)

Section DescriptionFacts.

Lemma starts_with_iff (needle hay : jsstr) :
  starts_with needle hay = true <-> exists after, hay = needle ++ after.
Proof.
  revert hay. induction needle as [|x n IH]; intros hay.
  - split; [intros _; now exists hay|reflexivity].
  - destruct hay as [|y h]; cbn [starts_with].
    + split; [discriminate|intros [after H]; discriminate H].
    + rewrite andb_true_iff, N.eqb_eq, IH. split.
      * intros [-> [after ->]]. now exists after.
      * intros [after H]. injection H as -> ->. split; [reflexivity|].
        now exists after.
Qed.

Lemma includes_iff (hay needle : jsstr) :
  includes hay needle = true <-> occurs_in needle hay.
Proof.
  unfold occurs_in. induction hay as [|y h IH].
  - cbn [includes]. rewrite orb_false_r, starts_with_iff. split.
    + intros [after H]. now exists [], after.
    + intros [before [after H]]. destruct before; [now exists after|].
      discriminate H.
  - cbn [includes]. rewrite orb_true_iff, starts_with_iff, IH. split.
    + intros [[after H]|[before [after H]]].
      * now exists [], after.
      * exists (y :: before), after. now rewrite H.
    + intros [[|b before] [after H]].
      * left. now exists after.
      * right. injection H as -> ->. now exists before, after.
Qed.

Lemma blocklisted_iff (s : jsstr) :
  existsb (includes s) blocklist = true <->
  exists b, In b blocklist /\ occurs_in b s.
Proof.
  rewrite existsb_exists. split; intros [b [Hb H]]; exists b;
    (split; [exact Hb|]); now apply includes_iff.
Qed.

(** At most 1000 code units: the check against 5000 cannot fail. *)
Lemma isValidDescription_short (s : jsstr) :
  (List.length s <= 1000)%nat ->
  isValidDescription (VStr s)
  = Some (negb (existsb (includes s) blocklist)).
Proof.
  intros Hlen. destruct s as [|c r]; [reflexivity|].
  unfold isValidDescription, blocklist.
  change (truthy (VStr (c :: r))) with true. cbn [negb existsb].
  destruct (includes (c :: r) (lit "<script>")); [reflexivity|].
  destruct (includes (c :: r) (lit "javascript:")); [reflexivity|].
  destruct (includes (c :: r) (lit "onerror=")); [reflexivity|].
  destruct (includes (c :: r) (lit "onload=")); [reflexivity|].
  destruct (Nat.ltb_spec 5000 (List.length (c :: r))); [lia|reflexivity].
Qed.

Lemma too_long_iff (d : value) :
  isDescriptionTooLong d 1000 = true <->
  exists s, d = VStr s /\ (1000 < List.length s)%nat.
Proof.
  destruct d as [| |b|n|s].
  1-2: split; [discriminate|intros [s [H _]]; discriminate H].
  1-2: unfold isDescriptionTooLong;
       match goal with |- context [negb ?c] => destruct c end;
       (split; [discriminate|intros [s [H _]]; discriminate H]).
  rewrite isDescriptionTooLong_str, Nat.ltb_lt. split.
  - intros H. now exists s.
  - intros [s' [E H]]. now injection E as ->.
Qed.

Lemma invalid_content_iff (d : value) :
  isDescriptionTooLong d 1000 = false ->
  isValidDescription d = Some false <->
  exists s b, d = VStr s /\ (List.length s <= 1000)%nat /\
              In b blocklist /\ occurs_in b s.
Proof.
  destruct d as [| |b|n|s]; intros Hlen.
  1-2: split; [discriminate|intros [s [b' [H _]]]; discriminate H].
  1-2: unfold isValidDescription;
       match goal with |- context [negb ?c] => destruct c end;
       (split; [discriminate|intros [s [b' [H _]]]; discriminate H]).
  rewrite isDescriptionTooLong_str in Hlen. apply Nat.ltb_ge in Hlen.
  rewrite (isValidDescription_short s Hlen). split.
  - intros H. injection H as H. apply negb_false_iff, blocklisted_iff in H.
    destruct H as [b [Hb Ho]]. now exists s, b.
  - intros [s' [b [E [_ [Hb Ho]]]]]. injection E as <-.
    assert (H : existsb (includes s) blocklist = true)
      by (apply blocklisted_iff; now exists b).
    now rewrite H.
Qed.

Lemma includes_raises_iff (d : value) :
  isValidDescription d = None <->
  d = VBool true \/ exists n, d = VNum n /\ n <> 0.
Proof.
  destruct d as [| |[|]|n|s].
  - split; [discriminate|intros [H|[n [H _]]]; discriminate H].
  - split; [discriminate|intros [H|[n [H _]]]; discriminate H].
  - split; [now left|reflexivity].
  - split; [discriminate|intros [H|[n [H _]]]; discriminate H].
  - unfold isValidDescription. cbn [truthy].
    destruct (Z.eqb_spec n 0) as [->|Hn]; cbn [negb].
    + split; [discriminate|intros [H|[n [H Hn]]]; [discriminate H|]].
      injection H as <-. now elim Hn.
    + split; [intros _; right; now exists n|reflexivity].
  - split; [|intros [H|[n [H _]]]; discriminate H].
    unfold isValidDescription. destruct (negb (truthy (VStr s)));
      [discriminate|].
    repeat match goal with
           | |- context [if ?c then _ else _] => destruct c
           end; discriminate.
Qed.

Lemma post_todos_description {DB} (L : dbLayer DB) (body : Body.t) (db : DB) :
  truthy (VStr (sanitizeTitle (Body.title body))) = true ->
  Hardened.post_todos L (Some body) db
  = if isDescriptionTooLong (nullish_or (Body.description body) VNull) 1000
    then (Return too_long, db)
    else match isValidDescription
                 (nullish_or (Body.description body) VNull) with
         | None => (Throw TypeError_includes, db)
         | Some false => (Return invalid_content, db)
         | Some true =>
             try_catch
               (await_ insertTodo L (VStr (sanitizeTitle (Body.title body)))
                         (nullish_or (Body.description body) VNull)
                         (if isValidStatus (Body.status body)
                          then Body.status body else DEFAULT_STATUS) ;;
                await results <- getLatestTodo L ;;
                ret (json (JTodo (hd_error results)) HTTP_STATUS.CREATED))
               (Hardened.on_failure (DB:=DB)) db
         end.
Proof.
  intros Ht. unfold Hardened.post_todos.
  rewrite (sanitizeTitle_truthy _ Ht), Ht. cbn [negb].
  destruct (isDescriptionTooLong _ _); [reflexivity|].
  destruct (isValidDescription _) as [[|]|]; reflexivity.
Qed.

Lemma written_or_failed {DB} (L : dbLayer DB) (t d s : value) (db db' : DB) out :
  try_catch
    (await_ insertTodo L t d s ;;
     await results <- getLatestTodo L ;;
     ret (json (JTodo (hd_error results)) HTTP_STATUS.CREATED))
    (Hardened.on_failure (DB:=DB)) db = (out, db') ->
  exists resp, out = Return resp /\
               (Response.status resp = 201 \/ Response.status resp = 500).
Proof.
  run_any. call_outcome.
  - call_outcome; intros H; inj H; eexists; (split; [reflexivity|]);
      [now left|now right].
  - intros H; inj H; eexists; (split; [reflexivity|]); now right.
Qed.

End DescriptionFacts.

(** What [POST /todos] makes of a description, once the title has passed.
    For a string: it answers 400 "too long" exactly when the string has
    more than 1000 code units, and 400 "invalid content" exactly when it
    has at most 1000 code units and [<script>], [javascript:], [onerror=]
    or [onload=] occurs in it as written (the comparison is by code unit,
    so in this case and spelling only); the check against 5000 code units
    in [isValidDescription] never decides.  For a description that is
    [null] or left out neither answer is given.
    For [true] or a number other than zero the handler ends with the
    TypeError of calling [includes], before any persistence call. *)
Theorem create_description_verdict
  {DB} (L : dbLayer DB) (body : Body.t) (db : DB) :
  truthy (VStr (sanitizeTitle (Body.title body))) = true ->
  let outcome := Hardened.post_todos L (Some body) db in
  (forall s,
     Body.description body = VStr s ->
     (outcome = (Return too_long, db) <-> (1000 < List.length s)%nat) /\
     (outcome = (Return invalid_content, db) <->
      (List.length s <= 1000)%nat /\
      exists b, In b blocklist /\ occurs_in b s)) /\
  (Body.description body = VNull \/ Body.description body = VUndefined ->
   outcome <> (Return too_long, db) /\
   outcome <> (Return invalid_content, db)) /\
  (Body.description body = VBool true \/
   (exists n, Body.description body = VNum n /\ n <> 0) ->
   outcome = (Throw TypeError_includes, db)).
Proof.
  intros Ht outcome. unfold outcome.
  rewrite (post_todos_description L body db Ht).
  pose proof (too_long_iff (nullish_or (Body.description body) VNull))
    as Hlong.
  pose proof (invalid_content_iff (nullish_or (Body.description body) VNull))
    as Hbad.
  pose proof (includes_raises_iff (nullish_or (Body.description body) VNull))
    as Hraise.
  assert (Hwritten :
            forall out db',
              try_catch
                (await_ insertTodo L (VStr (sanitizeTitle (Body.title body)))
                          (nullish_or (Body.description body) VNull)
                          (if isValidStatus (Body.status body)
                           then Body.status body else DEFAULT_STATUS) ;;
                 await results <- getLatestTodo L ;;
                 ret (json (JTodo (hd_error results)) HTTP_STATUS.CREATED))
                (Hardened.on_failure (DB:=DB)) db = (out, db') ->
              out <> Return too_long /\ out <> Return invalid_content).
  { intros out db' H. apply written_or_failed in H as [resp [-> Hs]].
    split; intros E; injection E as ->; destruct Hs as [Hs|Hs];
      discriminate Hs. }
  split; [|split].
  - intros s Hs. rewrite Hs in *. cbn [nullish_or] in *.
    destruct (isDescriptionTooLong (VStr s) 1000) eqn:El.
    + destruct (proj1 Hlong eq_refl) as [s' [E Hl]]. injection E as <-.
      split.
      * split; [intros _; exact Hl|reflexivity].
      * split; [intros H; differs H|intros [Hle _]; lia].
    + specialize (Hbad eq_refl).
      assert (Hshort : (List.length s <= 1000)%nat).
      { rewrite isDescriptionTooLong_str in El. now apply Nat.ltb_ge in El. }
      destruct (isValidDescription (VStr s)) as [[|]|] eqn:Ev.
      * split.
        -- split; [|intros H; lia].
           intros H. exfalso.
           destruct (try_catch _ _ db) as [out db1] eqn:E.
           destruct (Hwritten out db1 eq_refl) as [H1 _].
           injection H as H _. contradiction.
        -- split.
           ++ intros H. exfalso.
              destruct (try_catch _ _ db) as [out db1] eqn:E.
              destruct (Hwritten out db1 eq_refl) as [_ H2].
              injection H as H _. contradiction.
           ++ intros [_ [b [Hb Ho]]].
              assert (Hx : Some true = Some false);
                [|discriminate Hx].
              apply Hbad. now exists s, b.
      * split.
        -- split; [intros H; differs H|intros H; lia].
        -- split; [|reflexivity]. intros _.
           destruct (proj1 Hbad eq_refl) as [s' [b [E [_ [Hb Ho]]]]].
           injection E as <-. split; [exact Hshort|now exists b].
      * exfalso. destruct (proj1 Hraise eq_refl) as [H|[n [H _]]];
          discriminate H.
  - intros Hnone.
    assert (E : nullish_or (Body.description body) VNull = VNull)
      by (destruct Hnone as [-> | ->]; reflexivity).
    rewrite E in *. cbn [isDescriptionTooLong isValidDescription truthy negb].
    destruct (try_catch _ _ db) as [out db1] eqn:Eo.
    destruct (Hwritten out db1 eq_refl) as [H1 H2].
    split.
    + intros H. injection H as H _. contradiction.
    + intros H. injection H as H _. contradiction.
  - intros Hodd.
    assert (E : isValidDescription (nullish_or (Body.description body) VNull)
                = None).
    { apply Hraise. destruct Hodd as [H|[n [H Hn]]]; rewrite H;
        [now left|right; now exists n]. }
    assert (El : isDescriptionTooLong
                   (nullish_or (Body.description body) VNull) 1000 = false).
    { destruct Hodd as [H|[n [H Hn]]]; rewrite H; cbn [nullish_or];
        unfold isDescriptionTooLong;
        match goal with |- context [negb ?c] => destruct c end;
        reflexivity. }
    now rewrite El, E.
Qed.

Lemma create_description_verdict_witness :
  let body := Body.mk (VStr (lit "Test")) (VStr (lit "<SCRIPT> and <script>"))
                      VUndefined in
  truthy (VStr (sanitizeTitle (Body.title body))) = true /\
  Hardened.post_todos d1 (Some body) empty_db
  = (Return invalid_content, empty_db).
Proof.
  intros body.
  assert (Ht : truthy (VStr (sanitizeTitle (Body.title body))) = true)
    by reflexivity.
  split; [exact Ht|].
  destruct (@create_description_verdict D1 d1 body empty_db Ht)
    as [H _].
  destruct (H (lit "<SCRIPT> and <script>") eq_refl) as [_ [_ Hbad]].
  apply Hbad. split; [vm_compute; lia|].
  exists (lit "<script>"). split; [now left|].
  exists (lit "<SCRIPT> and "), []. reflexivity.
Defined.

(* ------------------------------------------------------------------ *)
(** ** What a request does to the table *)

Section StoreEffects.

Lemma get_todos_effect (w w' : World) out :
  Hardened.get_todos (unreliable d1) w = (out, w') ->
  fst w' = fst w /\ created_id out = None.
Proof.
  unfold Hardened.get_todos.
  destruct w as [db [|[e|] script]]; run; intros H; inj H; now split.
Qed.

Lemma get_todo_effect params_id (w w' : World) out :
  Hardened.get_todo (unreliable d1) params_id w = (out, w') ->
  fst w' = fst w /\ created_id out = None.
Proof.
  unfold Hardened.get_todo. destruct (validateTodoId params_id) as [e|id].
  - run. intros H; inj H; now split.
  - destruct w as [db [|[e|] script]]; run;
      repeat branch; intros H; inj H; now split.
Qed.

Lemma delete_todo_effect params_id (w w' : World) out :
  Hardened.delete_todo (unreliable d1) params_id w = (out, w') ->
  (fst w' = fst w \/
   exists id, validateTodoId params_id = ValidId id /\
              fst w' = deleted (fst w) id)
  /\ created_id out = None.
Proof.
  unfold Hardened.delete_todo.
  destruct (validateTodoId params_id) as [e|id].
  - run. intros H; inj H; split; [now left|reflexivity].
  - destruct w as [db [|[e|] script]]; run;
      repeat branch; intros H; inj H;
      (split; [|reflexivity]);
      first [ now left | right; exists id; now split ].
Qed.

Lemma post_todos_effect request_json (w w' : World) out :
  Hardened.post_todos (unreliable d1) request_json w = (out, w') ->
  (fst w' = fst w /\ created_id out = None) \/
  exists t d s,
    fst w' = inserted (fst w) t d s /\
    (created_id out = None \/ created_id out = Some (next_rowid (fst w))).
Proof.
  destruct request_json as [body|]; [|intros H; inj H; left; now split].
  destruct (create_accepts body) eqn:Hacc.
  - rewrite (post_todos_accepted _ _ Hacc).
    destruct w as [db script].
    set (t := VStr (sanitizeTitle (Body.title body))).
    set (d := nullish_or (Body.description body) VNull).
    set (s := if isValidStatus (Body.status body) then Body.status body
              else DEFAULT_STATUS).
    destruct (inserted_row_selected db t d s) as [Hl _].
    destruct script as [|[e|] [|[e2|] script]]; run;
      try rewrite Hl; intros H; inj H;
      first [ left; split; reflexivity
            | right; exists t, d, s; split; [reflexivity|];
              first [ now left | now right ] ].
  - intros H. left. split.
    + now rewrite (post_todos_rejected _ _ _ _ _ Hacc H).
    + revert H. unfold Hardened.post_todos, create_accepts in *.
      destruct (truthy (Body.title body)); cbn [negb andb] in *;
        [|intros H; now inj H].
      destruct (truthy (VStr (sanitizeTitle (Body.title body))));
        cbn [negb andb] in *; [|intros H; now inj H].
      destruct (isDescriptionTooLong _ _); cbn [negb andb] in *;
        [intros H; now inj H|].
      destruct (isValidDescription _) as [[|]|];
        [discriminate Hacc| |]; intros H; now inj H.
Qed.

Lemma put_todo_effect params_id request_json (w w' : World) out :
  Hardened.put_todo (unreliable d1) params_id request_json w = (out, w') ->
  (fst w' = fst w \/
   exists id t d s, validateTodoId params_id = ValidId id /\
                    fst w' = updated (fst w) id t d s)
  /\ created_id out = None.
Proof.
  destruct (validateTodoId params_id) as [e|id] eqn:Hv.
  { unfold Hardened.put_todo. rewrite Hv. intros H; inj H.
    split; [now left|reflexivity]. }
  destruct request_json as [body|].
  2:{ unfold Hardened.put_todo. rewrite Hv. intros H; inj H.
      split; [now left|reflexivity]. }
  destruct (truthy (VStr (sanitizeTitle (Body.title body)))) eqn:Ht.
  - rewrite (@put_todo_validated _ (unreliable d1) params_id id body Hv Ht).
    destruct w as [db [|[e|] [|[e2|] [|[e3|] script]]]]; run;
      repeat branch; intros H; inj H; (split; [|reflexivity]);
      first [ now left | right; do 4 eexists; split; reflexivity ].
  - unfold Hardened.put_todo. rewrite Hv, Ht.
    destruct (truthy (Body.title body)); intros H; inj H;
      (split; [now left|reflexivity]).
Qed.

(** Each request leaves the table as it was or runs one of the three
    writing statements on it, and only an [INSERT] that ran can be behind
    a 201. *)
Lemma fetch_effect (req : request) (w w' : World) out :
  Hardened.fetch (unreliable d1) req w = (out, w') ->
  (fst w' = fst w /\ created_id out = None) \/
  (exists t d s,
     fst w' = inserted (fst w) t d s /\
     (created_id out = None \/ created_id out = Some (next_rowid (fst w)))) \/
  (exists id t d s, fst w' = updated (fst w) id t d s /\
                    created_id out = None) \/
  (exists id, fst w' = deleted (fst w) id /\ created_id out = None).
Proof.
  destruct req as [| |params_id|body|params_id body|params_id|];
    cbn [Hardened.fetch]; intros H.
  - inj H. left. now split.
  - left. exact (get_todos_effect _ _ _ H).
  - left. exact (get_todo_effect _ _ _ _ H).
  - apply post_todos_effect in H as [H|H]; [now left|right; now left].
  - apply put_todo_effect in H as [[H|[id [t [d [s [_ H]]]]]] Hc].
    + left. now split.
    + right. right. left. now exists id, t, d, s.
  - apply delete_todo_effect in H as [[H|[id [_ H]]] Hc].
    + left. now split.
    + right. right. right. now exists id.
  - inj H. left. now split.
Qed.

Lemma ids_updated (db : D1) id t d s : ids (updated db id t d s) = ids db.
Proof.
  unfold ids, updated. cbn [rows]. rewrite map_map. apply map_ext.
  intros r. now destruct (has_id id r).
Qed.

Lemma others_updated (db : D1) id t d s :
  others id (updated db id t d s) = others id db.
Proof.
  unfold others, updated. cbn [rows].
  induction (rows db) as [|x rs IH]; [reflexivity|].
  cbn [map filter]. destruct (has_id id x) eqn:Hx.
  - unfold has_id at 1. cbn [Todo.id]. unfold has_id in Hx. rewrite Hx.
    cbn [negb]. exact IH.
  - rewrite Hx. cbn [negb]. now rewrite IH.
Qed.

Lemma others_deleted (db : D1) id : others id (deleted db id) = others id db.
Proof.
  unfold others, deleted. cbn [rows].
  induction (rows db) as [|x rs IH]; [reflexivity|].
  cbn [filter]. destruct (has_id id x) eqn:Hx; cbn [negb]; [exact IH|].
  cbn [filter]. rewrite Hx. cbn [negb]. now rewrite IH.
Qed.

Lemma next_rowid_unused (db : D1) t d s :
  ~ In (Todo.id (Todo.mk (next_rowid db) t d s)) (ids db).
Proof.
  cbn [Todo.id]. unfold ids. intros H. apply in_map_iff in H as [r [E Hr]].
  apply next_rowid_fresh in Hr. lia.
Qed.

End StoreEffects.

(** A request only touches the rows it is about, whether persistence calls
    fail or not.  The reads, the catch-all and a request with an invalid id
    leave the table as it is; [POST /todos] leaves it as it is or appends
    one row under an id that no row has; [PUT] of a valid id leaves every
    row with another id as it is and where it is and keeps the ids of the
    table; [DELETE] of a valid id removes the rows with that id and no
    other, or nothing. *)
Theorem hardened_frame (req : request) (w w' : World) out :
  Hardened.fetch (unreliable d1) req w = (out, w') ->
  frame req (fst w) (fst w').
Proof.
  destruct req as [| |params_id|body|params_id body|params_id|];
    cbn [Hardened.fetch frame]; intros H.
  - now inj H.
  - exact (proj1 (get_todos_effect _ _ _ H)).
  - exact (proj1 (get_todo_effect _ _ _ _ H)).
  - apply post_todos_effect in H as [[H _]|[t [d [s [H _]]]]]; [now left|].
    right. exists (Todo.mk (next_rowid (fst w)) t d s). rewrite H.
    split; [reflexivity|apply next_rowid_unused].
  - apply put_todo_effect in H as [[H|[id [t [d [s [Hv H]]]]]] _].
    + rewrite H. destruct (validateTodoId params_id); now repeat split.
    + rewrite Hv, H.
      split; [apply others_updated|split; [apply ids_updated|reflexivity]].
  - apply delete_todo_effect in H as [[H|[id [Hv H]]] _].
    + rewrite H. destruct (validateTodoId params_id); [reflexivity|now left].
    + rewrite Hv, H. right. now split.
  - now inj H.
Qed.

Lemma hardened_frame_witness :
  let a := Todo.mk 1 (VStr (lit "a")) VNull (VStr (lit "complete")) in
  let b := Todo.mk 2 (VStr (lit "b")) VNull (VStr (lit "archived")) in
  let table := {| rows := [a; b]; seq := 2 |} in
  let after := {| rows := [b]; seq := 2 |} in
  Hardened.fetch (unreliable d1) (DELETE_todo (lit "1")) (table, [])
  = (Return (json JSuccess 200), (after, [])) /\
  frame (DELETE_todo (lit "1")) table after.
Proof.
  intros a b table after.
  assert (H : Hardened.fetch (unreliable d1) (DELETE_todo (lit "1"))
                (table, [])
              = (Return (json JSuccess 200), (after, []))) by reflexivity.
  split; [exact H|].
  exact (@hardened_frame (DELETE_todo (lit "1")) (table, []) (after, [])
           _ H).
Defined.

(* ------------------------------------------------------------------ *)
(** ** Ids over a sequence of requests *)

Section Keys.

Lemma ids_inserted (db : D1) t d s :
  ids (inserted db t d s) = ids db ++ [next_rowid db].
Proof. unfold ids, inserted. cbn [rows]. now rewrite map_app. Qed.

Lemma ids_deleted (db : D1) id :
  ids (deleted db id) = filter (fun i => negb (i =? id)) (ids db).
Proof.
  unfold ids, deleted. cbn [rows].
  induction (rows db) as [|x rs IH]; [reflexivity|].
  cbn [filter map]. unfold has_id at 1.
  destruct (Todo.id x =? id); cbn [negb map]; now rewrite IH.
Qed.

Lemma next_rowid_above_seq (db : D1) : seq db < next_rowid db.
Proof. unfold next_rowid. lia. Qed.

Lemma well_keyed_inserted (db : D1) t d s :
  well_keyed db -> well_keyed (inserted db t d s).
Proof.
  intros [Hnd Hall]. unfold well_keyed. rewrite ids_inserted. split.
  - apply NoDup_app; [exact Hnd|repeat constructor; intros []|].
    intros a Ha [<-|[]]. rewrite Forall_forall in Hall.
    apply Hall in Ha. pose proof (next_rowid_above_seq db). lia.
  - apply Forall_app. cbn [seq inserted]. split.
    + eapply Forall_impl; [|exact Hall]. cbn beta. intros a Ha.
      pose proof (next_rowid_above_seq db). lia.
    + constructor; [|constructor]. pose proof (next_rowid_pos db). lia.
Qed.

Lemma well_keyed_updated (db : D1) id t d s :
  well_keyed db -> well_keyed (updated db id t d s).
Proof. unfold well_keyed. now rewrite ids_updated. Qed.

Lemma well_keyed_deleted (db : D1) id :
  well_keyed db -> well_keyed (deleted db id).
Proof.
  intros [Hnd Hall]. unfold well_keyed. rewrite ids_deleted. split.
  - now apply NoDup_filter.
  - cbn [seq deleted]. rewrite Forall_forall in *. intros a Ha.
    apply filter_In in Ha as [Ha _]. now apply Hall.
Qed.

(** One request: the table stays well keyed, the sequence does not go
    back, and a created id is above the sequence as it was. *)
Lemma fetch_keys (req : request) (w w' : World) out :
  well_keyed (fst w) ->
  Hardened.fetch (unreliable d1) req w = (out, w') ->
  well_keyed (fst w') /\ seq (fst w) <= seq (fst w') /\
  forall id, created_id out = Some id -> seq (fst w) < id <= seq (fst w').
Proof.
  intros Hk H.
  apply fetch_effect in H
    as [[-> Hc]|[[t [d [s [-> Hc]]]]|[[id [t [d [s [-> Hc]]]]]|[id [-> Hc]]]]].
  - split; [exact Hk|]. split; [lia|]. rewrite Hc. discriminate.
  - split; [now apply well_keyed_inserted|]. cbn [seq inserted].
    pose proof (next_rowid_above_seq (fst w)).
    split; [lia|]. intros id Hid. destruct Hc as [Hc|Hc]; rewrite Hc in Hid;
      [discriminate|]. injection Hid as <-. lia.
  - split; [now apply well_keyed_updated|]. cbn [seq updated].
    split; [lia|]. rewrite Hc. discriminate.
  - split; [now apply well_keyed_deleted|]. cbn [seq deleted].
    split; [lia|]. rewrite Hc. discriminate.
Qed.

End Keys.

(** Ids are given once.  Over any sequence of requests, with persistence
    calls failing or not, a table with unique positive ids that the
    sequence counter covers stays such a table, and the ids of the 201
    responses are strictly increasing and above the counter as it was at
    the start: none of them is an id that a row has or, by the counter,
    ever had, also not after that row was deleted. *)
Theorem created_ids_increase
  (reqs : list request) (w w' : World) (outs : list (completion Response.t)) :
  well_keyed (fst w) ->
  serve (unreliable d1) reqs w = (outs, w') ->
  well_keyed (fst w') /\
  StronglySorted Z.lt (created_ids outs) /\
  Forall (fun id => seq (fst w) < id <= seq (fst w') /\
                    ~ In id (ids (fst w))) (created_ids outs).
Proof.
  revert w outs. induction reqs as [|req rest IH]; intros w outs Hk.
  - cbn [serve]. intros H. inj H. repeat split; [apply Hk..|constructor|
                                                 constructor].
  - cbn [serve].
    destruct (Hardened.fetch (unreliable d1) req w) as [out w1] eqn:Hf.
    destruct (serve (unreliable d1) rest w1) as [outs1 w2] eqn:Hs.
    intros H. inj H.
    destruct (fetch_keys req w w1 out Hk Hf) as [Hk1 [Hle Hc]].
    destruct (IH w1 outs1 Hk1 Hs) as [Hk2 [Hsorted Hall]].
    assert (Hle2 : seq (fst w1) <= seq (fst w')).
    { clear - Hs Hk1. revert w1 outs1 Hk1 Hs.
      induction rest as [|r rest IH]; intros w1 outs1 Hk1; cbn [serve].
      - intros H. inj H. lia.
      - destruct (Hardened.fetch (unreliable d1) r w1) as [o wa] eqn:Hf.
        destruct (serve (unreliable d1) rest wa) as [os wb] eqn:Hs.
        intros H. inj H.
        destruct (fetch_keys r w1 wa o Hk1 Hf) as [Hka [Hle _]].
        specialize (IH wa os Hka Hs). lia. }
    assert (Hold : forall id, seq (fst w) < id -> ~ In id (ids (fst w))).
    { intros id Hid Hin. destruct Hk as [_ Hall0].
      rewrite Forall_forall in Hall0. apply Hall0 in Hin. lia. }
    assert (Hrest : Forall (fun id => seq (fst w) < id <= seq (fst w') /\
                                      ~ In id (ids (fst w)))
                      (created_ids outs1)).
    { eapply Forall_impl; [|exact Hall]. cbn beta. intros id [Hid _].
      split; [lia|apply Hold; lia]. }
    split; [exact Hk2|]. cbn [created_ids].
    destruct (created_id out) as [id|] eqn:Eid; [|now split].
    specialize (Hc id eq_refl). split.
    + constructor; [exact Hsorted|].
      eapply Forall_impl; [|exact Hall]. cbn beta. intros j [Hj _]. lia.
    + constructor; [|exact Hrest]. split; [lia|apply Hold; lia].
Qed.

Lemma created_ids_increase_witness :
  let body t := Some (Body.mk (VStr (lit t)) VUndefined VUndefined) in
  let reqs := [POST_todos (body "a"%string); DELETE_todo (lit "1");
               POST_todos (body "b"%string)] in
  let run := serve (unreliable d1) reqs (empty_db, []) in
  well_keyed empty_db /\
  created_ids (fst run) = [1; 2] /\
  ids (fst (snd run)) = [2] /\
  StronglySorted Z.lt (created_ids (fst run)).
Proof.
  intros body reqs run.
  assert (Hk : well_keyed empty_db) by (split; constructor).
  split; [exact Hk|]. split; [reflexivity|]. split; [reflexivity|].
  exact (proj1 (proj2 (@created_ids_increase reqs (empty_db, [])
                         (snd run) (fst run) Hk eq_refl))).
Defined.

(* ------------------------------------------------------------------ *)
(** ** Update and delete, repeated *)

Section Repeated.

Lemma put_todo_d1 params_id id (body : Body.t) (db : D1) :
  validateTodoId params_id = ValidId id ->
  truthy (VStr (sanitizeTitle (Body.title body))) = true ->
  let t := VStr (sanitizeTitle (Body.title body)) in
  let d := nullish_or (Body.description body) VNull in
  let s := if isValidStatus (Body.status body) then Body.status body
           else DEFAULT_STATUS in
  Hardened.put_todo d1 params_id (Some body) db
  = if Nat.eqb (List.length (filter (has_id id) (rows db))) 0
    then (Return not_found, db)
    else if isDescriptionTooLong d 1000 then (Return too_long, db)
         else (Return (json (JTodo (hd_error
                                      (filter (has_id id)
                                         (rows (updated db id t d s))))) 200),
               updated db id t d s).
Proof.
  intros Hv Ht t d s.
  rewrite (@put_todo_validated _ d1 params_id id body Hv Ht). run.
  rewrite length_map.
  destruct (Nat.eqb (List.length (filter (has_id id) (rows db))) 0);
    [reflexivity|].
  fold d. destruct (isDescriptionTooLong d 1000); reflexivity.
Qed.

Lemma delete_todo_d1 params_id id (db : D1) :
  validateTodoId params_id = ValidId id ->
  Hardened.delete_todo d1 params_id db
  = (Return (if Nat.eqb (List.length (filter (has_id id) (rows db))) 0
             then not_found else json JSuccess 200),
     deleted db id).
Proof.
  intros Hv. unfold Hardened.delete_todo. rewrite Hv. run.
  destruct (filter (has_id id) (rows db)); reflexivity.
Qed.

Lemma get_todo_d1 params_id id (db : D1) :
  validateTodoId params_id = ValidId id ->
  Hardened.get_todo d1 params_id db
  = (Return (match filter (has_id id) (rows db) with
             | [] => not_found
             | r :: _ => json (JTodo (Some r)) 200
             end), db).
Proof.
  intros Hv. unfold Hardened.get_todo. rewrite Hv. run.
  destruct (filter (has_id id) (rows db)); reflexivity.
Qed.

Lemma filter_updated (rs : list Todo.t) id t d s :
  filter (has_id id)
    (map (fun r => if has_id id r then Todo.mk (Todo.id r) t d s else r) rs)
  = map (fun r => Todo.mk (Todo.id r) t d s) (filter (has_id id) rs).
Proof.
  induction rs as [|x rs IH]; [reflexivity|]. cbn [map filter].
  destruct (has_id id x) eqn:Hx.
  - unfold has_id at 1. cbn [Todo.id]. unfold has_id in Hx. rewrite Hx.
    cbn [map]. now rewrite IH.
  - rewrite Hx. exact IH.
Qed.

Lemma length_filter_updated (db : D1) id t d s :
  List.length (filter (has_id id) (rows (updated db id t d s)))
  = List.length (filter (has_id id) (rows db)).
Proof.
  unfold updated. cbn [rows]. now rewrite filter_updated, length_map.
Qed.

Lemma updated_twice (db : D1) id t d s :
  updated (updated db id t d s) id t d s = updated db id t d s.
Proof.
  unfold updated. cbn [rows seq]. f_equal. rewrite map_map.
  apply map_ext. intros r. destruct (has_id id r) eqn:Hr.
  - unfold has_id at 1. cbn [Todo.id]. unfold has_id in Hr. now rewrite Hr.
  - now rewrite Hr.
Qed.

Lemma filter_deleted (rs : list Todo.t) id :
  filter (has_id id) (filter (fun r => negb (has_id id r)) rs) = [].
Proof.
  induction rs as [|x rs IH]; [reflexivity|]. cbn [filter].
  destruct (has_id id x) eqn:Hx; cbn [negb]; [exact IH|].
  cbn [filter]. now rewrite Hx.
Qed.

Lemma deleted_twice (db : D1) id : deleted (deleted db id) id = deleted db id.
Proof.
  unfold deleted. cbn [rows seq]. f_equal.
  induction (rows db) as [|x rs IH]; [reflexivity|]. cbn [filter].
  destruct (has_id id x) eqn:Hx; cbn [negb]; [exact IH|].
  cbn [filter]. rewrite Hx. cbn [negb]. now rewrite IH.
Qed.

Lemma put_todo_twice params_id request_json (db db' : D1) out :
  Hardened.put_todo d1 params_id request_json db = (out, db') ->
  Hardened.put_todo d1 params_id request_json db' = (out, db').
Proof.
  destruct (validateTodoId params_id) as [e|id] eqn:Hv.
  { unfold Hardened.put_todo. rewrite Hv. intros H. now inj H. }
  destruct request_json as [body|].
  2:{ unfold Hardened.put_todo. rewrite Hv. intros H. now inj H. }
  destruct (truthy (VStr (sanitizeTitle (Body.title body)))) eqn:Ht.
  2:{ unfold Hardened.put_todo. rewrite Hv, Ht.
      destruct (truthy (Body.title body)); intros H; now inj H. }
  rewrite !(put_todo_d1 params_id id body _ Hv Ht). cbv zeta.
  destruct (Nat.eqb (List.length (filter (has_id id) (rows db))) 0) eqn:E.
  { intros H. inj H. now rewrite E. }
  destruct (isDescriptionTooLong _ _) eqn:El.
  { intros H. inj H. now rewrite E. }
  intros H. inj H. rewrite updated_twice, length_filter_updated, E.
  reflexivity.
Qed.

End Repeated.

(** Update and delete can be repeated.  Sending the same [PUT] a second
    time gives the answer of the first and leaves the table as the first
    left it.  [DELETE] of a valid id answers 200 exactly when some row has
    the id and 404 exactly when none has; it removes the rows with that id
    and no other; after it, [GET] and a second [DELETE] of the id answer
    404 and change nothing. *)
Theorem update_and_delete_repeated
  (params_id : jsstr) (id : Z) (request_json : option Body.t) (db : D1) :
  validateTodoId params_id = ValidId id ->
  let (updated_out, after_update) :=
    Hardened.put_todo d1 params_id request_json db in
  let (deleted_out, after_delete) := Hardened.delete_todo d1 params_id db in
  Hardened.put_todo d1 params_id request_json after_update
  = (updated_out, after_update) /\
  (deleted_out = Return (json JSuccess 200) <->
   exists r, In r (rows db) /\ Todo.id r = id) /\
  (deleted_out = Return not_found <->
   forall r, In r (rows db) -> Todo.id r <> id) /\
  (forall r, In r (rows after_delete) <-> In r (rows db) /\ Todo.id r <> id) /\
  Hardened.get_todo d1 params_id after_delete
  = (Return not_found, after_delete) /\
  Hardened.delete_todo d1 params_id after_delete
  = (Return not_found, after_delete).
Proof.
  intros Hv.
  destruct (Hardened.put_todo d1 params_id request_json db)
    as [updated_out after_update] eqn:Hput.
  rewrite (delete_todo_d1 params_id id db Hv).
  split; [exact (put_todo_twice _ _ _ _ _ Hput)|].
  assert (Hsome : filter (has_id id) (rows db) <> [] <->
                  exists r, In r (rows db) /\ Todo.id r = id).
  { split; [|apply filter_has_id_some].
    destruct (filter (has_id id) (rows db)) as [|r rs] eqn:E;
      [intros H; now elim H|].
    intros _. exists r.
    assert (Hr : In r (filter (has_id id) (rows db)))
      by (rewrite E; now left).
    apply filter_In in Hr as [Hr Hid]. split; [exact Hr|].
    now apply Z.eqb_eq in Hid. }
  assert (Hnone : filter (has_id id) (rows db) = [] <->
                  forall r, In r (rows db) -> Todo.id r <> id).
  { split; [apply filter_has_id_nil_inv|apply filter_has_id_none]. }
  split; [|split; [|split; [|split]]].
  - rewrite <- Hsome.
    destruct (filter (has_id id) (rows db)); cbn [List.length Nat.eqb].
    + split; [discriminate|intros H; now elim H].
    + split; [discriminate|reflexivity].
  - rewrite <- Hnone.
    destruct (filter (has_id id) (rows db)); cbn [List.length Nat.eqb].
    + split; reflexivity.
    + split; discriminate.
  - intros r. unfold deleted. cbn [rows]. rewrite filter_In.
    unfold has_id. rewrite negb_true_iff, Z.eqb_neq. reflexivity.
  - rewrite (get_todo_d1 params_id id _ Hv). unfold deleted at 1.
    cbn [rows]. now rewrite filter_deleted.
  - rewrite (delete_todo_d1 params_id id _ Hv). unfold deleted at 1.
    cbn [rows]. now rewrite filter_deleted, deleted_twice.
Qed.

Lemma update_and_delete_repeated_witness :
  let a := Todo.mk 1 (VStr (lit "a")) VNull (VStr (lit "complete")) in
  let b := Todo.mk 2 (VStr (lit "b")) VNull (VStr (lit "archived")) in
  let table := {| rows := [a; b]; seq := 2 |} in
  let body := Some (Body.mk (VStr (lit " new  title ")) VUndefined
                            (VStr (lit "done"))) in
  let a' := Todo.mk 1 (VStr (lit "new title")) VNull (VStr (lit "incomplete")) in
  let after_update := {| rows := [a'; b]; seq := 2 |} in
  let after_delete := {| rows := [b]; seq := 2 |} in
  validateTodoId (lit "1") = ValidId 1 /\
  Hardened.put_todo d1 (lit "1") body after_update
  = (Return (json (JTodo (Some a')) 200), after_update) /\
  Hardened.delete_todo d1 (lit "1") after_delete
  = (Return not_found, after_delete).
Proof.
  intros a b table body a' after_update after_delete.
  pose proof (@update_and_delete_repeated (lit "1") 1 body table eq_refl)
    as H.
  change (Hardened.put_todo d1 (lit "1") body table)
    with (Return (json (JTodo (Some a')) 200), after_update) in H.
  change (Hardened.delete_todo d1 (lit "1") table)
    with (Return (json JSuccess 200), after_delete) in H.
  cbv beta iota in H.
  split; [reflexivity|]. split; [exact (proj1 H)|].
  exact (proj2 (proj2 (proj2 (proj2 (proj2 H))))).
Defined.

(* ------------------------------------------------------------------ *)
(** ** The two revisions on plain requests *)

Section Revisions.

Lemma plain_status_same (status : value) :
  plain_status status = true ->
  (if isValidStatus status then status else DEFAULT_STATUS)
  = nullish_or status (VStr (lit "incomplete")).
Proof.
  unfold plain_status. destruct (isValidStatus status) eqn:Hs.
  - intros _. destruct status; try reflexivity; discriminate Hs.
  - cbn [orb]. destruct status; try discriminate; reflexivity.
Qed.

Lemma plain_title (body : Body.t) :
  match Body.title body with
  | VStr s => normalized s
  | _ => false
  end = true ->
  truthy (Body.title body) = true /\
  VStr (sanitizeTitle (Body.title body)) = Body.title body.
Proof.
  destruct (Body.title body) as [| |b|n|s]; try discriminate.
  intros H. rewrite (normalized_fixed s H).
  split; [|reflexivity]. now destruct s.
Qed.

Variable DB : Type.
Variable L : dbLayer DB.

Lemma get_todos_refines (db : DB) :
  Hardened.get_todos L db
  = try_catch (Simple.get_todos L) (Hardened.on_failure (DB:=DB)) db.
Proof.
  unfold Hardened.get_todos, Simple.get_todos. run_any.
  call_outcome; reflexivity.
Qed.

Lemma get_todo_refines params_id (db : DB) :
  isValid (validateTodoId params_id) = true ->
  Hardened.get_todo L params_id db
  = try_catch (Simple.get_todo L params_id) (Hardened.on_failure (DB:=DB)) db.
Proof.
  destruct (validateTodoId params_id) as [e|id] eqn:Hv; [discriminate|].
  intros _. unfold Hardened.get_todo, Simple.get_todo. rewrite Hv.
  apply validateTodoId_valid in Hv as [-> _]. run_any.
  call_outcome; [|reflexivity]. now branch.
Qed.

Lemma delete_todo_refines params_id (db : DB) :
  isValid (validateTodoId params_id) = true ->
  Hardened.delete_todo L params_id db
  = try_catch (Simple.delete_todo L params_id)
      (Hardened.on_failure (DB:=DB)) db.
Proof.
  destruct (validateTodoId params_id) as [e|id] eqn:Hv; [discriminate|].
  intros _. unfold Hardened.delete_todo, Simple.delete_todo. rewrite Hv.
  apply validateTodoId_valid in Hv as [-> _]. run_any.
  call_outcome; [|reflexivity]. repeat branch; reflexivity.
Qed.

Lemma post_todos_refines (body : Body.t) (db : DB) :
  plain_body true body = true ->
  Hardened.post_todos L (Some body) db
  = try_catch (Simple.post_todos L (Some body))
      (Hardened.on_failure (DB:=DB)) db.
Proof.
  unfold plain_body. intros H.
  apply andb_true_iff in H as [H Hs]. apply andb_true_iff in H as [H Hd].
  apply andb_true_iff in H as [Ht Hl]. apply negb_true_iff in Hl.
  apply plain_title in Ht as [Ht Hsan].
  unfold Hardened.post_todos, Simple.post_todos.
  rewrite Hsan, Ht, Hl, (plain_status_same _ Hs). cbn [negb].
  destruct (isValidDescription _) as [[|]|]; try discriminate Hd.
  run_any. call_outcome; [|reflexivity]. call_outcome; reflexivity.
Qed.

Lemma put_todo_refines params_id (body : Body.t) (db : DB) :
  isValid (validateTodoId params_id) = true ->
  plain_body false body = true ->
  Hardened.put_todo L params_id (Some body) db
  = try_catch (Simple.put_todo L params_id (Some body))
      (Hardened.on_failure (DB:=DB)) db.
Proof.
  destruct (validateTodoId params_id) as [e|id] eqn:Hv; [discriminate|].
  intros _. unfold plain_body. intros H.
  apply andb_true_iff in H as [H Hs]. apply andb_true_iff in H as [H _].
  apply andb_true_iff in H as [Ht Hl]. apply negb_true_iff in Hl.
  apply plain_title in Ht as [Ht Hsan].
  unfold Hardened.put_todo, Simple.put_todo. rewrite Hv.
  apply validateTodoId_valid in Hv as [-> Hpos].
  assert (Hle : (id <=? 0) = false) by (apply Z.leb_gt; exact Hpos).
  rewrite Hle, Hsan, Ht, Hl, (plain_status_same _ Hs). cbn [negb].
  run_any. call_outcome; [|reflexivity].
  match goal with
  | |- context [match ?o with Some _ => _ | None => _ end] =>
      destruct o as [[|x found]|]
  end; reflexivity.
Qed.

End Revisions.

(** On a plain request (valid id, normalised title, accepted description,
    status of the four or absent) the hardened revision is the original
    revision inside a [catch]: same persistence calls with the same
    arguments, same response, and where the original ends with the
    exception of a persistence call, the hardened one answers 500 with its
    message.  This holds for any persistence layer. *)
Theorem hardened_refines_simple
  {DB} (L : dbLayer DB) (req : request) (db : DB) :
  plain req = true ->
  Hardened.fetch L req db
  = try_catch (Simple.fetch L req) (Hardened.on_failure (DB:=DB)) db.
Proof.
  destruct req as [| |params_id|[body|]|params_id [body|]|params_id|];
    cbn [plain Hardened.fetch Simple.fetch]; intros H.
  - reflexivity.
  - apply get_todos_refines.
  - now apply get_todo_refines.
  - now apply post_todos_refines.
  - reflexivity.
  - apply andb_true_iff in H as [Hv Hb]. now apply put_todo_refines.
  - destruct (validateTodoId params_id) as [e|id] eqn:Hv; [discriminate|].
    unfold Hardened.put_todo, Simple.put_todo. rewrite Hv.
    apply validateTodoId_valid in Hv as [-> Hpos].
    assert (Hle : (id <=? 0) = false) by (apply Z.leb_gt; exact Hpos).
    now rewrite Hle.
  - now apply delete_todo_refines.
  - reflexivity.
Qed.

Lemma hardened_refines_simple_witness :
  let body := Body.mk (VStr (lit "Buy milk")) (VStr (lit "2 litres"))
                      VUndefined in
  let req := POST_todos (Some body) in
  let err := {| message := lit "D1_ERROR" |} in
  plain req = true /\
  Simple.fetch (unreliable d1) req (empty_db, [Some err])
  = (Throw err, (empty_db, [])) /\
  Hardened.fetch (unreliable d1) req (empty_db, [Some err])
  = (Return (json (JError (lit "D1_ERROR")) 500), (empty_db, [])).
Proof.
  intros body req err.
  assert (H : plain req = true) by reflexivity.
  split; [exact H|]. split; [reflexivity|].
  exact (eq_trans (@hardened_refines_simple _ (unreliable d1) req
                     (empty_db, [Some err]) H) eq_refl).
Defined.

(* ------------------------------------------------------------------ *)
(** ** Display names of the statuses *)

Section DisplayNames.

(** A number is looked up under its digits, which are no key of the map
    and none of an object. *)
Lemma number_key (n : Z) :
  own_property (Number_toString n) statusMap = None /\
  existsb (str_eqb (Number_toString n)) Object_prototype_keys = false.
Proof.
  destruct n as [|p|p]; cbn [Number_toString].
  - split; reflexivity.
  - pose proof (Unsigned.to_uint_nonnil p) as Hnil.
    destruct (Pos.to_uint p); [now elim Hnil|..]; split; reflexivity.
  - split; reflexivity.
Qed.

Lemma display_not_string (v : value) :
  as_string v = None -> getStatusDisplayName v = Same v.
Proof.
  destruct v as [| |[|]|n|s]; try reflexivity; [|discriminate].
  intros _. unfold getStatusDisplayName. cbn [ToPropertyKey].
  destruct (number_key n) as [-> ->]. reflexivity.
Qed.

Lemma display_string (s : jsstr) :
  getStatusDisplayName (VStr s)
  = if str_eqb s (lit "incomplete") then Name (lit "Not Started")
    else if str_eqb s (lit "in-progress") then Name (lit "In Progress")
    else if str_eqb s (lit "complete") then Name (lit "Completed")
    else if str_eqb s (lit "archived") then Name (lit "Archived")
    else if existsb (str_eqb s) Object_prototype_keys then Member s
    else Same (VStr s).
Proof.
  unfold getStatusDisplayName, statusMap. cbn [ToPropertyKey own_property].
  repeat match goal with
         | |- context [if str_eqb s ?k then _ else _] =>
             destruct (str_eqb s k); [reflexivity|]
         end.
  reflexivity.
Qed.

Lemma valid_status_string (s : jsstr) :
  isValidStatus (VStr s)
  = str_eqb s (lit "incomplete") || str_eqb s (lit "in-progress")
    || str_eqb s (lit "complete") || str_eqb s (lit "archived").
Proof.
  unfold isValidStatus, validStatuses. cbn [existsb same_value_zero].
  now rewrite orb_false_r, !orb_assoc.
Qed.

(** The statuses with a display name, and their names. *)
Lemma display_name_inv (v : value) (name : jsstr) :
  getStatusDisplayName v = Name name ->
  (v = VStr (lit "incomplete") /\ name = lit "Not Started") \/
  (v = VStr (lit "in-progress") /\ name = lit "In Progress") \/
  (v = VStr (lit "complete") /\ name = lit "Completed") \/
  (v = VStr (lit "archived") /\ name = lit "Archived").
Proof.
  destruct v as [| |b|n|s];
    try (rewrite display_not_string by reflexivity; discriminate).
  rewrite display_string.
  destruct (str_eqb s (lit "incomplete")) eqn:E1;
    [apply str_eqb_eq in E1; intros H; injection H as <-; subst s; tauto|].
  destruct (str_eqb s (lit "in-progress")) eqn:E2;
    [apply str_eqb_eq in E2; intros H; injection H as <-; subst s; tauto|].
  destruct (str_eqb s (lit "complete")) eqn:E3;
    [apply str_eqb_eq in E3; intros H; injection H as <-; subst s; tauto|].
  destruct (str_eqb s (lit "archived")) eqn:E4;
    [apply str_eqb_eq in E4; intros H; injection H as <-; subst s; tauto|].
  destruct (existsb _ _); discriminate.
Qed.

End DisplayNames.

(** [getStatusDisplayName] on a string, and [isValidStatus].  A string has
    a display name of its own exactly when it is one of the four statuses
    that [isValidStatus] recognises: ["Not Started"] for ["incomplete"],
    ["In Progress"] for ["in-progress"], ["Completed"] for ["complete"],
    ["Archived"] for ["archived"]; different statuses have different
    names.  Any other string comes back as it is, except the key of a
    member of [Object.prototype] (["constructor"], ["toString"], ...), for
    which the result is that member and no string.  [undefined], [null],
    a boolean and a number come back as they are. *)
Theorem getStatusDisplayName_cases (s : jsstr) :
  (forall name,
     getStatusDisplayName (VStr s) = Name name <->
     In (s, name)
        [ (lit "incomplete", lit "Not Started");
          (lit "in-progress", lit "In Progress");
          (lit "complete", lit "Completed");
          (lit "archived", lit "Archived") ]) /\
  (isValidStatus (VStr s) = true <->
   exists name, getStatusDisplayName (VStr s) = Name name) /\
  (forall t,
     isValidStatus (VStr s) = true ->
     getStatusDisplayName (VStr t) = getStatusDisplayName (VStr s) ->
     t = s) /\
  (isValidStatus (VStr s) = false ->
   ~ In s Object_prototype_keys ->
   getStatusDisplayName (VStr s) = Same (VStr s)) /\
  (In s Object_prototype_keys -> getStatusDisplayName (VStr s) = Member s) /\
  getStatusDisplayName VUndefined = Same VUndefined /\
  getStatusDisplayName VNull = Same VNull /\
  (forall b, getStatusDisplayName (VBool b) = Same (VBool b)) /\
  (forall n, getStatusDisplayName (VNum n) = Same (VNum n)).
Proof.
  assert (Hiff : isValidStatus (VStr s) = true <->
                 exists name, getStatusDisplayName (VStr s) = Name name).
  { rewrite valid_status_string, display_string.
    destruct (str_eqb s (lit "incomplete"));
      [split; [intros _; eexists; reflexivity|reflexivity]|].
    destruct (str_eqb s (lit "in-progress"));
      [split; [intros _; eexists; reflexivity|reflexivity]|].
    destruct (str_eqb s (lit "complete"));
      [split; [intros _; eexists; reflexivity|reflexivity]|].
    destruct (str_eqb s (lit "archived"));
      [split; [intros _; eexists; reflexivity|reflexivity]|].
    cbn [orb]. split; [discriminate|].
    destruct (existsb _ _); intros [name H]; discriminate H. }
  split; [|split; [exact Hiff|split; [|split; [|split]]]].
  - intros name. split.
    + intros H. apply display_name_inv in H.
      destruct H as [[E ->]|[[E ->]|[[E ->]|[E ->]]]]; injection E as ->;
        cbn [In]; tauto.
    + intros H. cbn [In] in H.
      destruct H as [E|[E|[E|[E|[]]]]]; injection E as <- <-; reflexivity.
  - intros t Hv Heq. apply Hiff in Hv as [name Hn].
    rewrite Hn in Heq.
    apply display_name_inv in Hn, Heq.
    destruct Hn as [[E Hn]|[[E Hn]|[[E Hn]|[E Hn]]]]; injection E as ->;
      destruct Heq as [[E He]|[[E He]|[[E He]|[E He]]]]; injection E as ->;
      try reflexivity; rewrite Hn in He; vm_compute in He; discriminate He.
  - intros Hv Hkey. rewrite valid_status_string in Hv. rewrite display_string.
    destruct (str_eqb s (lit "incomplete")); [discriminate Hv|].
    destruct (str_eqb s (lit "in-progress")); [discriminate Hv|].
    destruct (str_eqb s (lit "complete")); [discriminate Hv|].
    destruct (str_eqb s (lit "archived")); [discriminate Hv|].
    destruct (existsb (str_eqb s) Object_prototype_keys) eqn:E;
      [|reflexivity].
    exfalso. apply Hkey.
    apply existsb_exists in E as [k [Hk E]].
    apply str_eqb_eq in E. now subst k.
  - intros Hkey. unfold Object_prototype_keys in Hkey. cbn [In] in Hkey.
    repeat (destruct Hkey as [<-|Hkey]; [reflexivity|]). contradiction.
  - repeat split; try reflexivity; intros x;
      apply display_not_string; reflexivity.
Qed.

(* ------------------------------------------------------------------ *)
(** ** The console *)

Ltac run_logged :=
  cbv beta iota zeta delta
    [try_catch bind ret throw Hardened.on_failure Logged.on_failure
     Logged.on_failure_logged Logged.console_error Logged.db_call fst snd].

(** Closes a case in which both handlers have run to their end. *)
Ltac logged_leaf :=
  let H := fresh "H" in
  intros H; cbv beta delta [ret] in H; inj H;
  split; [reflexivity|];
  first [ exists []; split; [symmetry; apply List.app_nil_r|reflexivity]
        | eexists; split; [reflexivity|]; hnf;
          eexists; split; reflexivity ].

Section ConsoleFacts.

Variable DB : Type.
Variable L : dbLayer DB.
Variable now : jsstr.
Variables (db db' : DB) (console console' : Logged.Console).
Variable out : completion Response.t.

Lemma get_todos_logged :
  Logged.get_todos L (db, console) = (out, (db', console')) ->
  Hardened.get_todos L db = (out, db') /\
  exists lines, console' = console ++ lines /\
                logged_by now GET_todos out lines.
Proof.
  unfold Logged.get_todos, Hardened.get_todos. run_logged.
  call_outcome; logged_leaf.
Qed.

Lemma get_todo_logged params_id :
  Logged.get_todo L params_id (db, console) = (out, (db', console')) ->
  Hardened.get_todo L params_id db = (out, db') /\
  exists lines, console' = console ++ lines /\
                logged_by now (GET_todo params_id) out lines.
Proof.
  unfold Logged.get_todo, Hardened.get_todo.
  destruct (validateTodoId params_id) as [e|id]; run_logged;
    [logged_leaf|].
  call_outcome; [|logged_leaf]. branch; logged_leaf.
Qed.

Lemma delete_todo_logged params_id :
  Logged.delete_todo L now params_id (db, console) = (out, (db', console')) ->
  Hardened.delete_todo L params_id db = (out, db') /\
  exists lines, console' = console ++ lines /\
                logged_by now (DELETE_todo params_id) out lines.
Proof.
  unfold Logged.delete_todo, Hardened.delete_todo.
  destruct (validateTodoId params_id) as [e|id]; run_logged;
    [logged_leaf|].
  call_outcome; [|logged_leaf]. repeat branch; logged_leaf.
Qed.

Lemma post_todos_logged request_json :
  Logged.post_todos L now request_json (db, console)
  = (out, (db', console')) ->
  Hardened.post_todos L request_json db = (out, db') /\
  exists lines, console' = console ++ lines /\
                logged_by now (POST_todos request_json) out lines.
Proof.
  unfold Logged.post_todos, Hardened.post_todos.
  destruct request_json as [body|]; run_logged; [|logged_leaf].
  destruct (negb (truthy (Body.title body))); [logged_leaf|].
  destruct (negb (truthy (VStr (sanitizeTitle (Body.title body)))));
    [logged_leaf|].
  destruct (isDescriptionTooLong _ _); [logged_leaf|].
  destruct (isValidDescription _) as [[|]|]; [|logged_leaf..].
  call_outcome; [|logged_leaf]. call_outcome; logged_leaf.
Qed.

Lemma put_todo_logged params_id request_json :
  Logged.put_todo L now params_id request_json (db, console)
  = (out, (db', console')) ->
  Hardened.put_todo L params_id request_json db = (out, db') /\
  exists lines, console' = console ++ lines /\
                logged_by now (PUT_todo params_id request_json) out lines.
Proof.
  unfold Logged.put_todo, Hardened.put_todo.
  destruct (validateTodoId params_id) as [e|id]; run_logged;
    [logged_leaf|].
  destruct request_json as [body|]; [|logged_leaf].
  destruct (negb (truthy (Body.title body))); [logged_leaf|].
  destruct (negb (truthy (VStr (sanitizeTitle (Body.title body)))));
    [logged_leaf|].
  call_outcome; [|logged_leaf].
  match goal with
  | |- context [match ?o with Some _ => _ | None => _ end] =>
      destruct o as [[|x found]|]
  end; cbn [List.length Nat.eqb]; [logged_leaf| |logged_leaf].
  destruct (isDescriptionTooLong _ _); [logged_leaf|].
  call_outcome; [|logged_leaf]. call_outcome; logged_leaf.
Qed.

End ConsoleFacts.

(** Logging is transparent, and it tells where it comes from.  With the
    console in the picture every request gets the response and leaves the
    store of the handlers without it, whatever the persistence layer does.
    A request writes at most one line: the 500 of the [catch] block of
    create, update or delete writes the line that [formatErrorMessage]
    makes of the failure, and nothing else writes (the two [GET] routes
    answer their 500 without a line).  The line of a failed update or
    delete carries the context of its route; the line of a failed create
    carries the context [GET /todos/:id]. *)
Theorem logging_is_transparent
  {DB} (L : dbLayer DB) (now : jsstr) (req : request)
  (db db' : DB) (console console' : Logged.Console)
  (out : completion Response.t) :
  Logged.fetch L now req (db, console) = (out, (db', console')) ->
  Hardened.fetch L req db = (out, db') /\
  exists lines, console' = console ++ lines /\ logged_by now req out lines.
Proof.
  destruct req as [| |params_id|body|params_id body|params_id|];
    cbn [Logged.fetch Hardened.fetch].
  - logged_leaf.
  - apply get_todos_logged.
  - apply get_todo_logged.
  - apply post_todos_logged.
  - apply put_todo_logged.
  - apply delete_todo_logged.
  - logged_leaf.
Qed.

Lemma logging_is_transparent_witness :
  let body := Body.mk (VStr (lit "Buy milk")) VUndefined VUndefined in
  let req := POST_todos (Some body) in
  let err := {| message := [] |} in
  let now := lit "2024-05-01T10:00:00.000Z" in
  let line := lit "[2024-05-01T10:00:00.000Z] GET /todos/:id: Unknown error" in
  let answer := Return (json (JError (lit "DB failure")) 500) in
  Logged.fetch (unreliable d1) now req ((empty_db, [Some err]), [])
  = (answer, ((empty_db, []), [line])) /\
  Hardened.fetch (unreliable d1) req (empty_db, [Some err])
  = (answer, (empty_db, [])).
Proof.
  intros body req err now line answer.
  assert (H : Logged.fetch (unreliable d1) now req
                ((empty_db, [Some err]), [])
              = (answer, ((empty_db, []), [line]))) by reflexivity.
  split; [exact H|].
  exact (proj1 (@logging_is_transparent _ (unreliable d1) now req _ _ _ _ _
                  H)).
Defined.

(* ------------------------------------------------------------------ *)
(** ** How many persistence calls a request makes *)

Ltac run_counting :=
  cbn [getAllTodos getTodoById insertTodo getLatestTodo todoExists updateTodo
       deleteTodo counting];
  cbv beta iota zeta delta
    [try_catch bind ret throw counted Hardened.on_failure fst snd].

Ltac counted_leaf :=
  let H := fresh "H" in
  intros H; cbv beta delta [ret] in H; inj H;
  split; [reflexivity|]; split; [cbn [max_calls]; lia|];
  split; intros; first [reflexivity | discriminate | lia].

Section CallCounts.

Variable DB : Type.
Variable L : dbLayer DB.
Variables (db db' : DB) (n n' : nat).
Variable out : completion Response.t.

Lemma get_todos_calls :
  Hardened.get_todos (counting L) (db, n) = (out, (db', n')) ->
  Hardened.get_todos L db = (out, db') /\
  (n <= n' <= n + max_calls GET_todos)%nat /\
  (n' = n <-> reaches_db GET_todos = false).
Proof.
  unfold Hardened.get_todos. run_counting. cbn [reaches_db].
  call_outcome; counted_leaf.
Qed.

Lemma get_todo_calls params_id :
  Hardened.get_todo (counting L) params_id (db, n) = (out, (db', n')) ->
  Hardened.get_todo L params_id db = (out, db') /\
  (n <= n' <= n + max_calls (GET_todo params_id))%nat /\
  (n' = n <-> reaches_db (GET_todo params_id) = false).
Proof.
  unfold Hardened.get_todo. cbn [reaches_db].
  destruct (validateTodoId params_id) as [e|id]; run_counting;
    cbn [isValid]; [counted_leaf|].
  call_outcome; [|counted_leaf]. branch; counted_leaf.
Qed.

Lemma delete_todo_calls params_id :
  Hardened.delete_todo (counting L) params_id (db, n) = (out, (db', n')) ->
  Hardened.delete_todo L params_id db = (out, db') /\
  (n <= n' <= n + max_calls (DELETE_todo params_id))%nat /\
  (n' = n <-> reaches_db (DELETE_todo params_id) = false).
Proof.
  unfold Hardened.delete_todo. cbn [reaches_db].
  destruct (validateTodoId params_id) as [e|id]; run_counting;
    cbn [isValid]; [counted_leaf|].
  call_outcome; [|counted_leaf]. repeat branch; counted_leaf.
Qed.

Lemma post_todos_calls request_json :
  Hardened.post_todos (counting L) request_json (db, n)
  = (out, (db', n')) ->
  Hardened.post_todos L request_json db = (out, db') /\
  (n <= n' <= n + max_calls (POST_todos request_json))%nat /\
  (n' = n <-> reaches_db (POST_todos request_json) = false).
Proof.
  unfold Hardened.post_todos. cbn [reaches_db]. unfold create_accepts.
  destruct request_json as [body|]; run_counting; [|counted_leaf].
  destruct (truthy (Body.title body)); cbn [negb andb]; [|counted_leaf].
  destruct (truthy (VStr (sanitizeTitle (Body.title body))));
    cbn [negb andb]; [|counted_leaf].
  destruct (isDescriptionTooLong _ _); cbn [negb andb]; [counted_leaf|].
  destruct (isValidDescription _) as [[|]|]; [|counted_leaf..].
  call_outcome; [|counted_leaf]. call_outcome; counted_leaf.
Qed.

Lemma put_todo_calls params_id request_json :
  Hardened.put_todo (counting L) params_id request_json (db, n)
  = (out, (db', n')) ->
  Hardened.put_todo L params_id request_json db = (out, db') /\
  (n <= n' <= n + max_calls (PUT_todo params_id request_json))%nat /\
  (n' = n <-> reaches_db (PUT_todo params_id request_json) = false).
Proof.
  unfold Hardened.put_todo. cbn [reaches_db].
  destruct (validateTodoId params_id) as [e|id]; run_counting;
    cbn [isValid andb]; [destruct request_json; counted_leaf|].
  destruct request_json as [body|]; [|counted_leaf].
  destruct (truthy (Body.title body)) eqn:Ht; cbn [negb].
  2:{ rewrite (sanitizeTitle_falsy _ Ht). counted_leaf. }
  destruct (truthy (VStr (sanitizeTitle (Body.title body))));
    cbn [negb]; [|counted_leaf].
  call_outcome; [|counted_leaf].
  match goal with
  | |- context [match ?o with Some _ => _ | None => _ end] =>
      destruct o as [[|x found]|]
  end; cbn [List.length Nat.eqb]; [counted_leaf| |counted_leaf].
  destruct (isDescriptionTooLong _ _); [counted_leaf|].
  call_outcome; [|counted_leaf]. call_outcome; counted_leaf.
Qed.

End CallCounts.

(** Counting the persistence calls changes no response, and the count
    shows what the handlers ask of the store: a request that does not pass
    the checks before its first call (invalid id, no JSON, missing or
    blank title, for create also a refused description) makes no call at
    all, every other request makes at least one, and no request makes
    more than its route allows: one for the reads and delete, two for
    create, three for update. *)
Theorem persistence_calls
  {DB} (L : dbLayer DB) (req : request) (db db' : DB) (n n' : nat)
  (out : completion Response.t) :
  Hardened.fetch (counting L) req (db, n) = (out, (db', n')) ->
  Hardened.fetch L req db = (out, db') /\
  (n <= n' <= n + max_calls req)%nat /\
  (n' = n <-> reaches_db req = false).
Proof.
  destruct req as [| |params_id|body|params_id body|params_id|];
    cbn [Hardened.fetch].
  - counted_leaf.
  - apply get_todos_calls.
  - apply get_todo_calls.
  - apply post_todos_calls.
  - apply put_todo_calls.
  - apply delete_todo_calls.
  - counted_leaf.
Qed.

Lemma persistence_calls_witness :
  let body := Some (Body.mk (VStr (lit "Buy milk")) VUndefined VUndefined) in
  let row := Todo.mk 1 (VStr (lit "Buy milk")) VNull (VStr (lit "incomplete")) in
  let after := {| rows := [row]; seq := 1 |} in
  Hardened.fetch (counting d1) (POST_todos body) (empty_db, 0%nat)
  = (Return (json (JTodo (Some row)) 201), (after, 2%nat)) /\
  Hardened.fetch d1 (POST_todos body) empty_db
  = (Return (json (JTodo (Some row)) 201), after).
Proof.
  intros body row after.
  assert (H : Hardened.fetch (counting d1) (POST_todos body)
                (empty_db, 0%nat)
              = (Return (json (JTodo (Some row)) 201), (after, 2%nat)))
    by reflexivity.
  split; [exact H|].
  exact (proj1 (@persistence_calls _ d1 (POST_todos body) _ _ _ _ _ H)).
Defined.

(* ------------------------------------------------------------------ *)
(** ** The list and the single Todo *)

Lemma filter_unique (rs : list Todo.t) (r : Todo.t) :
  NoDup (map Todo.id rs) -> In r rs -> filter (has_id (Todo.id r)) rs = [r].
Proof.
  induction rs as [|x rs IH]; [intros _ []|].
  cbn [map filter]. intros Hnd Hin. inversion Hnd as [|i l Hx Hnd']; subst.
  destruct Hin as [->|Hin].
  - unfold has_id at 1. rewrite Z.eqb_refl. f_equal.
    apply filter_has_id_none. intros r' Hr' E. apply Hx.
    rewrite <- E. now apply in_map.
  - unfold has_id at 1. destruct (Z.eqb_spec (Todo.id x) (Todo.id r)) as [E|_].
    + exfalso. apply Hx. rewrite E. now apply in_map.
    + now apply IH.
Qed.

(** The list and the single Todo agree.  On a table with unique positive
    ids, [GET /todos] answers the stored Todos; [GET /todos/:id] with a
    valid id answers 200 with a Todo exactly when it is the listed Todo
    with that id, and 404 exactly when no listed Todo has the id; and the
    id of every listed Todo, when it is below [2^53] and printed in
    decimal, is an id that the validator accepts as that id. *)
Theorem list_and_get_agree (db : D1) (params_id : jsstr) (id : Z) :
  well_keyed db ->
  validateTodoId params_id = ValidId id ->
  Hardened.get_todos d1 db = (Return (json (JTodos (rows db)) 200), db) /\
  (forall r,
     Hardened.get_todo d1 params_id db
     = (Return (json (JTodo (Some r)) 200), db)
     <-> In r (rows db) /\ Todo.id r = id) /\
  (Hardened.get_todo d1 params_id db = (Return not_found, db)
   <-> ~ In id (ids db)) /\
  (forall r, In r (rows db) ->
             Todo.id r < 2 ^ 53 ->
             validateTodoId (Number_toString (Todo.id r))
             = ValidId (Todo.id r)).
Proof.
  intros [Hnd Hpos] Hv. split; [reflexivity|].
  rewrite (get_todo_d1 params_id id db Hv). split; [|split].
  - intros r. split.
    + destruct (filter (has_id id) (rows db)) as [|r' rs] eqn:E;
        [discriminate|].
      intros H. injection H as <-.
      assert (Hr : In r' (filter (has_id id) (rows db)))
        by (rewrite E; now left).
      apply filter_In in Hr as [Hr Hid]. split; [exact Hr|].
      now apply Z.eqb_eq in Hid.
    + intros [Hr <-]. now rewrite (filter_unique _ r Hnd Hr).
  - split.
    + destruct (filter (has_id id) (rows db)) as [|r' rs] eqn:E;
        [|discriminate].
      intros _ Hin. unfold ids in Hin. apply in_map_iff in Hin as [r [Hid Hr]].
      exact (filter_has_id_nil_inv _ _ E r Hr Hid).
    + intros Hnone. rewrite filter_has_id_none; [reflexivity|].
      intros r Hr Hid. apply Hnone. unfold ids. rewrite <- Hid.
      now apply in_map.
  - intros r Hr Hmax. apply validateTodoId_valid.
    assert (H : 0 < Todo.id r).
    { rewrite Forall_forall in Hpos.
      assert (Hin : In (Todo.id r) (ids db)) by now apply in_map.
      apply Hpos in Hin. lia. }
    split; [now apply parseInt_Number_toString|exact H].
Qed.

Lemma list_and_get_agree_witness :
  let a := Todo.mk 1 (VStr (lit "a")) VNull (VStr (lit "complete")) in
  let b := Todo.mk 12 (VStr (lit "b")) VNull (VStr (lit "archived")) in
  let table := {| rows := [a; b]; seq := 12 |} in
  well_keyed table /\
  validateTodoId (lit "12") = ValidId 12 /\
  Hardened.get_todo d1 (lit "12") table
  = (Return (json (JTodo (Some b)) 200), table).
Proof.
  intros a b table.
  assert (Hk : well_keyed table).
  { split.
    - repeat constructor; cbn; intuition discriminate.
    - repeat constructor; cbn; lia. }
  split; [exact Hk|]. split; [reflexivity|].
  apply (proj1 (proj2 (@list_and_get_agree table (lit "12") 12 Hk eq_refl))).
  split; [right; now left|reflexivity].
Defined.
